(** * ScoopSentinel: the alert log, its gates and its compaction

    A shallow embedding of [base.py] and [cleanup.py]: the CSV event log
    ([litter_log.csv]), the throttle and quiet-hours decision
    ([should_send]), the daily digest gate ([should_send_morning]), header
    repair ([_ensure_log_header]), appending ([log_reading]) and the 48-hour
    compaction ([cleanup_log]).

    Conventions.
    - A Python call that can raise returns a [result]; the exception classes
      that occur are the constructors of [exn].
    - Text is [string]: a character is a code point below 256.
    - A sensor level (a Python float) is read as the exact rational it
      denotes, a [Q]; NaN and the infinities are outside the model.  The
      constants written [0.2] and [0.6] and the product [litterlevel * 100]
      are floats too: the exact value rounded to the nearest float
      ([float.round]).
    - The file system is a finite map from path to content.
    - The wall clock is an input: every function that calls
      [datetime.now(CENTRAL)] takes the reading as an argument. *)

From Stdlib Require Import ZArith QArith Qabs Qpower Ascii String Lia.
From Stdlib Require Import Numbers.DecimalString Numbers.DecimalPos.
From stdpp Require Import gmap strings list sorting.

Local Open Scope Z_scope.

(** ** Exceptions and results *)

Inductive exn : Type :=
| ValueError
| TypeError
| KeyError
| UnboundLocalError
| OverflowError
| OSError.

Inductive result (A : Type) : Type :=
| Ok (a : A)
| Raise (e : exn).

Arguments Ok {A} a.
Arguments Raise {A} e.

#[global] Instance result_ret : MRet result := fun _ a => Ok a.

#[global] Instance result_bind : MBind result := fun _ _ f m =>
  match m with
  | Ok a => f a
  | Raise e => Raise e
  end.

Definition raises {A} (r : result A) : Prop := exists e, r = Raise e.

#[global] Instance exn_eq_dec : EqDecision exn.
Proof. solve_decision. Defined.

(** ** Text helpers (Python [str] methods) *)

Module str.

Definition LF : ascii := "010"%char.
Definition CR : ascii := "013"%char.
Definition DQUOTE : ascii := "034"%char.

(** [str.isspace] on one character, for code points below 256. *)
Definition isspace (c : ascii) : bool :=
  let n := N_of_ascii c in
  ((9 <=? n) && (n <=? 13) || (28 <=? n) && (n <=? 32)
   || (n =? 133) || (n =? 160))%N.

Fixpoint lstrip (s : string) : string :=
  match s with
  | String c s' => if isspace c then lstrip s' else s
  | EmptyString => EmptyString
  end.

(** [rstrip] keeps a character when it is not a space or when something
    is kept after it. *)
Fixpoint rstrip (s : string) : string :=
  match s with
  | String c s' =>
      match rstrip s' with
      | EmptyString => if isspace c then EmptyString else String c EmptyString
      | r => String c r
      end
  | EmptyString => EmptyString
  end.

Definition strip (s : string) : string := rstrip (lstrip s).

(** [sep.join(parts)] *)
Fixpoint join (sep : string) (parts : list string) : string :=
  match parts with
  | [] => ""
  | [p] => p
  | p :: ps => p +:+ sep +:+ join sep ps
  end.

Definition isdigit (c : ascii) : bool :=
  let n := N_of_ascii c in ((48 <=? n) && (n <=? 57))%N.

Definition digit_val (c : ascii) : Z := Z.of_N (N_of_ascii c) - 48.

(** The value of a string of ASCII digits, [None] when it holds anything
    else or is empty. *)
Fixpoint digits_acc (acc : Z) (s : string) : option Z :=
  match s with
  | EmptyString => Some acc
  | String c s' =>
      if isdigit c then digits_acc (10 * acc + digit_val c) s' else None
  end.

Definition digits (s : string) : option Z :=
  match s with
  | EmptyString => None
  | _ => digits_acc 0 s
  end.

Definition digit_char (d : Z) : ascii := ascii_of_N (Z.to_N (48 + d mod 10)).

(** [w] decimal digits of [n], zero padded on the left (["%0wd"] for
    [0 <= n < 10^w]). *)
Fixpoint zpad (w : nat) (n : Z) : string :=
  match w with
  | O => ""
  | S w' => zpad w' (n / 10) +:+ String (digit_char n) ""
  end.

(** [str(n)] for a natural number. *)
Definition of_N (n : N) : string := NilEmpty.string_of_uint (N.to_uint n).

Fixpoint take (n : nat) (s : string) : string :=
  match n, s with
  | S n', String c s' => String c (take n' s')
  | _, _ => ""
  end.

Fixpoint drop (n : nat) (s : string) : string :=
  match n, s with
  | S n', String _ s' => drop n' s'
  | _, _ => s
  end.

(** [s.split(sep)] for a separator of one character; the list it returns
    is never empty. *)
Fixpoint split (sep : ascii) (s : string) : list string :=
  match s with
  | EmptyString => [EmptyString]
  | String c s' =>
      if Ascii.eqb c sep then EmptyString :: split sep s'
      else
        match split sep s' with
        | p :: ps => String c p :: ps
        | [] => [String c EmptyString]
        end
  end.

End str.

(** ** Dates and times (Python's [datetime] module)

    Durations ([timedelta]) are whole microseconds.  A [datetime] holds the
    wall-clock fields and an optional [tzinfo]; it is naive without one. *)

Module datetime.

Definition timedelta : Type := Z.

Definition hours (h : Z) : timedelta := h * 3600000000.

Inductive tzinfo : Type :=
| timezone (offset : timedelta)   (* a fixed offset, as [fromisoformat] builds *)
| ZoneInfo_Chicago.               (* [ZoneInfo("America/Chicago")] *)

Record t : Type := mk
  { year : Z; month : Z; day : Z;
    hour : Z; minute : Z; second : Z; microsecond : Z;
    tz : option tzinfo;
    fold : bool }.

(** What the system clock shows on the wall clock of a zone; [now] makes
    the aware [datetime] that [datetime.now(zone)] returns from it. *)
Record reading : Type := mkreading
  { r_year : Z; r_month : Z; r_day : Z;
    r_hour : Z; r_minute : Z; r_second : Z; r_microsecond : Z;
    r_fold : bool }.

Definition now (r : reading) (zone : tzinfo) : t :=
  mk (r_year r) (r_month r) (r_day r) (r_hour r) (r_minute r) (r_second r)
     (r_microsecond r) (Some zone) (r_fold r).

Definition is_leap (y : Z) : bool :=
  (y mod 4 =? 0) && (negb (y mod 100 =? 0) || (y mod 400 =? 0)).

Definition days_in_month (y m : Z) : Z :=
  if m =? 2 then (if is_leap y then 29 else 28)
  else if (m =? 4) || (m =? 6) || (m =? 9) || (m =? 11) then 30
  else 31.

Definition days_before_year (y : Z) : Z :=
  let y1 := y - 1 in y1 * 365 + y1 / 4 - y1 / 100 + y1 / 400.

Definition DAYS_BEFORE_MONTH (m : Z) : Z :=
  match m with
  | 1 => 0 | 2 => 31 | 3 => 59 | 4 => 90 | 5 => 120 | 6 => 151
  | 7 => 181 | 8 => 212 | 9 => 243 | 10 => 273 | 11 => 304 | 12 => 334
  | _ => -1
  end.

Definition days_before_month (y m : Z) : Z :=
  DAYS_BEFORE_MONTH m + (if (2 <? m) && is_leap y then 1 else 0).

(** [date.toordinal()]: 0001-01-01 is day 1. *)
Definition ymd2ord (y m d : Z) : Z :=
  days_before_year y + days_before_month y m + d.

(** The month and day of the [n]-th day (from 0) of a year, as the tail
    of CPython's [_ord2ymd] finds them: an estimate of the month that is
    corrected when it is one too large. *)
Definition month_day (leapyear : bool) (n : Z) : Z * Z :=
  let m := Z.shiftr (n + 50) 5 in
  let preceding :=
    DAYS_BEFORE_MONTH m + (if (2 <? m) && leapyear then 1 else 0) in
  if n <? preceding then
    let m' := m - 1 in
    let dim :=
      if m' =? 2 then (if leapyear then 29 else 28)
      else if (m' =? 4) || (m' =? 6) || (m' =? 9) || (m' =? 11) then 30
      else 31 in
    (m', n - (preceding - dim) + 1)
  else (m, n - preceding + 1).

(** [date.fromordinal(n)], CPython's [_ord2ymd]. *)
Definition ord2ymd (n : Z) : Z * Z * Z :=
  let n := n - 1 in
  let n400 := n / 146097 in
  let n := n mod 146097 in
  let n100 := n / 36524 in
  let n := n mod 36524 in
  let n4 := n / 1461 in
  let n := n mod 1461 in
  let n1 := n / 365 in
  let n := n mod 365 in
  let y := n400 * 400 + 1 + n100 * 100 + n4 * 4 + n1 in
  if (n1 =? 4) || (n100 =? 4) then (y - 1, 12, 31)
  else
    let leapyear := (n1 =? 3) && (negb (n4 =? 24) || (n100 =? 3)) in
    let '(m, d) := month_day leapyear n in
    (y, m, d).

(** The wall-clock reading as microseconds since the start of day 0. *)
Definition wall_us (d : t) : Z :=
  (((ymd2ord (year d) (month d) (day d) * 24 + hour d) * 60 + minute d) * 60
   + second d) * 1000000 + microsecond d.

(** [date.weekday()]: Monday is 0, Sunday is 6. *)
Definition weekday (y m d : Z) : Z := (ymd2ord y m d + 6) mod 7.

Definition sunday_on_or_after (y m d : Z) : Z :=
  d + (6 - weekday y m d) mod 7.

(** The zone rule of America/Chicago in force since 2007: daylight time
    from the second Sunday of March, 02:00, to the first Sunday of
    November, 02:00.  In the spring gap [fold = false] answers with the
    offset before the change, and in the autumn overlap with the first
    (daylight) reading, as [zoneinfo] does. *)
Definition chicago_is_dst (d : t) : bool :=
  let y := year d in
  let at_ (mo da h : Z) :=
    ((ymd2ord y mo da * 24 + h) * 3600) * 1000000 in
  let s := sunday_on_or_after y 3 8 in
  let e := sunday_on_or_after y 11 1 in
  let w := wall_us d in
  if fold d
  then (at_ 3 s 2 <=? w) && (w <? at_ 11 e 1)
  else (at_ 3 s 3 <=? w) && (w <? at_ 11 e 2).

Definition chicago_utcoffset (d : t) : timedelta :=
  if chicago_is_dst d then hours (-5) else hours (-6).

(** [d.utcoffset()] *)
Definition utcoffset (d : t) : option timedelta :=
  match tz d with
  | None => None
  | Some (timezone o) => Some o
  | Some ZoneInfo_Chicago => Some (chicago_utcoffset d)
  end.

(** [d.date()], as the triple it compares by. *)
Definition date (d : t) : Z * Z * Z := (year d, month d, day d).

Definition same_tzinfo (a b : t) : bool :=
  match tz a, tz b with
  | Some ZoneInfo_Chicago, Some ZoneInfo_Chicago => true
  | _, _ => false
  end.

(** [a - b] for two datetimes.  Mixing a naive and an aware operand is a
    [TypeError]; two aware operands with distinct [tzinfo] objects are
    compared as instants. *)
Definition sub (a b : t) : result timedelta :=
  match utcoffset a, utcoffset b with
  | None, None => Ok (wall_us a - wall_us b)
  | Some oa, Some ob =>
      if same_tzinfo a b then Ok (wall_us a - wall_us b)
      else Ok ((wall_us a - oa) - (wall_us b - ob))
  | _, _ => Raise TypeError
  end.

(** [a >= b] *)
Definition ge (a b : t) : result bool :=
  delta ← sub a b; mret (0 <=? delta).

(** [d + delta]: arithmetic on the wall clock; the [tzinfo] is kept and
    [fold] is cleared.  Leaving the years 1..9999 is an [OverflowError]. *)
Definition add_timedelta (d : t) (delta : timedelta) : result t :=
  let total := wall_us d + delta in
  let days := total / 86400000000 in
  let rem := total mod 86400000000 in
  if (0 <? days) && (days <=? 3652059) then
    let '(y, m, dd) := ord2ymd days in
    let secs := rem / 1000000 in
    Ok (mk y m dd (secs / 3600) ((secs mod 3600) / 60) (secs mod 60)
           (rem mod 1000000) (tz d) false)
  else Raise OverflowError.

Definition valid_fields (y m d hh mm ss us : Z) : bool :=
  (1 <=? y) && (y <=? 9999) && (1 <=? m) && (m <=? 12)
  && (1 <=? d) && (d <=? days_in_month y m)
  && (0 <=? hh) && (hh <=? 23) && (0 <=? mm) && (mm <=? 59)
  && (0 <=? ss) && (ss <=? 59) && (0 <=? us) && (us <=? 999999).

(** *** [datetime.isoformat()] *)

Definition format_time (hh mm ss us : Z) : string :=
  str.zpad 2 hh +:+ ":" +:+ str.zpad 2 mm +:+ ":" +:+ str.zpad 2 ss
  +:+ (if us =? 0 then "" else "." +:+ str.zpad 6 us).

Definition format_offset (off : option timedelta) : string :=
  match off with
  | None => ""
  | Some o =>
      let sign := if o <? 0 then "-" else "+" in
      let a := Z.abs o in
      let hh := a / 3600000000 in
      let r := a mod 3600000000 in
      let mm := r / 60000000 in
      let r := r mod 60000000 in
      let ss := r / 1000000 in
      let us := r mod 1000000 in
      sign +:+ str.zpad 2 hh +:+ ":" +:+ str.zpad 2 mm
      +:+ (if (ss =? 0) && (us =? 0) then "" else ":" +:+ str.zpad 2 ss)
      +:+ (if us =? 0 then "" else "." +:+ str.zpad 6 us)
  end.

Definition isoformat (d : t) : string :=
  str.zpad 4 (year d) +:+ "-" +:+ str.zpad 2 (month d) +:+ "-"
  +:+ str.zpad 2 (day d) +:+ "T"
  +:+ format_time (hour d) (minute d) (second d) (microsecond d)
  +:+ format_offset (utcoffset d).

(** *** [datetime.fromisoformat(s)]

    The documented grammar
    [YYYY-MM-DD[*HH[:MM[:SS[.fff[fff]]]][+HH:MM[:SS[.ffffff]]]]], which is
    what [isoformat] emits.  (Interpreters from 3.11 on read further ISO 8601
    spellings; they read the strings of this grammar the same way.)  Any
    other string, or a field out of range, is a [ValueError]. *)

(** Exactly [w] digits at the head of [s]: their value and the rest. *)
Definition fixed (w : nat) (s : string) : option (Z * string) :=
  if Nat.eqb (String.length (str.take w s)) w then
    v ← str.digits (str.take w s); Some (v, str.drop w s)
  else None.

Definition expect (c : ascii) (s : string) : option string :=
  match s with
  | String c' s' => if Ascii.eqb c c' then Some s' else None
  | EmptyString => None
  end.

(** [HH[:MM[:SS[.fff[fff]]]]], the whole of [s]. *)
Definition parse_hh_mm_ss_ff (s : string) : option (Z * Z * Z * Z) :=
  '(hh, s) ← fixed 2 s;
  match s with
  | EmptyString => Some (hh, 0, 0, 0)
  | _ =>
    s ← expect ":" s;
    '(mm, s) ← fixed 2 s;
    match s with
    | EmptyString => Some (hh, mm, 0, 0)
    | _ =>
      s ← expect ":" s;
      '(ss, s) ← fixed 2 s;
      match s with
      | EmptyString => Some (hh, mm, ss, 0)
      | _ =>
        s ← expect "." s;
        match String.length s with
        | 3%nat => us ← str.digits s; Some (hh, mm, ss, us * 1000)
        | 6%nat => us ← str.digits s; Some (hh, mm, ss, us)
        | _ => None
        end
      end
    end
  end.

(** Splits the time of day from the offset at the first sign character. *)
Fixpoint split_tz (s : string) : string * option (bool * string) :=
  match s with
  | EmptyString => (EmptyString, None)
  | String c s' =>
      if Ascii.eqb c "+" then (EmptyString, Some (false, s'))
      else if Ascii.eqb c "-" then (EmptyString, Some (true, s'))
      else let '(a, b) := split_tz s' in (String c a, b)
  end.

Definition parse_tz (z : option (bool * string)) : option (option tzinfo) :=
  match z with
  | None => Some None
  | Some (neg, zs) =>
      let n := String.length zs in
      if Nat.eqb n 5 || Nat.eqb n 8 || Nat.eqb n 15 then
        '(hh, mm, ss, us) ← parse_hh_mm_ss_ff zs;
        let o := ((hh * 60 + mm) * 60 + ss) * 1000000 + us in
        let o := if neg then - o else o in
        if (hours (-24) <? o) && (o <? hours 24)
        then Some (Some (timezone o)) else None
      else None
  end.

Definition parse_isoformat (s : string) : option t :=
  '(y, s) ← fixed 4 s;
  s ← expect "-" s;
  '(m, s) ← fixed 2 s;
  s ← expect "-" s;
  '(d, s) ← fixed 2 s;
  '(hh, mm, ss, us, z) ←
    match s with
    | EmptyString => Some (0, 0, 0, 0, None)
    | String _ ts =>
        let '(timestr, z) := split_tz ts in
        '(hh, mm, ss, us) ← parse_hh_mm_ss_ff timestr;
        z ← parse_tz z;
        Some (hh, mm, ss, us, z)
    end;
  if valid_fields y m d hh mm ss us
  then Some (mk y m d hh mm ss us z false) else None.

Definition fromisoformat (s : string) : result t :=
  match parse_isoformat s with
  | Some d => Ok d
  | None => Raise ValueError
  end.

End datetime.

(** ** CSV records (Python's [csv] module, dialect [excel])

    [reader] is CPython's record lexer run over the whole text of a file
    opened with [newline=""]: the file is cut into lines at LF, CR or CR LF
    and a record ends with its line unless a quoted field is open.  A blank
    line yields the empty record.  The lexer's limit on the length of a
    field (131072 characters, beyond which it raises [csv.Error]) is not
    modelled: the fields of a log are taken to be shorter. *)

Module csv.

Inductive state : Type :=
| START_RECORD
| AFTER_CR          (* [START_RECORD] just after a CR: a LF belongs to it *)
| START_FIELD
| IN_FIELD
| IN_QUOTED_FIELD
| QUOTE_IN_QUOTED_FIELD.

Definition snoc (s : string) (c : ascii) : string := s +:+ String c "".

Definition after_eol (c : ascii) : state :=
  if Ascii.eqb c str.CR then AFTER_CR else START_RECORD.

Definition is_eol (c : ascii) : bool :=
  Ascii.eqb c str.LF || Ascii.eqb c str.CR.

Fixpoint parse (st : state) (field : string) (fields : list string)
    (s : string) : list (list string) :=
  match s with
  | EmptyString =>
      match st with
      | START_RECORD | AFTER_CR => []
      | _ => [fields ++ [field]]
      end
  | String c s' =>
      match st with
      | START_RECORD | AFTER_CR =>
          if Ascii.eqb c str.LF then
            match st with
            | AFTER_CR => parse START_RECORD "" [] s'
            | _ => [] :: parse START_RECORD "" [] s'
            end
          else if Ascii.eqb c str.CR then [] :: parse AFTER_CR "" [] s'
          else if Ascii.eqb c str.DQUOTE then parse IN_QUOTED_FIELD "" [] s'
          else if Ascii.eqb c "," then parse START_FIELD "" [""] s'
          else parse IN_FIELD (String c "") [] s'
      | START_FIELD =>
          if is_eol c then
            (fields ++ [""]) :: parse (after_eol c) "" [] s'
          else if Ascii.eqb c str.DQUOTE then parse IN_QUOTED_FIELD "" fields s'
          else if Ascii.eqb c "," then parse START_FIELD "" (fields ++ [""]) s'
          else parse IN_FIELD (String c "") fields s'
      | IN_FIELD =>
          if is_eol c then
            (fields ++ [field]) :: parse (after_eol c) "" [] s'
          else if Ascii.eqb c ","
          then parse START_FIELD "" (fields ++ [field]) s'
          else parse IN_FIELD (snoc field c) fields s'
      | IN_QUOTED_FIELD =>
          if Ascii.eqb c str.DQUOTE then parse QUOTE_IN_QUOTED_FIELD field fields s'
          else parse IN_QUOTED_FIELD (snoc field c) fields s'
      | QUOTE_IN_QUOTED_FIELD =>
          if Ascii.eqb c str.DQUOTE then parse IN_QUOTED_FIELD (snoc field c) fields s'
          else if Ascii.eqb c ","
          then parse START_FIELD "" (fields ++ [field]) s'
          else if is_eol c then
            (fields ++ [field]) :: parse (after_eol c) "" [] s'
          else parse IN_FIELD (snoc field c) fields s'
      end
  end.

(** [list(csv.reader(f))] for a file whose text is [s]. *)
Definition reader (s : string) : list (list string) :=
  parse START_RECORD "" [] s.

(** *** Writing *)

Definition special (c : ascii) : bool :=
  Ascii.eqb c "," || Ascii.eqb c str.DQUOTE || is_eol c.

Fixpoint needs_quotes (f : string) : bool :=
  match f with
  | EmptyString => false
  | String c f' => special c || needs_quotes f'
  end.

Fixpoint double_quotes (f : string) : string :=
  match f with
  | EmptyString => EmptyString
  | String c f' =>
      if Ascii.eqb c str.DQUOTE then String c (String c (double_quotes f'))
      else String c (double_quotes f')
  end.

Definition quoted (f : string) : string :=
  String str.DQUOTE (double_quotes f +:+ String str.DQUOTE "").

Definition write_field (f : string) : string :=
  if needs_quotes f then quoted f else f.

Definition lineterminator : string := String str.CR (String str.LF "").

(** The text [writer.writerow(fields)] appends to its file. *)
Definition writerow (fields : list string) : string :=
  match fields with
  | [EmptyString] => quoted ""
  | _ => str.join "," (write_field <$> fields)
  end +:+ lineterminator.

Definition writerows (rows : list (list string)) : string :=
  foldr (fun r acc => writerow r +:+ acc) "" rows.

(** *** [DictReader] and [DictWriter]

    A row dictionary maps a field name to a string or to [None] (a short
    row), and keeps the surplus fields of a long row under the key [None]
    ([restkey]). *)

Record row : Type := mkrow
  { named : gmap string (option string);
    rest : option (list string) }.

Fixpoint zip_insert (ks vs : list string) (d : gmap string (option string))
    : gmap string (option string) :=
  match ks, vs with
  | k :: ks', v :: vs' => zip_insert ks' vs' (<[k := Some v]> d)
  | _, _ => d
  end.

Definition fill_missing (ks : list string) (d : gmap string (option string))
    : gmap string (option string) :=
  foldl (fun d k => <[k := None]> d) d ks.

(** [DictReader.__next__] on one non-empty record. *)
Definition to_dict (fieldnames r : list string) : row :=
  let d := zip_insert fieldnames r ∅ in
  let lf := length fieldnames in
  let lr := length r in
  if (lf <? lr)%nat then mkrow d (Some (drop lf r))
  else mkrow (fill_missing (drop lr fieldnames) d) None.

Definition nonblank (r : list string) : bool :=
  match r with [] => false | _ => true end.

(** [reader.fieldnames]: the first record, [None] for an empty file. *)
Definition DictReader_fieldnames (s : string) : option (list string) :=
  head (reader s).

(** The rows [for row in DictReader(f)] visits, in order. *)
Definition DictReader (s : string) : list row :=
  match reader s with
  | [] => []
  | fieldnames :: recs => to_dict fieldnames <$> filter nonblank recs
  end.

(** [row[key]] *)
Definition getitem (r : row) (key : string) : result (option string) :=
  match named r !! key with
  | Some v => Ok v
  | None => Raise KeyError
  end.

(** [row.get(key)] *)
Definition get (r : row) (key : string) : option string :=
  default None (named r !! key).

(** [DictWriter._dict_to_list]: a key outside [fieldnames] is a
    [ValueError]; a missing or [None] value is written as the empty
    string. *)
Definition dict_to_list (fieldnames : list string) (r : row)
    : result (list string) :=
  if bool_decide (rest r = None)
     && bool_decide (dom (named r) ⊆ (list_to_set fieldnames : gset string))
  then Ok ((fun k => default "" (get r k)) <$> fieldnames)
  else Raise ValueError.

(** [DictWriter(f, fieldnames).writeheader()]; [fieldnames=None] cannot be
    zipped. *)
Definition writeheader (fieldnames : option (list string)) : result string :=
  match fieldnames with
  | Some fn => Ok (writerow fn)
  | None => Raise TypeError
  end.

Definition DictWriter_writerow (fieldnames : list string) (r : row)
    : result string :=
  fields ← dict_to_list fieldnames r; mret (writerow fields).

End csv.

(** ** Files (Python's [os] and text-mode [open])

    The file system maps a path to the text of the file there. *)

Module os.

Definition path_exists (fs : gmap string string) (p : string) : bool :=
  bool_decide (is_Some (fs !! p)).

Definition unlink (fs : gmap string string) (p : string)
    : gmap string string :=
  delete p fs.

(** [os.replace(src, dst)]: [dst] takes the text of [src] and [src] is
    gone, in one step. *)
Definition replace (fs : gmap string string) (src dst : string)
    : result (gmap string string) :=
  match fs !! src with
  | Some text => Ok (<[dst := text]> (delete src fs))
  | None => Raise OSError
  end.

(** [f.readline()] at the start of a file opened with [newline=""]: the
    text up to and including the first LF, CR or CR LF. *)
Fixpoint readline (s : string) : string :=
  match s with
  | EmptyString => EmptyString
  | String c s' =>
      if Ascii.eqb c str.LF then String c EmptyString
      else if Ascii.eqb c str.CR then
        match s' with
        | String c' _ =>
            if Ascii.eqb c' str.LF then String c (String c' EmptyString)
            else String c EmptyString
        | EmptyString => String c EmptyString
        end
      else String c (readline s')
  end.

End os.

(** ** Floating point (Python's [float], IEEE 754 binary64)

    A finite float is represented by the rational it denotes.  A literal,
    a product and a quotient give the exact value rounded to the nearest
    float, a tie going to the float whose last bit is 0.  The floats
    around [x] are the multiples of [2 ^ exponent x]: 53 significant bits,
    and [2 ^ -1074] apart near 0.  [round] puts no upper bound on the
    exponent: a result of magnitude [2 ^ 1024] or more stands for Python's
    [inf], and [finite] excludes it. *)

Module float.

(** [2 ^ k] for an integer [k]. *)
Definition pow2 (k : Z) : Q := (2 ^ k)%Q.

(** The [k] with [2 ^ k <= x < 2 ^ (k + 1)], for a positive [x]. *)
Definition ilog2 (x : Q) : Z :=
  let k := Z.log2 (Qnum x) - Z.log2 (Zpos (Qden x)) in
  if Qle_bool (pow2 k) x then k else k - 1.

(** The nearest integer, a tie going to the even one. *)
Definition rint (x : Q) : Z :=
  let n := Qnum x in
  let d := Zpos (Qden x) in
  match 2 * (n mod d) ?= d with
  | Lt => n / d
  | Gt => n / d + 1
  | Eq => if Z.even (n / d) then n / d else n / d + 1
  end.

Definition exponent (x : Q) : Z := Z.max (ilog2 (Qabs x) - 52) (-1074).

(** The float nearest to [x]. *)
Definition round (x : Q) : Q :=
  if Qeq_bool x 0 then 0
  else
    let e := exponent x in
    Qred (inject_Z (rint (x / pow2 e)) * pow2 e).

(** [a * b] and [a / b] on floats. *)
Definition mul (a b : Q) : Q := round (a * b).
Definition div (a b : Q) : Q := round (a / b).

(** The magnitude is in the range of the floats. *)
Definition finite (x : Q) : Prop := (Qabs x < pow2 1024)%Q.

End float.

(** * base.py *)

(** [config.json], as far as the log logic reads it: the optional key
    ["test"]. *)
Record config : Type := mkconfig { test : option bool }.

Definition TEST_MODE (cfg : config) : bool := default false (test cfg).

(** [phones = [p.strip() for p in config["phone"].split(",")]], from the
    string under the key ["phone"]. *)
Definition phones (phone : string) : list string :=
  str.strip <$> str.split "," phone.

Definition LOG_FILE : string := "litter_log.csv".

Definition CENTRAL : datetime.tzinfo := datetime.ZoneInfo_Chicago.

Definition BOXcutoff1 : Q := 90.
Definition BOXcutoff2 : Q := 70.

Definition litterLevel1 : Q := float.round 0.2.
Definition litterLevel2 : Q := float.round 0.6.

(** [f"{x:.1f}"]: one decimal, the exact value rounded half to even. *)
Definition format_1f (x : Q) : string :=
  let num := Z.abs (Qnum x) * 10 in
  let den := Zpos (Qden x) in
  let n := num / den in
  let r := num mod den in
  let n :=
    match 2 * r ?= den with
    | Gt => n + 1
    | Eq => if Z.odd n then n + 1 else n
    | Lt => n
    end in
  (if Qnum x <? 0 then "-" else "")
  +:+ str.of_N (Z.to_N (n / 10)) +:+ "." +:+ String (str.digit_char n) "".

Definition container_level (level : Q) : string :=
  if Qle_bool BOXcutoff1 level then
    "ALERT: Litter Robot is almost full at " +:+ format_1f level
    +:+ "%. Please replace ASAP."
  else if Qle_bool BOXcutoff2 level then
    "Hey, Litter Robot is at " +:+ format_1f level
    +:+ "%! Please consider emptying soon."
  else "".

(** [litterlevel = float(dataDump["litterLevel"]) / 450] in [main]: the
    sand level of a reading in millimetres. *)
Definition litterlevel_of (reading : Q) : Q := float.div reading 450.

Definition litter_level_message (litterlevel : Q) : string :=
  let aspercentage := float.mul litterlevel 100 in
  if Qle_bool litterlevel litterLevel1 then
    "ALERT: Litter needs refill URGENTLY: current level is "
    +:+ format_1f aspercentage +:+ "%"
  else if Qle_bool litterlevel litterLevel2 then
    "Litter needs refill: current level is " +:+ format_1f aspercentage +:+ "%"
  else
    "Litter level is fine as of now, at " +:+ format_1f aspercentage +:+ "%".

(** The comprehension both gates run over the log:
    [[r for r in csv.DictReader(f)
      if r["sent"] == "True" and r.get("type") == msg_type]]. *)
Fixpoint sent_rows (rows : list csv.row) (msg_type : string)
    : result (list csv.row) :=
  match rows with
  | [] => Ok []
  | r :: rows' =>
      sent ← csv.getitem r "sent";
      let keep :=
        bool_decide (sent = Some "True")
        && bool_decide (csv.get r "type" = Some msg_type) in
      rs ← sent_rows rows' msg_type;
      mret (if keep then r :: rs else rs)
  end.

(** [datetime.fromisoformat(row["timestamp"])]; a missing column is a
    [KeyError], the value [None] of a short row a [TypeError]. *)
Definition row_timestamp (r : csv.row) : result datetime.t :=
  v ← csv.getitem r "timestamp";
  match v with
  | Some s => datetime.fromisoformat s
  | None => Raise TypeError
  end.

(** What the statements of Gate 2a leave behind: a returned value, or the
    local [window], which stays unbound when no branch assigns it. *)
Inductive gate2a : Type :=
| Returned (b : bool)
| Window (window : option datetime.timedelta).

(** Gate 2a of [should_send]. *)
Definition throttle_window (level : Q) (msg_type : string) : gate2a :=
  if bool_decide (msg_type = "container") then
    if Qle_bool BOXcutoff1 level then Window (Some (datetime.hours 1))
    else if Qle_bool BOXcutoff2 level then Window (Some (datetime.hours 4))
    else Returned false
  else if bool_decide (msg_type = "litter") then
    if Qle_bool level litterLevel1 then Window (Some (datetime.hours 1))
    else if Qle_bool level litterLevel2 then Window (Some (datetime.hours 4))
    else Returned false
  else Window None.

(** [should_send(level, msg_type)].  The module's globals come in as
    [cfg], the log as part of [fs], and [clock] is what
    [datetime.now(CENTRAL)] returns; the body reads nothing of [cfg]. *)
Definition should_send (cfg : config) (fs : gmap string string)
    (clock : datetime.reading) (level : Q) (msg_type : string)
    : result bool :=
  let now := datetime.now clock CENTRAL in
  (* Gate 1: quiet hours *)
  if negb ((8 <=? datetime.hour now) && (datetime.hour now <? 23)) then
    Ok false
  else
  match throttle_window level msg_type with
  | Returned b => Ok b
  | Window window =>
      (* Gate 2b: the most recent sent row of this type *)
      match fs !! LOG_FILE with
      | Some f =>
          rows ← sent_rows (csv.DictReader f) msg_type;
          match last rows with
          | Some r =>
              last_sent ← row_timestamp r;
              delta ← datetime.sub now last_sent;
              match window with
              | Some w => if delta <? w then Ok false else Ok true
              | None => Raise UnboundLocalError
              end
          | None => Ok true
          end
      | None => Ok true
      end
  end.

(** [should_send_morning()] *)
Definition should_send_morning (cfg : config) (fs : gmap string string)
    (clock : datetime.reading) : result bool :=
  let now := datetime.now clock CENTRAL in
  if TEST_MODE cfg then Ok true
  else if negb ((8 <=? datetime.hour now) && (datetime.hour now <? 9)) then
    Ok false
  else
    match fs !! LOG_FILE with
    | Some f =>
        rows ← sent_rows (csv.DictReader f) "morning";
        match last rows with
        | Some r =>
            last_sent ← row_timestamp r;
            if bool_decide (datetime.date last_sent = datetime.date now)
            then Ok false else Ok true
        | None => Ok true
        end
    | None => Ok true
    end.

Definition LOG_FIELDNAMES : list string :=
  ["timestamp"; "type"; "level"; "sent"].

(** [_ensure_log_header()]: the file system it leaves. *)
Definition _ensure_log_header (fs : gmap string string)
    : gmap string string :=
  match fs !! LOG_FILE with
  | None => fs
  | Some text =>
      let first_line := str.strip (os.readline text) in
      if bool_decide (first_line ≠ str.join "," LOG_FIELDNAMES) then
        let body := text in
        <[LOG_FILE := str.join "," LOG_FIELDNAMES +:+ String str.LF "" +:+ body]> fs
      else fs
  end.

(** The dictionary [log_reading] hands to [writerow]; the writer turns
    the boolean [sent] into [str(sent)]. *)
Definition reading_row (now : datetime.t) (level : Q) (sent : bool)
    (msg_type : string) : csv.row :=
  csv.mkrow
    (<["sent" := Some (if sent then "True" else "False")]>
       (<["level" := Some (format_1f level)]>
          (<["type" := Some msg_type]>
             (<["timestamp" := Some (datetime.isoformat now)]> ∅))))
    None.

(** [log_reading(level, sent, msg_type)]: the file system it leaves.  The
    log is taken to open for appending and to take the write; an [OSError]
    of the operating system there is outside the model. *)
Definition log_reading (fs : gmap string string) (clock : datetime.reading)
    (level : Q) (sent : bool) (msg_type : string)
    : result (gmap string string) :=
  let now := datetime.now clock CENTRAL in
  let write_header := negb (os.path_exists fs LOG_FILE) in
  (* open(LOG_FILE, "a") *)
  let f := default "" (fs !! LOG_FILE) in
  header ← (if write_header then csv.writeheader (Some LOG_FIELDNAMES)
            else Ok "");
  line ← csv.DictWriter_writerow LOG_FIELDNAMES
           (reading_row now level sent msg_type);
  mret (<[LOG_FILE := f +:+ header +:+ line]> fs).

(** The body of [main]'s loop for one Litter-Robot 4.  Each call of
    [should_send], [should_send_morning] and [log_reading] reads the clock
    itself; [readings] holds what it shows at each of them.  The result is
    the file system the pass leaves, the texts handed to [send_text] before
    the pass ended, in order, and how it ended: with [Ok tt], or with the
    exception of a gate.  [traylevel] is the robot's [DFILevelPercent],
    [litterlevel] the [litterlevel_of] its reading, and [digest] the text
    [morning_digest] builds.  The network and the file operations are taken
    to succeed: [send_text] and [morning_digest] return, and the log can be
    opened and written. *)
Record readings : Type := mkreadings
  { at_container_gate : datetime.reading;
    at_container_log : datetime.reading;
    at_litter_gate : datetime.reading;
    at_litter_log : datetime.reading;
    at_morning_gate : datetime.reading;
    at_morning_log : datetime.reading }.

Definition nonempty (s : string) : bool :=
  match s with EmptyString => false | _ => true end.

Definition robot_cycle (cfg : config) (ck : readings)
    (robot_name digest : string) (traylevel litterlevel : Q)
    (fs : gmap string string)
    : gmap string string * (list string * result unit) :=
  let container_msg := container_level traylevel in
  match (if nonempty container_msg
         then should_send cfg fs (at_container_gate ck) traylevel "container"
         else Ok false) with
  | Raise e => (fs, ([], Raise e))
  | Ok send_c =>
  match log_reading fs (at_container_log ck) traylevel send_c "container" with
  | Raise e => (fs, ([], Raise e))
  | Ok fs =>
  let parts := if send_c then [container_msg] else [] in
  let litter_msg := litter_level_message litterlevel in
  match (if nonempty litter_msg
         then should_send cfg fs (at_litter_gate ck) litterlevel "litter"
         else Ok false) with
  | Raise e => (fs, ([], Raise e))
  | Ok send_l =>
  match log_reading fs (at_litter_log ck) (float.mul litterlevel 100) send_l
          "litter" with
  | Raise e => (fs, ([], Raise e))
  | Ok fs =>
  let parts := if send_l then parts ++ [litter_msg] else parts in
  (* the alerts are sent here, before the digest gate *)
  let texts :=
    match parts with
    | [] => []
    | [single] => [single]
    | _ => ["Litter Robot update for " +:+ robot_name +:+ ":"
            +:+ String str.LF "" +:+ str.join (String str.LF "") parts]
    end in
  match should_send_morning cfg fs (at_morning_gate ck) with
  | Raise e => (fs, (texts, Raise e))
  | Ok true =>
      (* the digest is sent, then logged *)
      match log_reading fs (at_morning_log ck) traylevel true "morning" with
      | Raise e => (fs, (texts ++ [digest], Raise e))
      | Ok fs => (fs, (texts ++ [digest], Ok tt))
      end
  | Ok false => (fs, (texts, Ok tt))
  end end end end end.

(** * cleanup.py *)

Definition LOCK_FILE : string := LOG_FILE +:+ ".lock".

(** What the operating system does to one run of [cleanup_log]: which of
    its calls fail with an [OSError], and the name [NamedTemporaryFile]
    picks.  The removal of the temporary file and the release of the lock
    in the [finally] block are taken to succeed. *)
Record faults : Type := mkfaults
  { lock_open_fails : bool;
    flock_fails : bool;
    log_open_fails : bool;
    mkstemp_fails : bool;
    tmp_name : string;
    tmp_close_fails : bool;
    replace_fails : bool }.

(** The loop [for row in reader] of [cleanup_log]: [out] is the text
    written to the temporary file so far. *)
Fixpoint copy_recent (fieldnames : list string) (cutoff : datetime.t)
    (rows : list csv.row) (out : string) (kept removed : nat)
    : string * result (nat * nat) :=
  match rows with
  | [] => (out, Ok (kept, removed))
  | row :: rows' =>
      match row_timestamp row with
      | Raise e => (out, Raise e)
      | Ok ts =>
          match datetime.ge ts cutoff with
          | Raise e => (out, Raise e)
          | Ok true =>
              match csv.DictWriter_writerow fieldnames row with
              | Raise e => (out, Raise e)
              | Ok line =>
                  copy_recent fieldnames cutoff rows' (out +:+ line)
                    (S kept) removed
              end
          | Ok false =>
              copy_recent fieldnames cutoff rows' out kept (S removed)
          end
      end
  end.

(** The [try] block.  It returns the file system, the value of the local
    [tmp_path] when the block is left, and the outcome. *)
Definition cleanup_try (env : faults) (cutoff : datetime.t)
    (fs : gmap string string)
    : gmap string string * option string * result (nat * nat) :=
  (* open(LOG_FILE) *)
  match (if log_open_fails env then None else fs !! LOG_FILE) with
  | None => (fs, None, Raise OSError)
  | Some infile =>
      (* tempfile.NamedTemporaryFile("w", delete=False) *)
      if mkstemp_fails env || os.path_exists fs (tmp_name env) then
        (fs, None, Raise OSError)
      else
        let tmp_path := tmp_name env in
        let fs := <[tmp_path := ""]> fs in
        let fieldnames := csv.DictReader_fieldnames infile in
        match csv.writeheader fieldnames with
        | Raise e => (fs, Some tmp_path, Raise e)
        | Ok header =>
            let '(out, r) :=
              copy_recent (default [] fieldnames) cutoff
                (csv.DictReader infile) header 0 0 in
            let fs := <[tmp_path := out]> fs in
            match r with
            | Raise e => (fs, Some tmp_path, Raise e)
            | Ok counts =>
                if tmp_close_fails env then (fs, Some tmp_path, Raise OSError)
                else if replace_fails env then
                  (fs, Some tmp_path, Raise OSError)
                else
                  match os.replace fs tmp_path LOG_FILE with
                  | Raise e => (fs, Some tmp_path, Raise e)
                  | Ok fs => (fs, None, Ok counts)
                  end
            end
        end
  end.

(** [cleanup_log()]: the file system it leaves and its outcome: the
    exception it lets through, nothing when the log does not exist, or
    the counts [(kept, removed)] it prints. *)
Definition cleanup_log (env : faults) (fs : gmap string string)
    (clock : datetime.reading)
    : gmap string string * result (option (nat * nat)) :=
  if negb (os.path_exists fs LOG_FILE) then (fs, Ok None)
  else
    match datetime.add_timedelta (datetime.now clock CENTRAL)
            (- datetime.hours 48) with
    | Raise e => (fs, Raise e)
    | Ok cutoff =>
        (* with open(LOCK_FILE, "w") as lock_fd *)
        if lock_open_fails env then (fs, Raise OSError)
        else
          let fs := <[LOCK_FILE := ""]> fs in
          if flock_fails env then (fs, Raise OSError)
          else
            let '(fs, tmp_path, r) := cleanup_try env cutoff fs in
            (* finally *)
            let fs :=
              match tmp_path with
              | Some p => if os.path_exists fs p then os.unlink fs p else fs
              | None => fs
              end in
            (fs, match r with
                 | Ok counts => Ok (Some counts)
                 | Raise e => Raise e
                 end)
    end.

(** * The specification's vocabulary

    The definitions below follow the words of the specification; the
    theorems compare them with the code above. *)

(** Section 4.2: severity of a reading and the window of a severity.
    The two thresholds of a kind are the configured ones, the program's
    constants. *)
Inductive Severity : Type := SevNone | Advisory | Urgent.

Definition spec_classify (level : Q) (kind : string) : Severity :=
  if bool_decide (kind = "container") then
    if Qle_bool BOXcutoff1 level then Urgent
    else if Qle_bool BOXcutoff2 level then Advisory else SevNone
  else
    if Qle_bool level litterLevel1 then Urgent
    else if Qle_bool level litterLevel2 then Advisory else SevNone.

Definition spec_windowFor (s : Severity) : option datetime.timedelta :=
  match s with
  | Urgent => Some (datetime.hours 1)
  | Advisory => Some (datetime.hours 4)
  | SevNone => None
  end.

(** Section 4.3: the sending hours. *)
Definition isWithinSendingHours (clock : datetime.reading) : bool :=
  (8 <=? datetime.r_hour clock) && (datetime.r_hour clock <? 23).

(** A row is a sent entry of a kind. *)
Definition is_sent (kind : string) (r : csv.row) : bool :=
  bool_decide (csv.named r !! "sent" = Some (Some "True"))
  && bool_decide (csv.get r "type" = Some kind).

(** The entries of the log file, none when the file is absent. *)
Definition entries (fs : gmap string string) : list csv.row :=
  match fs !! LOG_FILE with
  | Some f => csv.DictReader f
  | None => []
  end.

(** Every entry has a [sent] column: the header names one. *)
Definition sent_column (fs : gmap string string) : Prop :=
  Forall (fun r => is_Some (csv.named r !! "sent")) (entries fs).

(** Section 3: the last sent entry of a kind is the most recently
    appended one, and its timestamp is a timezone-aware instant. *)
Inductive lastSent (fs : gmap string string) (kind : string)
    : option datetime.t -> Prop :=
| lastSent_none :
    filter (fun r => is_sent kind r) (entries fs) = [] ->
    lastSent fs kind None
| lastSent_some rows r ts :
    filter (fun r => is_sent kind r) (entries fs) = rows ++ [r] ->
    row_timestamp r = Ok ts ->
    is_Some (datetime.tz ts) ->
    lastSent fs kind (Some ts).

(** The time from an aware [ts] to the clock's reading, in microseconds. *)
Definition elapsed (clock : datetime.reading) (ts : datetime.t) : Z :=
  let now := datetime.now clock CENTRAL in
  (datetime.wall_us now - datetime.chicago_utcoffset now)
  - (datetime.wall_us ts - default 0 (datetime.utcoffset ts)).

(** Section 3 and 4.4: calendar dates in order, and the dates of the
    digests the log records as sent. *)
Definition date_le (a b : Z * Z * Z) : Prop :=
  let '(y1, m1, d1) := a in
  let '(y2, m2, d2) := b in
  y1 < y2 \/ (y1 = y2 /\ (m1 < m2 \/ (m1 = m2 /\ d1 <= d2))).

Definition dated (r : csv.row) (d : Z * Z * Z) : Prop :=
  exists ts, row_timestamp r = Ok ts /\ datetime.date ts = d.

Definition today (clock : datetime.reading) : Z * Z * Z :=
  datetime.date (datetime.now clock CENTRAL).

Definition in_digest_hour (clock : datetime.reading) : bool :=
  (8 <=? datetime.r_hour clock) && (datetime.r_hour clock <? 9).

(** The timestamp of a row can be read. *)
Definition timestamp_ok (r : csv.row) : bool :=
  match row_timestamp r with
  | Ok _ => true
  | Raise _ => false
  end.

(** The last sent entry of a kind, when there is one, has a timestamp
    that can be read. *)
Definition last_sent_readable (fs : gmap string string) (kind : string)
    : Prop :=
  forall r, last (filter (fun r => is_sent kind r) (entries fs)) = Some r ->
            timestamp_ok r.

(** A clock reading is a date and time of day that exist. *)
Definition valid_reading (c : datetime.reading) : bool :=
  datetime.valid_fields (datetime.r_year c) (datetime.r_month c)
    (datetime.r_day c) (datetime.r_hour c) (datetime.r_minute c)
    (datetime.r_second c) (datetime.r_microsecond c).

(** Section 3 and 6: a data row of the log has the four fields and a
    timezone-aware ISO timestamp. *)
Definition log_record_ok (rec : list string) : bool :=
  match rec with
  | [timestamp; _; _; _] =>
      match datetime.fromisoformat timestamp with
      | Ok ts => bool_decide (is_Some (datetime.tz ts))
      | Raise _ => false
      end
  | _ => false
  end.

(** The row's timestamp is at least the cutoff ([ts >= cutoff]). *)
Definition recent (cutoff : datetime.t) (rec : list string) : bool :=
  match rec with
  | timestamp :: _ =>
      match datetime.fromisoformat timestamp with
      | Ok ts =>
          match datetime.ge ts cutoff with
          | Ok b => b
          | Raise _ => false
          end
      | Raise _ => false
      end
  | [] => false
  end.

(** No call of the operating system fails. *)
Definition no_faults (env : faults) : Prop :=
  lock_open_fails env = false /\ flock_fails env = false
  /\ log_open_fails env = false /\ mkstemp_fails env = false
  /\ tmp_close_fails env = false /\ replace_fails env = false.

(** Section 6: the format of a data row.  The timestamp is an ISO-8601
    string with a UTC offset, the kind one of three, the level has one
    decimal, and [sent] is [True] or [False]. *)
Fixpoint all_digits (s : string) : bool :=
  match s with
  | EmptyString => true
  | String c s' => str.isdigit c && all_digits s'
  end.

Fixpoint split_at_dot (s : string) : option (string * string) :=
  match s with
  | EmptyString => None
  | String c s' =>
      if Ascii.eqb c "." then Some (EmptyString, s')
      else '(a, b) ← split_at_dot s'; Some (String c a, b)
  end.

Definition one_decimal (s : string) : bool :=
  let body :=
    match s with
    | String c s' => if Ascii.eqb c "-" then s' else s
    | EmptyString => s
    end in
  match split_at_dot body with
  | Some (whole, frac) =>
      nonempty whole && all_digits whole
      && Nat.eqb (String.length frac) 1 && all_digits frac
  | None => false
  end.

Definition iso_with_offset (s : string) : bool :=
  match datetime.fromisoformat s with
  | Ok ts => bool_decide (is_Some (datetime.tz ts))
  | Raise _ => false
  end.

Definition conforms (rec : list string) : bool :=
  match rec with
  | [timestamp; kind; level; sent] =>
      iso_with_offset timestamp
      && bool_decide (kind ∈ ["container"; "litter"; "morning"])
      && one_decimal level
      && bool_decide (sent ∈ ["True"; "False"])
  | _ => false
  end.

(** The text of the header line. *)
Definition header_line : string :=
  "timestamp,type,level,sent" +:+ csv.lineterminator.

(** The row [log_reading] appends, and the file system after rows were
    appended to the log of [fs]: the header line comes first when the
    file was not there. *)
Definition row_of (clock : datetime.reading) (level : Q) (sent : bool)
    (msg_type : string) : list string :=
  [datetime.isoformat (datetime.now clock CENTRAL); msg_type;
   format_1f level; if sent then "True" else "False"].

Definition log_after (fs : gmap string string) (recs : list (list string))
    : gmap string string :=
  <[LOG_FILE := default "" (fs !! LOG_FILE)
                +:+ (if os.path_exists fs LOG_FILE then "" else header_line)
                +:+ csv.writerows recs]> fs.

(** ** Notions of the proofs

    What follows a written field and what the lexer does there; the check
    behind the calendar lemmas; strings without a sign character. *)

(** Two notions used to follow the lexer through a written field. *)
(** What follows a field: a delimiter, a line ending, or the end of the
    text. *)
Definition sep_start (k : string) : Prop :=
  match k with
  | EmptyString => True
  | String c _ => c = ","%char \/ csv.is_eol c = true
  end.

(** The lexer's move when a field [f] is complete and [k] follows. *)
Definition finish (fields : list string) (f k : string)
    : list (list string) :=
  match k with
  | EmptyString => [fields ++ [f]]
  | String c k' =>
      if csv.is_eol c
      then (fields ++ [f]) :: csv.parse (csv.after_eol c) "" [] k'
      else csv.parse csv.START_FIELD "" (fields ++ [f]) k'
  end.

(** The check behind the calendar lemmas: [month_day] lands on a day of
    a month, the one with that number in the year. *)
Definition month_day_ok (leap : bool) (n : Z) : bool :=
  let '(m, d) := datetime.month_day leap n in
  (1 <=? m) && (m <=? 12) && (1 <=? d)
  && (d <=? (if m =? 2 then (if leap then 29 else 28)
             else if (m =? 4) || (m =? 6) || (m =? 9) || (m =? 11) then 30
             else 31))
  && (datetime.DAYS_BEFORE_MONTH m
      + (if (2 <? m) && leap then 1 else 0) + d =? n + 1).

(** A sign character does not occur. *)
Fixpoint no_sign (s : string) : bool :=
  match s with
  | EmptyString => true
  | String c s' =>
      negb (Ascii.eqb c "+") && negb (Ascii.eqb c "-") && no_sign s'
  end.

(** ** Notions of the further properties

    Instants, logs as the program leaves them, and rows that stop a
    compaction. *)

(** The instant a clock reading denotes: microseconds of UTC since the
    start of day 0. *)
Definition instant (clock : datetime.reading) : Z :=
  let now := datetime.now clock CENTRAL in
  datetime.wall_us now - datetime.chicago_utcoffset now.

(** The timestamp [log_reading] writes at a clock reading, as
    [fromisoformat] reads it back: the same wall clock, with the offset
    fixed. *)
Definition logged_at (clock : datetime.reading) : datetime.t :=
  datetime.mk (datetime.r_year clock) (datetime.r_month clock)
    (datetime.r_day clock) (datetime.r_hour clock)
    (datetime.r_minute clock) (datetime.r_second clock)
    (datetime.r_microsecond clock)
    (Some (datetime.timezone
             (datetime.chicago_utcoffset (datetime.now clock CENTRAL))))
    false.

(** The text ends where a record ends: what is appended to it is read as
    records of its own. *)
Definition record_boundary (f : string) : Prop :=
  forall rest, csv.reader (f +:+ rest) = csv.reader f ++ csv.reader rest.

(** The log, when there is one, starts with the canonical header and ends
    where a record ends, as every log the program writes does. *)
Definition headed_log (fs : gmap string string) : Prop :=
  forall f, fs !! LOG_FILE = Some f ->
    csv.DictReader_fieldnames f = Some LOG_FIELDNAMES /\ record_boundary f.

(** A row whose timestamp can be read and has no UTC offset. *)
Definition naive (r : csv.row) : Prop :=
  exists ts, row_timestamp r = Ok ts /\ datetime.tz ts = None.

(** A row with more fields than the header that the compaction would
    keep. *)
Definition surplus_kept (cutoff : datetime.t) (row : csv.row) : Prop :=
  csv.rest row <> None
  /\ exists ts, row_timestamp row = Ok ts /\ datetime.ge ts cutoff = Ok true.

(** The last sent row of a kind, when there is one, has a timestamp that
    can be read and carries a UTC offset. *)
Definition last_sent_aware (fs : gmap string string) (kind : string) : Prop :=
  forall r, last (filter (fun r => is_sent kind r) (entries fs)) = Some r ->
            exists ts, row_timestamp r = Ok ts /\ is_Some (datetime.tz ts).

(** The number of occurrences of a character. *)
Fixpoint count (c : ascii) (s : string) : nat :=
  match s with
  | EmptyString => O
  | String c' s' => ((if Ascii.eqb c' c then 1 else 0) + count c s')%nat
  end.

(** The string does not start with a space. *)
Definition starts_clean (s : string) : Prop :=
  match s with
  | String c _ => str.isspace c = false
  | EmptyString => True
  end.

(** ** Decidability

    Both are decidable, so that they can be checked on a given log by
    computation. *)

#[local] Instance sent_column_dec (fs : gmap string string) :
  Decision (sent_column fs).
Proof. unfold sent_column. apply _. Defined.

#[local] Instance date_le_dec : RelDecision date_le.
Proof.
  intros [[y1 m1] d1] [[y2 m2] d2]. unfold date_le. apply _.
Defined.

(** * Sample inputs

    Concrete configurations, clock readings and logs on which the
    functions above are run below. *)

Definition cfg_normal : config := mkconfig None.
Definition cfg_test : config := mkconfig (Some true).

(** Tuesday 3 November 2026, Central Standard Time. *)
Definition at_0300 : datetime.reading :=
  datetime.mkreading 2026 11 3 3 0 0 0 false.
Definition at_0830 : datetime.reading :=
  datetime.mkreading 2026 11 3 8 30 0 0 false.
Definition at_0930 : datetime.reading :=
  datetime.mkreading 2026 11 3 9 30 0 0 false.
Definition at_1030 : datetime.reading :=
  datetime.mkreading 2026 11 3 10 30 0 0 false.

Definition no_files : gmap string string := ∅.

Definition log_of (rows : list (list string)) : gmap string string :=
  <[LOG_FILE := csv.writerows (LOG_FIELDNAMES :: rows)]> no_files.

(** One urgent tray alert sent at 09:00. *)
Definition log_alert_0900 : gmap string string :=
  log_of [["2026-11-03T09:00:00-06:00"; "container"; "95.0"; "True"]].

Definition ts_0900 : datetime.t :=
  datetime.mk 2026 11 3 9 0 0 0
    (Some (datetime.timezone (datetime.hours (-6)))) false.

(** One sand alert sent at 09:00, and the clock two hours later. *)
Definition log_litter_0900 : gmap string string :=
  log_of [["2026-11-03T09:00:00-06:00"; "litter"; "20.0"; "True"]].
Definition at_1100 : datetime.reading :=
  datetime.mkreading 2026 11 3 11 0 0 0 false.

(** A row of another type, sent at 09:00. *)
Definition log_other_0900 : gmap string string :=
  log_of [["2026-11-03T09:00:00-06:00"; "filter"; "12.0"; "True"]].

(** A log written before the header was introduced. *)
Definition legacy_log : gmap string string :=
  <[LOG_FILE := csv.writerows
      [["2026-11-03T09:00:00-06:00"; "container"; "95.0"; "True"]]]> no_files.

(** One digest sent at 08:10 today, after one sent yesterday. *)
Definition log_digest_today : gmap string string :=
  log_of [["2026-11-02T08:05:00-06:00"; "morning"; "40.0"; "True"];
          ["2026-11-03T08:10:00-06:00"; "morning"; "42.0"; "True"]].

Definition log_digest_yesterday : gmap string string :=
  log_of [["2026-11-02T08:05:00-06:00"; "morning"; "40.0"; "True"]].

(** A tray alert and a digest sent at 08:00, then one of each whose
    timestamp is not a date; and the same log without the bad rows. *)
Definition log_malformed_last : gmap string string :=
  log_of [["2026-11-03T08:00:00-06:00"; "container"; "95.0"; "True"];
          ["2026-11-02T08:00:00-06:00"; "morning"; "95.0"; "True"];
          ["yesterday evening"; "container"; "96.0"; "True"];
          ["this morning"; "morning"; "96.0"; "True"]].

Definition log_wellformed_rows : gmap string string :=
  log_of [["2026-11-03T08:00:00-06:00"; "container"; "95.0"; "True"];
          ["2026-11-02T08:00:00-06:00"; "morning"; "95.0"; "True"]].

(** The bad rows come first. *)
Definition log_malformed_first : gmap string string :=
  log_of [["yesterday evening"; "container"; "96.0"; "True"];
          ["this morning"; "morning"; "96.0"; "True"];
          ["2026-11-03T08:00:00-06:00"; "container"; "95.0"; "True"];
          ["2026-11-02T08:00:00-06:00"; "morning"; "95.0"; "True"]].

Definition env_ok : faults :=
  mkfaults false false false false "tmpk3v9x_2a.tmp" false false.

Definition env_replace_fails : faults :=
  mkfaults false false false false "tmpk3v9x_2a.tmp" false true.

(** Rows written 72, 40 and 1 hours before 09:30 on 3 November 2026; the
    change from daylight time fell in between, on 1 November. *)
Definition rows_72_40_1 : list (list string) :=
  [["2026-10-31T10:30:00-05:00"; "container"; "95.0"; "True"];
   ["2026-11-01T17:30:00-06:00"; "litter"; "15.0"; "True"];
   ["2026-11-03T08:30:00-06:00"; "morning"; "50.0"; "True"]].

Definition log_72_40_1 : gmap string string := log_of rows_72_40_1.

Definition log_40_1 : gmap string string :=
  log_of [["2026-11-01T17:30:00-06:00"; "litter"; "15.0"; "True"];
          ["2026-11-03T08:30:00-06:00"; "morning"; "50.0"; "True"]].

(** Around the changes of daylight time of 2026: a row written at 02:00
    on 31 October and a compaction at 01:30 on 2 November, 48 hours and a
    half later; a row written at 02:00 on 7 March and a compaction at
    02:30 on 9 March, 47 hours and a half later. *)
Definition at_nov2_0130 : datetime.reading :=
  datetime.mkreading 2026 11 2 1 30 0 0 false.
Definition log_oct31 : gmap string string :=
  log_of [["2026-10-31T02:00:00-05:00"; "container"; "95.0"; "True"]].
Definition at_mar9_0230 : datetime.reading :=
  datetime.mkreading 2026 3 9 2 30 0 0 false.
Definition log_mar7 : gmap string string :=
  log_of [["2026-03-07T02:00:00-06:00"; "container"; "95.0"; "True"]].

(** A row whose timestamp is written between quotes, an hour before 09:30
    on 3 November, and the same row without them. *)
Definition quoted_row : string :=
  String str.DQUOTE "2026-11-03T08:30:00-06:00" +:+ String str.DQUOTE ""
  +:+ ",morning,50.0,True" +:+ csv.lineterminator.
Definition unquoted_row : string :=
  "2026-11-03T08:30:00-06:00,morning,50.0,True" +:+ csv.lineterminator.
Definition log_quoted : gmap string string :=
  <[LOG_FILE := header_line +:+ quoted_row]> no_files.

Definition readings_0830 : readings :=
  mkreadings at_0830 at_0830 at_0830 at_0830 at_0830 at_0830.

Definition at_1000 : datetime.reading :=
  datetime.mkreading 2026 11 3 10 0 0 0 false.

Definition readings_0300 : readings :=
  mkreadings at_0300 at_0300 at_0300 at_0300 at_0300 at_0300.
Definition readings_0930 : readings :=
  mkreadings at_0930 at_0930 at_0930 at_0930 at_0930 at_0930.
Definition readings_1030 : readings :=
  mkreadings at_1030 at_1030 at_1030 at_1030 at_1030 at_1030.

(** Two rows written before the header was introduced. *)
Definition legacy_log_2 : gmap string string :=
  <[LOG_FILE := csv.writerows
      [["2026-11-03T08:00:00-06:00"; "container"; "95.0"; "True"];
       ["2026-11-03T08:00:02-06:00"; "litter"; "55.0"; "False"]]]> no_files.

(** A digest whose timestamp has no UTC offset. *)
Definition log_naive : gmap string string :=
  log_of [["2026-11-03T09:00:00"; "morning"; "95.0"; "True"]].

(** A tray alert with a fifth field. *)
Definition log_surplus : gmap string string :=
  log_of [["2026-11-03T09:00:00-06:00"; "container"; "95.0"; "True"; "full"]].

(** A tray alert sent at 08:00 and the digest at 08:10. *)
Definition log_alert_and_digest : gmap string string :=
  log_of [["2026-11-03T08:00:00-06:00"; "container"; "95.0"; "True"];
          ["2026-11-03T08:10:00-06:00"; "morning"; "95.0"; "True"]].

(** A sand alert whose timestamp is no date. *)
Definition log_bad_litter : gmap string string :=
  log_of [["never"; "litter"; "15.0"; "True"]].

(** A header line that ends with a space, then one row. *)
Definition log_padded_header : gmap string string :=
  <[LOG_FILE := "timestamp,type,level,sent " +:+ csv.lineterminator
                +:+ csv.writerow
                      ["2026-11-03T09:00:00-06:00"; "container"; "95.0"; "True"]]>
    no_files.

(** * Properties *)

(** ** The monad of results *)

Lemma bind_Ok {A B} (f : A -> result B) (a : A) : (Ok a ≫= f) = f a.
Proof. reflexivity. Qed.

Lemma bind_Raise {A B} (f : A -> result B) (e : exn) :
  (Raise e ≫= f) = Raise e.
Proof. reflexivity. Qed.

(** ** Floating point: [float.round] gives the nearest float *)

Lemma rint_bounds (x : Q) (n m : Z) :
  (inject_Z n <= x)%Q -> (x <= inject_Z m)%Q ->
  n <= float.rint x <= m.
Proof.
  destruct x as [a b]. unfold Qle, float.rint. cbn [Qnum Qden inject_Z].
  rewrite !Z.mul_1_r. intros Hn Hm.
  pose proof (Z.div_mod a (Z.pos b) ltac:(lia)) as Hdm.
  pose proof (Z.mod_pos_bound a (Z.pos b) ltac:(lia)) as Hr.
  set (q := a / Z.pos b) in *. set (r := a mod Z.pos b) in *.
  assert (Hq1 : n <= q) by nia.
  assert (Hq2 : q <= m) by nia.
  destruct (2 * r ?= Z.pos b) eqn:E.
  - apply Z.compare_eq in E. destruct (Z.even q); [lia |]. nia.
  - lia.
  - apply Z.compare_gt_iff in E. nia.
Qed.

Lemma pow2_pos (k : Z) : (0 < float.pow2 k)%Q.
Proof. apply Qpower_0_lt. reflexivity. Qed.

Lemma pow2_add (a b : Z) :
  (float.pow2 (a + b) == float.pow2 a * float.pow2 b)%Q.
Proof. apply Qpower_plus. discriminate. Qed.

Lemma pow2_inject (k : Z) : 0 <= k -> (float.pow2 k == inject_Z (2 ^ k))%Q.
Proof. intros Hk. unfold float.pow2. rewrite (Zpower_Qpower 2 k Hk). reflexivity. Qed.

Lemma pow2_le (a b : Z) : a <= b -> (float.pow2 a <= float.pow2 b)%Q.
Proof. intros H. apply Qpower_le_compat_l; [exact H | discriminate]. Qed.

Lemma pow2_le_inv (a b : Z) : (float.pow2 a <= float.pow2 b)%Q -> a <= b.
Proof. intros H. apply (Qpower_le_compat_l_inv 2); [exact H | reflexivity]. Qed.

(** [ilog2] is a lower bound. *)
Lemma ilog2_lower (x : Q) : (0 < x)%Q -> (float.pow2 (float.ilog2 x) <= x)%Q.
Proof.
  intros Hx. unfold float.ilog2.
  set (k := Z.log2 (Qnum x) - Z.log2 (Z.pos (Qden x))).
  destruct (Qle_bool (float.pow2 k) x) eqn:E; [apply Qle_bool_iff, E |].
  destruct x as [a b]. cbn [Qnum Qden] in k.
  assert (Ha : 0 < a) by (unfold Qlt in Hx; cbn in Hx; lia).
  destruct (Z.log2_spec a Ha) as [Ha1 _].
  destruct (Z.log2_spec (Z.pos b) ltac:(lia)) as [_ Hb2].
  pose proof (Z.log2_nonneg a) as Hla.
  pose proof (Z.log2_nonneg (Z.pos b)) as Hlb.
  replace (k - 1) with (Z.log2 a + - (Z.succ (Z.log2 (Z.pos b)))) by lia.
  rewrite pow2_add. unfold float.pow2 at 2. rewrite Qpower_opp.
  fold (float.pow2 (Z.succ (Z.log2 (Z.pos b)))).
  rewrite !pow2_inject by lia.
  set (p := 2 ^ Z.log2 a) in *. set (d := 2 ^ Z.succ (Z.log2 (Z.pos b))) in *.
  assert (Hd : 0 < d) by lia.
  assert (Hp : 0 < p) by (subst p; apply Z.pow_pos_nonneg; lia).
  destruct d as [| d' | d']; try lia.
  unfold Qle, Qmult, Qinv, inject_Z. cbn [Qnum Qden]. nia.
Qed.

Lemma ilog2_le (x : Q) (k : Z) :
  (0 < x)%Q -> (x <= float.pow2 k)%Q -> float.ilog2 x <= k.
Proof.
  intros Hx Hk. apply pow2_le_inv.
  eapply Qle_trans; [apply ilog2_lower, Hx | exact Hk].
Qed.

(** Rounding does not pass a power of two. *)
Lemma round_le_pow2 (x : Q) (k : Z) :
  -1074 <= k -> (Qabs x <= float.pow2 k)%Q ->
  (Qabs (float.round x) <= float.pow2 k)%Q.
Proof.
  intros Hk Hx. unfold float.round.
  destruct (Qeq_bool x 0) eqn:E0.
  - apply Qlt_le_weak, pow2_pos.
  - assert (Hne : ~ (x == 0)%Q) by (apply Qeq_bool_neq, E0).
    assert (Hpos : (0 < Qabs x)%Q).
    { destruct (Qlt_le_dec 0 (Qabs x)) as [H | H]; [exact H |].
      exfalso. apply Hne.
      pose proof (Qabs_nonneg x) as H0.
      assert (Hz : (Qabs x == 0)%Q) by (apply Qle_antisym; assumption).
      apply Qabs_Qle_condition in H. destruct H as [H1 H2].
      apply Qle_antisym; [exact H2 | exact H1]. }
    set (e := float.exponent x).
    assert (He : e <= k).
    { subst e. unfold float.exponent.
      pose proof (ilog2_le (Qabs x) k Hpos Hx). lia. }
    cbv zeta. rewrite Qred_correct.
    assert (Hsplit : (float.pow2 k == inject_Z (2 ^ (k - e)) * float.pow2 e)%Q).
    { rewrite <- pow2_inject by lia. rewrite <- pow2_add. f_equiv. lia. }
    assert (Hneg : (inject_Z (- 2 ^ (k - e)) * float.pow2 e
                    == - float.pow2 k)%Q)
      by (rewrite Hsplit, inject_Z_opp; ring).
    apply Qabs_Qle_condition in Hx. destruct Hx as [Hx1 Hx2].
    pose proof (pow2_pos e) as Hpe.
    destruct (rint_bounds (x / float.pow2 e) (- 2 ^ (k - e)) (2 ^ (k - e)))
      as [Hr1 Hr2].
    + apply Qle_shift_div_l; [exact Hpe |]. rewrite Hneg. exact Hx1.
    + apply Qle_shift_div_r; [exact Hpe |]. rewrite <- Hsplit. exact Hx2.
    + apply Qabs_Qle_condition. split.
      * rewrite <- Hneg.
        apply Qmult_le_compat_r; [| apply Qlt_le_weak, Hpe].
        rewrite <- Zle_Qle. exact Hr1.
      * rewrite Hsplit.
        apply Qmult_le_compat_r; [| apply Qlt_le_weak, Hpe].
        rewrite <- Zle_Qle. exact Hr2.
Qed.

(** [rint] is a nearest integer. *)
Lemma rint_nearest (x : Q) :
  (Qabs (inject_Z (float.rint x) - x) <= 1 # 2)%Q.
Proof.
  apply Qabs_Qle_condition.
  destruct x as [a b]. unfold float.rint. cbn [Qnum Qden].
  pose proof (Z.div_mod a (Z.pos b) ltac:(lia)) as Hdm.
  pose proof (Z.mod_pos_bound a (Z.pos b) ltac:(lia)) as Hr.
  set (q := a / Z.pos b) in *. set (r := a mod Z.pos b) in *.
  assert (H : forall n, - Z.pos b <= 2 * (n * Z.pos b - a) <= Z.pos b ->
              (- (1 # 2) <= inject_Z n - (a # b))%Q
              /\ (inject_Z n - (a # b) <= 1 # 2)%Q).
  { intros n Hn. unfold Qle, Qminus, Qplus, Qopp, inject_Z. cbn [Qnum Qden].
    rewrite ?Pos.mul_1_l, ?Z.mul_1_r. clear -Hn. lia. }
  change (a `div` Z.pos b) with q. change (a `mod` Z.pos b) with r.
  clearbody q r.
  destruct (Z.compare_spec (2 * r) (Z.pos b)) as [E | E | E].
  - destruct (Z.even q); apply H; nia.
  - apply H; nia.
  - apply H; nia.
Qed.

Lemma ilog2_upper (x : Q) :
  (0 < x)%Q -> (x < float.pow2 (float.ilog2 x + 1))%Q.
Proof.
  intros Hx. unfold float.ilog2.
  set (k := Z.log2 (Qnum x) - Z.log2 (Z.pos (Qden x))).
  destruct (Qle_bool (float.pow2 k) x) eqn:E.
  2:{ replace (k - 1 + 1) with k by lia.
      apply Qnot_le_lt. intros H. apply Qle_bool_iff in H. congruence. }
  destruct x as [a b]. cbn [Qnum Qden] in k.
  assert (Ha : 0 < a) by (unfold Qlt in Hx; cbn in Hx; lia).
  destruct (Z.log2_spec a Ha) as [_ Ha2].
  destruct (Z.log2_spec (Z.pos b) ltac:(lia)) as [Hb1 _].
  pose proof (Z.log2_nonneg a) as Hla.
  pose proof (Z.log2_nonneg (Z.pos b)) as Hlb.
  replace (k + 1) with (Z.succ (Z.log2 a) + - Z.log2 (Z.pos b)) by lia.
  rewrite pow2_add. unfold float.pow2 at 2. rewrite Qpower_opp.
  fold (float.pow2 (Z.log2 (Z.pos b))).
  rewrite !pow2_inject by lia.
  set (p := 2 ^ Z.succ (Z.log2 a)) in *. set (d := 2 ^ Z.log2 (Z.pos b)) in *.
  assert (Hd : 0 < d) by (subst d; apply Z.pow_pos_nonneg; lia).
  destruct d as [| d' | d']; try lia.
  unfold Qlt, Qmult, Qinv, inject_Z. cbn [Qnum Qden]. nia.
Qed.

(** What [round] returns is a float near [x]: a multiple of the spacing
    [2 ^ e], with [e >= -1074], by an integer of at most 53 bits, and at
    most half the spacing away from [x]. *)
Lemma round_is_nearest_float (x : Q) :
  ~ (x == 0)%Q ->
  let e := float.exponent x in
  let m := float.rint (x / float.pow2 e) in
  (float.round x == inject_Z m * float.pow2 e)%Q
  /\ -1074 <= e
  /\ Z.abs m <= 2 ^ 53
  /\ (Qabs (float.round x - x) <= float.pow2 e * (1 # 2))%Q.
Proof.
  intros Hne e m.
  assert (Hr : (float.round x == inject_Z m * float.pow2 e)%Q).
  { unfold float.round.
    destruct (Qeq_bool x 0) eqn:E0;
      [apply Qeq_bool_iff in E0; contradiction |].
    cbv zeta. apply Qred_correct. }
  pose proof (pow2_pos e) as Hpe.
  split; [exact Hr |]. split; [subst e; unfold float.exponent; lia |].
  split.
  - assert (Hpos : (0 < Qabs x)%Q).
    { destruct (Qlt_le_dec 0 (Qabs x)) as [H | H]; [exact H |].
      exfalso. apply Hne.
      apply Qabs_Qle_condition in H. destruct H as [H1 H2].
      apply Qle_antisym; [exact H2 | exact H1]. }
    pose proof (ilog2_upper (Qabs x) Hpos) as Hup.
    assert (Hle : float.ilog2 (Qabs x) + 1 <= e + 53)
      by (subst e; unfold float.exponent; lia).
    assert (Hb : (Qabs x <= float.pow2 (e + 53))%Q).
    { apply Qlt_le_weak. eapply Qlt_le_trans; [exact Hup |].
      apply pow2_le, Hle. }
    rewrite Z.add_comm, pow2_add, pow2_inject in Hb by lia.
    apply Qabs_Qle_condition in Hb. destruct Hb as [Hb1 Hb2].
    apply Z.abs_le. subst m. apply rint_bounds.
    + apply Qle_shift_div_l; [exact Hpe |].
      rewrite inject_Z_opp.
      assert (Heq : (- inject_Z (2 ^ 53) * float.pow2 e
                     == - (inject_Z (2 ^ 53) * float.pow2 e))%Q) by ring.
      rewrite Heq. exact Hb1.
    + apply Qle_shift_div_r; [exact Hpe | exact Hb2].
  - rewrite Hr.
    assert (Heq : (inject_Z m * float.pow2 e - x
                   == (inject_Z m - x / float.pow2 e) * float.pow2 e)%Q).
    { field. intros H. rewrite H in Hpe. discriminate. }
    rewrite Heq, Qabs_Qmult, (Qabs_pos (float.pow2 e))
      by (apply Qlt_le_weak, Hpe).
    rewrite (Qmult_comm (float.pow2 e)).
    apply Qmult_le_compat_r; [apply rint_nearest | apply Qlt_le_weak, Hpe].
Qed.

(** ** Severity (Gate 2a) *)

Lemma Qle_bool_false (x y : Q) : Qle_bool x y = false <-> (y < x)%Q.
Proof.
  unfold Qle_bool, Qlt. rewrite Z.leb_gt. reflexivity.
Qed.

Lemma throttle_window_classify (level : Q) (kind : string) :
  kind = "container" \/ kind = "litter" ->
  throttle_window level kind =
    match spec_windowFor (spec_classify level kind) with
    | Some w => Window (Some w)
    | None => Returned false
    end.
Proof.
  intros [-> | ->]; unfold throttle_window, spec_classify; simpl;
    unfold BOXcutoff1, BOXcutoff2, litterLevel1, litterLevel2;
    repeat (match goal with |- context [Qle_bool ?a ?b] =>
                              destruct (Qle_bool a b) end);
    reflexivity.
Qed.

(** The constants [0.2] and [0.6] as Python reads them: the first is
    above 1/5, the second below 3/5. *)
Lemma litterLevel1_value :
  litterLevel1 = 3602879701896397 # 18014398509481984.
Proof. vm_compute. reflexivity. Qed.

Lemma litterLevel2_value :
  litterLevel2 = 5404319552844595 # 9007199254740992.
Proof. vm_compute. reflexivity. Qed.

(** C9. Boundary values belong to the stricter tier.  In [should_send]
    Urgent is the one-hour window, Advisory the four-hour window and None
    the early [return False].  For the waste tray ([container]) the level is
    Urgent exactly when it is at least 90, Advisory exactly when it is at
    least 70 and below 90, None otherwise; for the sand ([litter]) Urgent
    exactly when it is at most 0.2, Advisory exactly when it is above 0.2
    and at most 0.6, None otherwise.  Here 0.2 and 0.6 are the program's
    constants [litterLevel1] and [litterLevel2], the floats those literals
    denote, and a level equal to a threshold is in the stricter tier: the
    sand level [90 / 450], which is the float 0.2, is Urgent. *)
Theorem severity_boundaries (level : Q) :
  (throttle_window level "container" = Window (Some (datetime.hours 1))
     <-> (90 <= level)%Q)
  /\ (throttle_window level "container" = Window (Some (datetime.hours 4))
     <-> (70 <= level)%Q /\ (level < 90)%Q)
  /\ (throttle_window level "container" = Returned false
     <-> (level < 70)%Q)
  /\ (throttle_window level "litter" = Window (Some (datetime.hours 1))
     <-> (level <= litterLevel1)%Q)
  /\ (throttle_window level "litter" = Window (Some (datetime.hours 4))
     <-> (litterLevel1 < level)%Q /\ (level <= litterLevel2)%Q)
  /\ (throttle_window level "litter" = Returned false
     <-> (litterLevel2 < level)%Q)
  /\ litterLevel1 = float.round 0.2
  /\ litterLevel2 = float.round 0.6
  /\ throttle_window 90 "container" = Window (Some (datetime.hours 1))
  /\ throttle_window 70 "container" = Window (Some (datetime.hours 4))
  /\ throttle_window litterLevel1 "litter" = Window (Some (datetime.hours 1))
  /\ throttle_window litterLevel2 "litter" = Window (Some (datetime.hours 4))
  /\ litterlevel_of 90 = litterLevel1.
Proof.
  assert (Hb : throttle_window 90 "container" = Window (Some (datetime.hours 1))
               /\ throttle_window 70 "container"
                  = Window (Some (datetime.hours 4))
               /\ throttle_window litterLevel1 "litter"
                  = Window (Some (datetime.hours 1))
               /\ throttle_window litterLevel2 "litter"
                  = Window (Some (datetime.hours 4))
               /\ litterlevel_of 90 = litterLevel1)
    by (vm_compute; repeat split).
  destruct Hb as (B1 & B2 & B3 & B4 & B5).
  enough ((throttle_window level "container" = Window (Some (datetime.hours 1))
             <-> (90 <= level)%Q)
          /\ (throttle_window level "container"
              = Window (Some (datetime.hours 4))
              <-> (70 <= level)%Q /\ (level < 90)%Q)
          /\ (throttle_window level "container" = Returned false
              <-> (level < 70)%Q)
          /\ (throttle_window level "litter" = Window (Some (datetime.hours 1))
              <-> (level <= litterLevel1)%Q)
          /\ (throttle_window level "litter" = Window (Some (datetime.hours 4))
              <-> (litterLevel1 < level)%Q /\ (level <= litterLevel2)%Q)
          /\ (throttle_window level "litter" = Returned false
              <-> (litterLevel2 < level)%Q))
    as (H1 & H2 & H3 & H4 & H5 & H6)
    by (repeat (split; [assumption || reflexivity |]); assumption).
  clear B1 B2 B3 B4 B5.
  unfold throttle_window, BOXcutoff1, BOXcutoff2.
  rewrite litterLevel1_value, litterLevel2_value. simpl.
  destruct (Qle_bool 90 level) eqn:E1; destruct (Qle_bool 70 level) eqn:E2;
    destruct (Qle_bool level (3602879701896397 # 18014398509481984)) eqn:E3;
    destruct (Qle_bool level (5404319552844595 # 9007199254740992)) eqn:E4;
    try apply Qle_bool_iff in E1; try apply Qle_bool_iff in E2;
    try apply Qle_bool_iff in E3; try apply Qle_bool_iff in E4;
    try apply Qle_bool_false in E1; try apply Qle_bool_false in E2;
    try apply Qle_bool_false in E3; try apply Qle_bool_false in E4;
    destruct level as [a b]; unfold Qle, Qlt in *; simpl in *;
    repeat split; intros; try discriminate; try lia.
Qed.

(** ** The last-sent scan *)

Lemma sent_rows_filter (rows : list csv.row) (kind : string) :
  Forall (fun r => is_Some (csv.named r !! "sent")) rows ->
  sent_rows rows kind = Ok (filter (fun r => is_sent kind r) rows).
Proof.
  induction 1 as [| r rows [v Hv] _ IH]; [reflexivity |].
  cbn [sent_rows]. unfold csv.getitem. rewrite Hv, bind_Ok, IH, bind_Ok.
  unfold mret, result_ret. f_equal.
  rewrite filter_cons. unfold is_sent. rewrite Hv.
  repeat case_bool_decide; simplify_eq; simpl; try reflexivity; congruence.
Qed.

Lemma parse_tz_fixed z tzv :
  datetime.parse_tz z = Some tzv ->
  tzv = None \/ exists o, tzv = Some (datetime.timezone o).
Proof.
  unfold datetime.parse_tz. destruct z as [[neg zs] |]; [| naive_solver].
  destruct (_ || _); [| discriminate].
  destruct (datetime.parse_hh_mm_ss_ff zs) as [[[[hh mm] ss] us] |];
    [| discriminate].
  simpl. destruct (_ && _); [| discriminate]. intros [= <-]. eauto.
Qed.

Lemma fromisoformat_tz (s : string) (ts : datetime.t) :
  datetime.fromisoformat s = Ok ts ->
  datetime.tz ts = None \/ exists o, datetime.tz ts = Some (datetime.timezone o).
Proof.
  unfold datetime.fromisoformat.
  destruct (datetime.parse_isoformat s) as [d |] eqn:E; [| discriminate].
  intros [= <-]. revert E. unfold datetime.parse_isoformat.
  intros E. simplify_option_eq.
  repeat match goal with
         | H : context [match ?x with _ => _ end] |- _ =>
             destruct x eqn:?; simplify_option_eq
         end; eauto using parse_tz_fixed.
Qed.

Lemma row_timestamp_tz (r : csv.row) (ts : datetime.t) :
  row_timestamp r = Ok ts ->
  is_Some (datetime.tz ts) ->
  exists o, datetime.tz ts = Some (datetime.timezone o).
Proof.
  unfold row_timestamp. destruct (csv.getitem r "timestamp") as [[s |] | e];
    simpl; try discriminate.
  intros H [z Hz]. apply fromisoformat_tz in H as [H | H]; [congruence | exact H].
Qed.

Lemma sub_now (clock : datetime.reading) (ts : datetime.t) (o : Z) :
  datetime.tz ts = Some (datetime.timezone o) ->
  datetime.sub (datetime.now clock CENTRAL) ts = Ok (elapsed clock ts).
Proof.
  intros H. unfold datetime.sub, elapsed, datetime.utcoffset, datetime.same_tzinfo.
  rewrite H. reflexivity.
Qed.

Lemma entries_lookup (fs : gmap string string) (f : string) :
  fs !! LOG_FILE = Some f -> entries fs = csv.DictReader f.
Proof. unfold entries. intros ->. reflexivity. Qed.

Lemma entries_absent (fs : gmap string string) :
  fs !! LOG_FILE = None -> entries fs = [].
Proof. unfold entries. intros ->. reflexivity. Qed.

(** ** The alert decision *)

Section alert_decision.

Context (cfg : config) (fs : gmap string string) (clock : datetime.reading).

(** What Gate 2b computes, for a bound or unbound [window]. *)
Lemma gate_2b (level : Q) (msg_type : string)
    (window : option datetime.timedelta) (o : option datetime.t) :
  isWithinSendingHours clock = true ->
  throttle_window level msg_type = Window window ->
  sent_column fs ->
  lastSent fs msg_type o ->
  should_send cfg fs clock level msg_type =
    match o, window with
    | None, _ => Ok true
    | Some ts, Some w => Ok (w <=? elapsed clock ts)
    | Some ts, None => Raise UnboundLocalError
    end.
Proof.
  intros Hh Hw Hcol Hlast. unfold should_send.
  change (datetime.hour (datetime.now clock CENTRAL)) with (datetime.r_hour clock).
  unfold isWithinSendingHours in Hh. rewrite Hh, Hw. simpl.
  unfold sent_column in Hcol.
  destruct (fs !! LOG_FILE) as [f |] eqn:Hf.
  - rewrite (entries_lookup _ _ Hf) in Hcol.
    rewrite (sent_rows_filter _ _ Hcol), bind_Ok.
    inversion Hlast as [Hnil | rows r ts Hrows Hts Htz]; subst;
      rewrite (entries_lookup _ _ Hf) in *.
    + rewrite Hnil. reflexivity.
    + rewrite Hrows, last_snoc, Hts, bind_Ok.
      destruct (row_timestamp_tz _ _ Hts Htz) as [off Hoff].
      rewrite (sub_now _ _ _ Hoff), bind_Ok.
      destruct window as [w |]; [| reflexivity].
      rewrite Z.leb_antisym. destruct (elapsed clock ts <? w); reflexivity.
  - inversion Hlast as [Hnil | rows r ts Hrows Hts Htz]; subst.
    + reflexivity.
    + rewrite (entries_absent _ Hf) in Hrows. simpl in Hrows.
      destruct rows; discriminate.
Qed.

Lemma quiet_hours (level : Q) (msg_type : string) :
  isWithinSendingHours clock = false ->
  should_send cfg fs clock level msg_type = Ok false.
Proof.
  intros Hh. unfold should_send.
  change (datetime.hour (datetime.now clock CENTRAL)) with (datetime.r_hour clock).
  unfold isWithinSendingHours in Hh. rewrite Hh. reflexivity.
Qed.

Lemma below_thresholds (level : Q) (msg_type : string) :
  throttle_window level msg_type = Returned false ->
  should_send cfg fs clock level msg_type = Ok false.
Proof.
  intros Hw. unfold should_send. rewrite Hw.
  destruct (negb _); reflexivity.
Qed.

(** C1, as the code has it.  On a log whose header names the [sent]
    column and whose last sent entry of the kind has a timezone-aware
    timestamp, for a kind in [container], [litter]: [should_send] returns
    false when the clock's local hour is outside [8, 23) or when the level
    classifies as None; otherwise it returns true exactly when no sent
    entry of that kind is in the log, or the time from the most recently
    appended such entry to now is at least the window of the severity (one
    hour for Urgent, four for Advisory).  The severity is taken with the
    program's thresholds, the floats it reads from [0.2] and [0.6]: the
    sand level [90 / 450] is Urgent, and two hours after an alert the
    next one is due. *)
Theorem should_send_decision (level : Q) (kind : string)
    (o : option datetime.t) :
  kind = "container" \/ kind = "litter" ->
  sent_column fs ->
  lastSent fs kind o ->
  should_send cfg fs clock level kind =
    Ok (isWithinSendingHours clock &&
        match spec_windowFor (spec_classify level kind), o with
        | None, _ => false
        | Some w, None => true
        | Some w, Some ts => w <=? elapsed clock ts
        end).
Proof.
  intros Hk Hcol Hlast.
  destruct (isWithinSendingHours clock) eqn:Hh.
  - pose proof (throttle_window_classify level kind Hk) as Hw.
    destruct (spec_windowFor (spec_classify level kind)) as [w |].
    + rewrite (gate_2b level kind (Some w) o Hh Hw Hcol Hlast).
      destruct o; reflexivity.
    + apply below_thresholds. exact Hw.
  - apply quiet_hours. exact Hh.
Qed.

(** C10.  For a type other than [container] and [litter], in the sending
    hours, Gate 2a leaves [window] unbound: [should_send] returns true
    when the log is absent or holds no sent row of that type, and raises
    [UnboundLocalError] when it holds one. *)
Theorem should_send_unbound_window (level : Q) (msg_type : string) :
  msg_type <> "container" ->
  msg_type <> "litter" ->
  isWithinSendingHours clock = true ->
  sent_column fs ->
  throttle_window level msg_type = Window None
  /\ (fs !! LOG_FILE = None ->
      should_send cfg fs clock level msg_type = Ok true)
  /\ (lastSent fs msg_type None ->
      should_send cfg fs clock level msg_type = Ok true)
  /\ (forall ts, lastSent fs msg_type (Some ts) ->
      should_send cfg fs clock level msg_type = Raise UnboundLocalError).
Proof.
  intros Hc Hl Hh Hcol.
  assert (Hw : throttle_window level msg_type = Window None).
  { unfold throttle_window. rewrite !bool_decide_eq_false_2 by assumption.
    reflexivity. }
  repeat split; [exact Hw | | |].
  - intros Hf.
    apply (gate_2b level msg_type None None Hh Hw Hcol).
    apply lastSent_none. rewrite (entries_absent _ Hf). reflexivity.
  - intros H. exact (gate_2b level msg_type None None Hh Hw Hcol H).
  - intros ts H.
    exact (gate_2b level msg_type None (Some ts) Hh Hw Hcol H).
Qed.

End alert_decision.

Ltac by_computation :=
  match goal with
  | |- ?P => apply (bool_decide_unpack P); vm_compute; exact I
  end.

Lemma lastSent_alert_0900 : lastSent log_alert_0900 "container" (Some ts_0900).
Proof.
  eapply (lastSent_some _ _ []); [vm_compute; reflexivity | reflexivity |].
  eexists. reflexivity.
Qed.

Lemma lastSent_litter_0900 : lastSent log_litter_0900 "litter" (Some ts_0900).
Proof.
  eapply (lastSent_some _ _ []); [vm_compute; reflexivity | reflexivity |].
  eexists. reflexivity.
Qed.

Lemma should_send_decision_witness :
  should_send cfg_normal log_alert_0900 at_0930 95 "container" = Ok false
  /\ should_send cfg_normal log_alert_0900 at_1030 95 "container" = Ok true
  /\ should_send cfg_normal log_litter_0900 at_1100 (litterlevel_of 90) "litter"
     = Ok true.
Proof.
  split; [| split].
  - apply (should_send_decision cfg_normal log_alert_0900 at_0930 95
             "container" (Some ts_0900)).
    + left. reflexivity.
    + by_computation.
    + exact lastSent_alert_0900.
  - apply (should_send_decision cfg_normal log_alert_0900 at_1030 95
             "container" (Some ts_0900)).
    + left. reflexivity.
    + by_computation.
    + exact lastSent_alert_0900.
  - apply (should_send_decision cfg_normal log_litter_0900 at_1100
             (litterlevel_of 90) "litter" (Some ts_0900)).
    + right. reflexivity.
    + by_computation.
    + exact lastSent_litter_0900.
Defined.

(** C1 as stated fails in the quiet hours: at 03:00 the tray is Urgent
    and the log holds no sent entry, yet [should_send] returns false.  And
    it presupposes the documented format: on a log without header, whose
    first row is taken for the field names, [should_send] returns nothing
    and raises [KeyError]. *)
Lemma should_send_at_night :
  spec_classify 95 "container" = Urgent
  /\ lastSent no_files "container" None
  /\ should_send cfg_normal no_files at_0300 95 "container" = Ok false
  /\ should_send cfg_normal legacy_log_2 at_0930 95 "container"
     = Raise KeyError.
Proof.
  split; [reflexivity |]. split; [| split; vm_compute; reflexivity].
  apply lastSent_none. reflexivity.
Qed.

(** C2.  The verification-mode flag does not reach the alert path: with
    [TEST_MODE] set, an Urgent tray and an empty log, [should_send] is
    false at 03:00 and true at 09:30; the hour alone decides. *)
Theorem should_send_test_mode_quiet_hours :
  TEST_MODE cfg_test = true
  /\ should_send cfg_test no_files at_0300 95 "container" = Ok false
  /\ should_send cfg_test no_files at_0930 95 "container" = Ok true.
Proof. repeat split. Qed.

Lemma should_send_ignores_config (cfg cfg' : config)
    (fs : gmap string string) (clock : datetime.reading) (level : Q)
    (msg_type : string) :
  should_send cfg fs clock level msg_type
  = should_send cfg' fs clock level msg_type.
Proof. reflexivity. Qed.

Lemma should_send_unbound_window_witness :
  should_send cfg_normal no_files at_0930 50 "filter" = Ok true
  /\ should_send cfg_normal log_other_0900 at_0930 50 "filter"
     = Raise UnboundLocalError.
Proof.
  split.
  - assert (Hcol : sent_column no_files) by by_computation.
    destruct (should_send_unbound_window cfg_normal no_files at_0930 50
                "filter" ltac:(discriminate) ltac:(discriminate)
                eq_refl Hcol) as (_ & Habsent & _ & _).
    apply Habsent. reflexivity.
  - assert (Hcol : sent_column log_other_0900) by by_computation.
    destruct (should_send_unbound_window cfg_normal log_other_0900 at_0930 50
                "filter" ltac:(discriminate) ltac:(discriminate)
                eq_refl Hcol) as (_ & _ & _ & Hrow).
    eapply Hrow.
    eapply (lastSent_some _ _ []); [vm_compute; reflexivity | reflexivity |].
    eexists. reflexivity.
Defined.

(** ** Header repair *)

Lemma header_text : str.join "," LOG_FIELDNAMES = "timestamp,type,level,sent".
Proof. reflexivity. Qed.

Lemma first_line_after_repair (body : string) :
  str.strip
    (os.readline (str.join "," LOG_FIELDNAMES +:+ String str.LF "" +:+ body))
  = str.join "," LOG_FIELDNAMES.
Proof. reflexivity. Qed.

(** C7.  [_ensure_log_header] does nothing when the log does not exist or
    when its first line (the code's [first_line]: what [readline] returns,
    stripped) is the canonical header; otherwise the file becomes the
    header line followed by the original text, unchanged, and no other
    file is touched.  Applying it twice equals applying it once. *)
Theorem ensure_log_header_spec (fs : gmap string string) :
  (fs !! LOG_FILE = None -> _ensure_log_header fs = fs)
  /\ (forall text, fs !! LOG_FILE = Some text ->
        str.strip (os.readline text) = "timestamp,type,level,sent" ->
        _ensure_log_header fs = fs)
  /\ (forall text, fs !! LOG_FILE = Some text ->
        str.strip (os.readline text) <> "timestamp,type,level,sent" ->
        _ensure_log_header fs
        = <[LOG_FILE := "timestamp,type,level,sent" +:+ String str.LF "" +:+ text]> fs)
  /\ _ensure_log_header (_ensure_log_header fs) = _ensure_log_header fs.
Proof.
  repeat split.
  - intros H. unfold _ensure_log_header. rewrite H. reflexivity.
  - intros text H Hfirst. unfold _ensure_log_header. rewrite H, header_text.
    rewrite bool_decide_eq_false_2; [reflexivity |].
    intros Hn. apply Hn. exact Hfirst.
  - intros text H Hfirst. unfold _ensure_log_header. rewrite H, header_text.
    rewrite bool_decide_eq_true_2; [reflexivity | exact Hfirst].
  - unfold _ensure_log_header at 2 3.
    destruct (fs !! LOG_FILE) as [text |] eqn:H.
    + case_bool_decide as Hfirst.
      * unfold _ensure_log_header. rewrite lookup_insert_eq.
        rewrite first_line_after_repair.
        rewrite bool_decide_eq_false_2; [reflexivity |].
        intros Hn. apply Hn. reflexivity.
      * unfold _ensure_log_header. rewrite H.
        rewrite bool_decide_eq_false_2; [reflexivity |].
        intros Hn. apply Hn. exact Hfirst.
    + unfold _ensure_log_header. rewrite H. reflexivity.
Qed.

Lemma ensure_log_header_spec_witness :
  _ensure_log_header legacy_log
  = <[LOG_FILE := "timestamp,type,level,sent" +:+ String str.LF ""
        +:+ csv.writerows
              [["2026-11-03T09:00:00-06:00"; "container"; "95.0"; "True"]]]>
      legacy_log
  /\ _ensure_log_header log_alert_0900 = log_alert_0900
  /\ _ensure_log_header no_files = no_files.
Proof.
  destruct (ensure_log_header_spec legacy_log) as (_ & _ & Hrepair & _).
  destruct (ensure_log_header_spec log_alert_0900) as (_ & Hkeep & _ & _).
  destruct (ensure_log_header_spec no_files) as (Habsent & _ & _ & _).
  split; [| split].
  - apply Hrepair; [reflexivity | vm_compute; discriminate].
  - eapply Hkeep; [reflexivity | vm_compute; reflexivity].
  - apply Habsent. reflexivity.
Defined.

(** A file that starts with the header line is left alone, whatever ends
    the line. *)
Lemma ensure_log_header_keeps_headed (fs : gmap string string) (rest : string) :
  fs !! LOG_FILE
    = Some ("timestamp,type,level,sent" +:+ csv.lineterminator +:+ rest)
  \/ fs !! LOG_FILE
    = Some ("timestamp,type,level,sent" +:+ String str.LF "" +:+ rest) ->
  _ensure_log_header fs = fs.
Proof.
  intros [H | H]; unfold _ensure_log_header; rewrite H; reflexivity.
Qed.

(** ** The daily digest gate *)

Lemma date_le_antisym (a b : Z * Z * Z) : date_le a b -> date_le b a -> a = b.
Proof.
  destruct a as [[y1 m1] d1], b as [[y2 m2] d2]. unfold date_le.
  intros H1 H2. f_equal; [f_equal |]; lia.
Qed.

(** The scan of [should_send_morning], on the entries of the log. *)
Lemma morning_scan (cfg : config) (fs : gmap string string)
    (clock : datetime.reading) :
  TEST_MODE cfg = false ->
  in_digest_hour clock = true ->
  sent_column fs ->
  should_send_morning cfg fs clock =
    match last (filter (fun r => is_sent "morning" r) (entries fs)) with
    | Some r =>
        last_sent ← row_timestamp r;
        Ok (negb (bool_decide (datetime.date last_sent = today clock)))
    | None => Ok true
    end.
Proof.
  intros Ht Hh Hcol. unfold should_send_morning. rewrite Ht.
  change (datetime.hour (datetime.now clock CENTRAL)) with (datetime.r_hour clock).
  unfold in_digest_hour in Hh. rewrite Hh. simpl.
  unfold sent_column in Hcol. unfold entries in *.
  destruct (fs !! LOG_FILE) as [f |]; [| reflexivity].
  rewrite (sent_rows_filter _ _ Hcol), bind_Ok.
  destruct (last _) as [r |]; [| reflexivity].
  destruct (row_timestamp r) as [ts | e]; [| reflexivity].
  rewrite !bind_Ok. unfold today. destruct (bool_decide _); reflexivity.
Qed.

(** C8.  With the verification flag set [should_send_morning] returns
    true.  Without it, on a log kept in order of time (section 3: no entry
    is dated after a later one or after today), it returns true exactly
    when the local hour is in [8, 9) and no sent [morning] entry is dated
    today. *)
Theorem digest_gate (cfg : config) (fs : gmap string string)
    (clock : datetime.reading) (dates : list (Z * Z * Z)) :
  (TEST_MODE cfg = true -> should_send_morning cfg fs clock = Ok true)
  /\ (TEST_MODE cfg = false ->
      sent_column fs ->
      Forall2 dated (filter (fun r => is_sent "morning" r) (entries fs)) dates ->
      StronglySorted date_le (dates ++ [today clock]) ->
      should_send_morning cfg fs clock
      = Ok (in_digest_hour clock && bool_decide (today clock ∉ dates))).
Proof.
  split.
  - intros Ht. unfold should_send_morning. rewrite Ht. reflexivity.
  - intros Ht Hcol Hdated Hsorted.
    destruct (in_digest_hour clock) eqn:Hh.
    + rewrite (morning_scan cfg fs clock Ht Hh Hcol). simpl.
      destruct (filter _ (entries fs)) as [| r0 rows0] using rev_ind.
      * apply Forall2_nil_inv_l in Hdated as ->. reflexivity.
      * rewrite last_snoc.
        apply Forall2_app_inv_l in Hdated
          as (ds & d1 & _ & Hlast & ->).
        apply Forall2_cons_inv_l in Hlast as (d & nil_ & (ts & Hts & Hd) & Hnil & ->).
        apply Forall2_nil_inv_l in Hnil as ->.
        rewrite Hts, bind_Ok, Hd. f_equal.
        destruct (decide (d = today clock)) as [-> | Hne].
        -- rewrite bool_decide_eq_true_2 by reflexivity.
           rewrite bool_decide_eq_false_2; [reflexivity |].
           intros Hn. apply Hn. set_solver.
        -- rewrite bool_decide_eq_false_2 by exact Hne.
           rewrite bool_decide_eq_true_2; [reflexivity |].
           intros Hin. apply elem_of_app in Hin as [Hds | Hd1].
           ++ apply Hne. apply date_le_antisym.
              ** eapply (StronglySorted_app_1_elem_of _ [d] [today clock]);
                   [| set_solver | set_solver].
                 eapply StronglySorted_app_1_r. rewrite <- app_assoc in Hsorted.
                 exact Hsorted.
              ** eapply (StronglySorted_app_1_elem_of _ ds [d]);
                   [| exact Hds | set_solver].
                 eapply StronglySorted_app_1_l. exact Hsorted.
           ++ apply Hne. symmetry. apply list_elem_of_singleton. exact Hd1.
    + unfold should_send_morning. rewrite Ht.
      change (datetime.hour (datetime.now clock CENTRAL))
        with (datetime.r_hour clock).
      unfold in_digest_hour in Hh. rewrite Hh. reflexivity.
Qed.

Ltac compute_entries :=
  match goal with
  | |- context [filter ?P (entries ?fs)] =>
      let l := eval vm_compute in (filter P (entries fs)) in
      change (filter P (entries fs)) with l
  end.

Lemma digest_gate_witness :
  should_send_morning cfg_normal log_digest_yesterday at_0830 = Ok true
  /\ should_send_morning cfg_normal log_digest_today at_0830 = Ok false
  /\ should_send_morning cfg_test log_digest_today at_0300 = Ok true.
Proof.
  split; [| split].
  - destruct (digest_gate cfg_normal log_digest_yesterday at_0830
                [(2026, 11, 2)]) as [_ H].
    apply H.
    + reflexivity.
    + by_computation.
    + compute_entries. repeat constructor.
      eexists. split; vm_compute; reflexivity.
    + by_computation.
  - destruct (digest_gate cfg_normal log_digest_today at_0830
                [(2026, 11, 2); (2026, 11, 3)]) as [_ H].
    apply H.
    + reflexivity.
    + by_computation.
    + compute_entries. repeat constructor.
      * eexists. split; vm_compute; reflexivity.
      * eexists. split; vm_compute; reflexivity.
    + by_computation.
  - destruct (digest_gate cfg_test log_digest_today at_0300 []) as [H _].
    apply H. reflexivity.
Defined.

(** ** Malformed rows *)

Lemma should_send_entries (cfg : config) (fs : gmap string string)
    (clock : datetime.reading) (level : Q) (kind : string)
    (window : option datetime.timedelta) :
  isWithinSendingHours clock = true ->
  throttle_window level kind = Window window ->
  should_send cfg fs clock level kind =
    (rows ← sent_rows (entries fs) kind;
     match last rows with
     | Some r =>
         last_sent ← row_timestamp r;
         delta ← datetime.sub (datetime.now clock CENTRAL) last_sent;
         match window with
         | Some w => if delta <? w then Ok false else Ok true
         | None => Raise UnboundLocalError
         end
     | None => Ok true
     end).
Proof.
  intros Hh Hw. unfold should_send.
  change (datetime.hour (datetime.now clock CENTRAL)) with (datetime.r_hour clock).
  unfold isWithinSendingHours in Hh. rewrite Hh, Hw. simpl.
  unfold entries. destruct (fs !! LOG_FILE); reflexivity.
Qed.

Lemma last_filter_readable {A} (P : A -> Prop) `{forall x, Decision (P x)}
    (l : list A) :
  (forall x, last l = Some x -> P x) -> last (filter P l) = last l.
Proof.
  destruct l as [| x l _] using rev_ind; [reflexivity |].
  intros Hl. rewrite filter_app, filter_cons, decide_True.
  - rewrite filter_nil, !last_snoc. reflexivity.
  - apply Hl. apply last_snoc.
Qed.

Lemma last_sent_skips (fs fs' : gmap string string) (kind : string) :
  entries fs' = filter (fun r => timestamp_ok r) (entries fs) ->
  last_sent_readable fs kind ->
  last (filter (fun r => is_sent kind r) (entries fs'))
  = last (filter (fun r => is_sent kind r) (entries fs)).
Proof.
  intros -> Hlast. rewrite list_filter_filter.
  rewrite <- (last_filter_readable (fun r => timestamp_ok r)
                (filter (fun r => is_sent kind r) (entries fs))) by exact Hlast.
  rewrite list_filter_filter. f_equal. apply list_filter_iff. tauto.
Qed.

Lemma sent_column_filter (fs fs' : gmap string string) (P : csv.row -> Prop)
    `{forall r, Decision (P r)} :
  entries fs' = filter P (entries fs) -> sent_column fs -> sent_column fs'.
Proof.
  unfold sent_column. intros ->. rewrite !Forall_forall.
  intros Hall r Hr. apply Hall. apply list_elem_of_filter in Hr. tauto.
Qed.

(** C3, as the code has it.  Neither scan reads the timestamp of any row
    but the last sent row of its type: when that row is well-formed, the
    decision is the one computed over the well-formed rows alone, whatever
    the other rows hold.  When that row's timestamp is malformed,
    [should_send] (in the sending hours, for a level that reaches the
    scan) and [should_send_morning] (in the digest hour) raise
    [ValueError]. *)
Theorem scan_reads_last_row_only (cfg : config) (fs fs' : gmap string string)
    (clock : datetime.reading) :
  sent_column fs ->
  entries fs' = filter (fun r => timestamp_ok r) (entries fs) ->
  (forall level kind,
      last_sent_readable fs kind ->
      should_send cfg fs clock level kind
      = should_send cfg fs' clock level kind)
  /\ (last_sent_readable fs "morning" ->
      should_send_morning cfg fs clock = should_send_morning cfg fs' clock)
  /\ (forall level kind window r,
        isWithinSendingHours clock = true ->
        throttle_window level kind = Window window ->
        last (filter (fun r => is_sent kind r) (entries fs)) = Some r ->
        row_timestamp r = Raise ValueError ->
        should_send cfg fs clock level kind = Raise ValueError)
  /\ (forall r,
        TEST_MODE cfg = false ->
        in_digest_hour clock = true ->
        last (filter (fun r => is_sent "morning" r) (entries fs)) = Some r ->
        row_timestamp r = Raise ValueError ->
        should_send_morning cfg fs clock = Raise ValueError).
Proof.
  intros Hcol Hfs'.
  pose proof (sent_column_filter fs fs' _ Hfs' Hcol) as Hcol'.
  repeat split.
  - intros level kind Hlast.
    destruct (isWithinSendingHours clock) eqn:Hh;
      [| rewrite !quiet_hours by exact Hh; reflexivity].
    destruct (throttle_window level kind) as [b | window] eqn:Hw.
    + unfold should_send. rewrite Hw. reflexivity.
    + rewrite !(should_send_entries _ _ _ _ _ window Hh Hw).
      rewrite (sent_rows_filter _ _ Hcol), (sent_rows_filter _ _ Hcol').
      rewrite !bind_Ok, (last_sent_skips fs fs' kind Hfs' Hlast). reflexivity.
  - intros Hlast. destruct (TEST_MODE cfg) eqn:Ht.
    + unfold should_send_morning. rewrite Ht. reflexivity.
    + destruct (in_digest_hour clock) eqn:Hh.
      * rewrite !morning_scan by assumption.
        rewrite (last_sent_skips fs fs' "morning" Hfs' Hlast). reflexivity.
      * unfold should_send_morning. rewrite Ht.
        change (datetime.hour (datetime.now clock CENTRAL))
          with (datetime.r_hour clock).
        unfold in_digest_hour in Hh. rewrite Hh. reflexivity.
  - intros level kind window r Hh Hw Hr Hts.
    rewrite (should_send_entries _ _ _ _ _ window Hh Hw).
    rewrite (sent_rows_filter _ _ Hcol), bind_Ok, Hr, Hts. reflexivity.
  - intros r Ht Hh Hr Hts.
    rewrite morning_scan by assumption. rewrite Hr, Hts. reflexivity.
Qed.

(** C3 as stated fails: the log's last sent tray row and last sent digest
    row have timestamps that are no dates.  Over the well-formed rows
    alone the alert would be sent and the digest too; on the log itself
    both scans raise [ValueError]. *)
Lemma malformed_last_row_raises :
  should_send cfg_normal log_wellformed_rows at_1030 95 "container" = Ok true
  /\ should_send cfg_normal log_malformed_last at_1030 95 "container"
     = Raise ValueError
  /\ should_send_morning cfg_normal log_wellformed_rows at_0830 = Ok true
  /\ should_send_morning cfg_normal log_malformed_last at_0830
     = Raise ValueError.
Proof. repeat split; vm_compute; reflexivity. Qed.

Lemma scan_reads_last_row_only_witness :
  should_send cfg_normal log_malformed_first at_1030 95 "container"
  = should_send cfg_normal log_wellformed_rows at_1030 95 "container"
  /\ should_send_morning cfg_normal log_malformed_first at_0830
     = should_send_morning cfg_normal log_wellformed_rows at_0830
  /\ should_send cfg_normal log_malformed_last at_1030 95 "container"
     = Raise ValueError
  /\ should_send_morning cfg_normal log_malformed_last at_0830
     = Raise ValueError.
Proof.
  assert (Hcol1 : sent_column log_malformed_first) by by_computation.
  assert (Hcol2 : sent_column log_malformed_last) by by_computation.
  destruct (scan_reads_last_row_only cfg_normal log_malformed_first
              log_wellformed_rows at_1030 Hcol1
              ltac:(vm_compute; reflexivity)) as (Ha & _ & _ & _).
  destruct (scan_reads_last_row_only cfg_normal log_malformed_first
              log_wellformed_rows at_0830 Hcol1
              ltac:(vm_compute; reflexivity)) as (_ & Hb & _ & _).
  destruct (scan_reads_last_row_only cfg_normal log_malformed_last
              log_wellformed_rows at_1030 Hcol2
              ltac:(vm_compute; reflexivity)) as (_ & _ & Hc & _).
  destruct (scan_reads_last_row_only cfg_normal log_malformed_last
              log_wellformed_rows at_0830 Hcol2
              ltac:(vm_compute; reflexivity)) as (_ & _ & _ & Hd).
  split; [| split; [| split]].
  - apply Ha. intros r Hr. vm_compute in Hr. injection Hr as <-.
    vm_compute. exact I.
  - apply Hb. intros r Hr. vm_compute in Hr. injection Hr as <-.
    vm_compute. exact I.
  - eapply (Hc 95%Q "container" (Some (datetime.hours 1)));
      [reflexivity | reflexivity | vm_compute; reflexivity
      | vm_compute; reflexivity].
  - eapply Hd;
      [reflexivity | reflexivity | vm_compute; reflexivity
      | vm_compute; reflexivity].
Defined.

(** ** Compaction: failures *)

Lemma LOCK_FILE_neq_LOG_FILE : LOCK_FILE <> LOG_FILE.
Proof. discriminate. Qed.

Lemma path_exists_false (fs : gmap string string) (p : string) :
  os.path_exists fs p = false <-> fs !! p = None.
Proof.
  unfold os.path_exists. rewrite bool_decide_eq_false.
  rewrite <- eq_None_not_Some. reflexivity.
Qed.

Lemma path_exists_insert (fs : gmap string string) (p text : string) :
  os.path_exists (<[p := text]> fs) p = true.
Proof.
  unfold os.path_exists. apply bool_decide_eq_true.
  rewrite lookup_insert_eq. eauto.
Qed.

(** When the [try] block raises, either no temporary file was made, or
    it is the only thing added to the file system. *)
Lemma cleanup_try_raises (env : faults) (cutoff : datetime.t)
    (fs fs' : gmap string string) (tmp_path : option string) (e : exn) :
  cleanup_try env cutoff fs = (fs', tmp_path, Raise e) ->
  (tmp_path = None /\ fs' = fs)
  \/ (tmp_path = Some (tmp_name env) /\ fs !! tmp_name env = None
      /\ exists out, fs' = <[tmp_name env := out]> fs).
Proof.
  unfold cleanup_try.
  destruct (if log_open_fails env then None else fs !! LOG_FILE) as [infile |];
    [| intros [= <- <- _]; left; split; reflexivity].
  destruct (mkstemp_fails env || os.path_exists fs (tmp_name env)) eqn:Hmk;
    [intros [= <- <- _]; left; split; reflexivity |].
  apply orb_false_iff in Hmk as [_ Hfresh].
  apply path_exists_false in Hfresh.
  destruct (csv.writeheader _) as [header | e0].
  - destruct (copy_recent _ _ _ _ _ _) as [out r].
    rewrite insert_insert_eq.
    destruct r as [counts | e1].
    + destruct (tmp_close_fails env);
        [intros [= <- <- _]; right; eauto |].
      destruct (replace_fails env);
        [intros [= <- <- _]; right; eauto |].
      unfold os.replace. rewrite lookup_insert_eq. discriminate.
    + intros [= <- <- _]. right. eauto.
  - intros [= <- <- _]. right. eauto.
Qed.

Lemma copy_recent_raises (fieldnames : list string) (cutoff : datetime.t)
    (rows : list csv.row) (out : string) (kept removed : nat) :
  Exists (fun r => timestamp_ok r = false) rows ->
  raises (copy_recent fieldnames cutoff rows out kept removed).2.
Proof.
  intros Hex. revert out kept removed.
  induction Hex as [r rows Hbad | r rows _ IH]; intros out kept removed;
    cbn [copy_recent].
  - unfold timestamp_ok in Hbad.
    destruct (row_timestamp r) as [ts | e]; [discriminate |].
    simpl. eexists. reflexivity.
  - destruct (row_timestamp r) as [ts | e]; [| eexists; reflexivity].
    destruct (datetime.ge ts cutoff) as [[|] | e]; [| apply IH | eexists; reflexivity].
    destruct (csv.DictWriter_writerow fieldnames r) as [line | e];
      [apply IH | eexists; reflexivity].
Qed.

Lemma cleanup_try_replace_fails (env : faults) (cutoff : datetime.t)
    (fs : gmap string string) :
  replace_fails env = true ->
  raises (cleanup_try env cutoff fs).2.
Proof.
  intros Hrep. unfold cleanup_try.
  destruct (if log_open_fails env then None else _) as [infile |];
    [| eexists; reflexivity].
  destruct (_ || _); [eexists; reflexivity |].
  destruct (csv.writeheader _); [| eexists; reflexivity].
  destruct (copy_recent _ _ _ _ _ _) as [out [counts | e1]];
    [| eexists; reflexivity].
  destruct (tmp_close_fails env); [eexists; reflexivity |].
  rewrite Hrep. eexists. reflexivity.
Qed.

Lemma cleanup_try_malformed (env : faults) (cutoff : datetime.t)
    (fs : gmap string string) (f : string) :
  fs !! LOG_FILE = Some f ->
  Exists (fun row => timestamp_ok row = false) (csv.DictReader f) ->
  raises (cleanup_try env cutoff fs).2.
Proof.
  intros Hf Hbad. unfold cleanup_try. rewrite Hf.
  destruct (log_open_fails env); [eexists; reflexivity |].
  destruct (_ || _); [eexists; reflexivity |].
  destruct (csv.writeheader _) as [header | e1]; [| eexists; reflexivity].
  pose proof (copy_recent_raises
                (default [] (csv.DictReader_fieldnames f)) cutoff
                (csv.DictReader f) header 0 0 Hbad) as [e He].
  destruct (copy_recent _ _ _ _ _ _) as [out r0]. simpl in He. subst r0.
  eexists. reflexivity.
Qed.

Lemma raises_counts (r : result (nat * nat)) :
  raises r ->
  raises (match r with
          | Ok counts => Ok (Some counts)
          | Raise e => Raise e
          end).
Proof. intros [e ->]. eexists. reflexivity. Qed.

Lemma cleanup_log_absent (env : faults) (fs : gmap string string)
    (clock : datetime.reading) :
  fs !! LOG_FILE = None -> cleanup_log env fs clock = (fs, Ok None).
Proof.
  intros H. unfold cleanup_log.
  apply path_exists_false in H. rewrite H. reflexivity.
Qed.

(** What [cleanup_log] does once the log is known to exist and the
    cutoff is computed. *)
Lemma cleanup_log_present (env : faults) (fs : gmap string string)
    (clock : datetime.reading) :
  is_Some (fs !! LOG_FILE) ->
  cleanup_log env fs clock =
    match datetime.add_timedelta (datetime.now clock CENTRAL)
            (- datetime.hours 48) with
    | Raise e => (fs, Raise e)
    | Ok cutoff =>
        if lock_open_fails env then (fs, Raise OSError)
        else if flock_fails env then (<[LOCK_FILE := ""]> fs, Raise OSError)
        else
          let run := cleanup_try env cutoff (<[LOCK_FILE := ""]> fs) in
          (match run.1.2 with
           | Some p => if os.path_exists run.1.1 p then os.unlink run.1.1 p
                       else run.1.1
           | None => run.1.1
           end,
           match run.2 with
           | Ok counts => Ok (Some counts)
           | Raise e => Raise e
           end)
    end.
Proof.
  intros H. unfold cleanup_log.
  assert (Hex : os.path_exists fs LOG_FILE = true).
  { unfold os.path_exists. apply bool_decide_eq_true. exact H. }
  rewrite Hex. cbn [negb].
  destruct (datetime.add_timedelta _ _); [| reflexivity].
  destruct (lock_open_fails env); [reflexivity |].
  destruct (flock_fails env); [reflexivity |].
  destruct (cleanup_try _ _ _) as [[fs1 tp] r1]. reflexivity.
Qed.

Lemma lock_only (fs : gmap string string) :
  (<[LOCK_FILE := ""]> fs) !! LOG_FILE = fs !! LOG_FILE
  /\ (forall p, p <> LOCK_FILE -> (<[LOCK_FILE := ""]> fs) !! p = fs !! p).
Proof.
  split; [apply lookup_insert_ne; exact LOCK_FILE_neq_LOG_FILE |].
  intros p Hp. apply lookup_insert_ne. congruence.
Qed.

(** C5.  [cleanup_log] does nothing when the log does not exist.  When it
    raises, whatever failed (a malformed row, [os.replace], opening or
    locking a file, making or closing the temporary file), the log has its
    original text, no temporary file is left (nothing but the lock file
    differs from before), and the exception reaches the caller: a
    malformed row and a failing [os.replace] each make the call raise. *)
Theorem cleanup_log_failure (env : faults) (fs fs' : gmap string string)
    (clock : datetime.reading) (r : result (option (nat * nat))) :
  cleanup_log env fs clock = (fs', r) ->
  (fs !! LOG_FILE = None -> fs' = fs /\ r = Ok None)
  /\ (raises r ->
      fs' !! LOG_FILE = fs !! LOG_FILE
      /\ (forall p, p <> LOCK_FILE -> fs' !! p = fs !! p))
  /\ (is_Some (fs !! LOG_FILE) -> replace_fails env = true -> raises r)
  /\ (Exists (fun row => timestamp_ok row = false) (entries fs) -> raises r).
Proof.
  intros Hrun.
  destruct (fs !! LOG_FILE) as [f |] eqn:Hf.
  2:{ rewrite (cleanup_log_absent env fs clock Hf) in Hrun.
      injection Hrun as <- <-.
      split; [intros _; split; reflexivity |].
      split; [intros [e He]; discriminate |].
      split; [intros [x Hx]; congruence |].
      rewrite (entries_absent _ Hf). intros H. inversion H. }
  rewrite (cleanup_log_present env fs clock) in Hrun by (rewrite Hf; eauto).
  split; [intros Hn; congruence |].
  destruct (lock_only fs) as [Hlog Hrest]. rewrite Hf in Hlog.
  destruct (datetime.add_timedelta _ _) as [cutoff | e0].
  2:{ injection Hrun as <- <-.
      repeat split; first [exact Hf | eexists; reflexivity]. }
  destruct (lock_open_fails env).
  { injection Hrun as <- <-.
    repeat split; first [exact Hf | eexists; reflexivity]. }
  destruct (flock_fails env).
  { injection Hrun as <- <-.
    repeat split; first [exact Hlog | apply Hrest; assumption
                        | eexists; reflexivity]. }
  pose proof (cleanup_try_replace_fails env cutoff (<[LOCK_FILE:=""]> fs)) as Hrep.
  pose proof (cleanup_try_malformed env cutoff (<[LOCK_FILE:=""]> fs) f) as Hbad.
  pose proof (cleanup_try_raises env cutoff (<[LOCK_FILE:=""]> fs)) as Hsafe.
  destruct (cleanup_try env cutoff (<[LOCK_FILE:=""]> fs))
    as [[fs1 tmp_path] r1].
  cbn [fst snd] in Hrun, Hrep, Hbad. injection Hrun as <- <-.
  split; [| split].
  - intros [e He]. destruct r1 as [counts | e1]; [discriminate |].
    destruct (Hsafe _ _ _ eq_refl) as [[-> ->] | (-> & Hfresh & out & ->)].
    + split; assumption.
    + rewrite path_exists_insert. unfold os.unlink.
      rewrite (delete_insert_id _ _ _ Hfresh). split; assumption.
  - intros _ H. apply raises_counts, Hrep, H.
  - intros H. apply raises_counts, Hbad; [exact Hlog |].
    rewrite (entries_lookup _ _ Hf) in H. exact H.
Qed.

(** ** CSV: what the writer writes the reader reads back *)

Lemma app_cons_str (x : ascii) (a b : string) :
  String x a +:+ b = String x (a +:+ b).
Proof. reflexivity. Qed.

Lemma app_nil_r_str (s : string) : s +:+ "" = s.
Proof.
  induction s as [| c s IH]; [reflexivity |].
  rewrite app_cons_str, IH. reflexivity.
Qed.

Lemma app_assoc_str (a b c : string) : (a +:+ b) +:+ c = a +:+ (b +:+ c).
Proof.
  induction a as [| x a IH]; [reflexivity |].
  rewrite !app_cons_str, IH. reflexivity.
Qed.

Lemma special_false (c : ascii) :
  csv.special c = false ->
  Ascii.eqb c "," = false /\ Ascii.eqb c str.DQUOTE = false
  /\ csv.is_eol c = false /\ Ascii.eqb c str.LF = false
  /\ Ascii.eqb c str.CR = false.
Proof.
  unfold csv.special, csv.is_eol.
  destruct (Ascii.eqb c ","), (Ascii.eqb c str.DQUOTE), (Ascii.eqb c str.LF),
    (Ascii.eqb c str.CR); simpl; intros; try discriminate; repeat split.
Qed.

Lemma sep_start_not_quote (c : ascii) (k : string) :
  sep_start (String c k) -> Ascii.eqb c str.DQUOTE = false.
Proof.
  simpl. intros [-> | H]; [reflexivity |].
  unfold csv.is_eol in H. apply orb_true_iff in H as [H | H];
    apply Ascii.eqb_eq in H; subst; reflexivity.
Qed.

Lemma sep_start_cases (c : ascii) (k : string) :
  sep_start (String c k) ->
  (csv.is_eol c = true /\ Ascii.eqb c "," = false)
  \/ (csv.is_eol c = false /\ Ascii.eqb c "," = true).
Proof.
  simpl. intros [-> | H]; [right; split; reflexivity |].
  left. split; [exact H |].
  unfold csv.is_eol in H. apply orb_true_iff in H as [H | H];
    apply Ascii.eqb_eq in H; subst; reflexivity.
Qed.

Lemma parse_unquoted (f buf : string) (fields : list string) (k : string) :
  csv.needs_quotes f = false ->
  sep_start k ->
  csv.parse csv.IN_FIELD buf fields (f +:+ k) = finish fields (buf +:+ f) k.
Proof.
  revert buf. induction f as [| c f IH]; intros buf Hq Hk.
  - rewrite app_nil_r_str. change ("" +:+ k) with k.
    destruct k as [| c k]; [reflexivity |].
    destruct (sep_start_cases c k Hk) as [[He Hc] | [He Hc]];
      cbn [csv.parse finish]; rewrite He, ?Hc; reflexivity.
  - cbn [csv.needs_quotes] in Hq. apply orb_false_iff in Hq as [Hc Hq].
    destruct (special_false c Hc) as (Hcomma & _ & Heol & _ & _).
    rewrite app_cons_str. cbn [csv.parse]. rewrite Heol, Hcomma.
    rewrite (IH _ Hq Hk). unfold csv.snoc.
    rewrite app_assoc_str. reflexivity.
Qed.

Lemma parse_quoted_body (f buf : string) (fields : list string) (k : string) :
  csv.parse csv.IN_QUOTED_FIELD buf fields
    (csv.double_quotes f +:+ String str.DQUOTE k)
  = csv.parse csv.QUOTE_IN_QUOTED_FIELD (buf +:+ f) fields k.
Proof.
  revert buf. induction f as [| c f IH]; intros buf.
  - rewrite app_nil_r_str. reflexivity.
  - cbn [csv.double_quotes].
    destruct (Ascii.eqb c str.DQUOTE) eqn:Hc.
    + rewrite !app_cons_str. cbn [csv.parse]. rewrite Hc.
      cbn [csv.parse]. rewrite IH. unfold csv.snoc.
      rewrite app_assoc_str. reflexivity.
    + rewrite app_cons_str. cbn [csv.parse]. rewrite Hc, IH. unfold csv.snoc.
      rewrite app_assoc_str. reflexivity.
Qed.

Lemma parse_after_quote (f : string) (fields : list string) (k : string) :
  sep_start k ->
  csv.parse csv.QUOTE_IN_QUOTED_FIELD f fields k = finish fields f k.
Proof.
  destruct k as [| c k]; [reflexivity |]. intros Hk.
  pose proof (sep_start_not_quote c k Hk) as Hq.
  destruct (sep_start_cases c k Hk) as [[He Hc] | [He Hc]];
    cbn [csv.parse finish]; rewrite Hq, Hc, He; reflexivity.
Qed.

Lemma quoted_app (f k : string) :
  csv.quoted f +:+ k
  = String str.DQUOTE (csv.double_quotes f +:+ String str.DQUOTE k).
Proof.
  unfold csv.quoted. rewrite app_cons_str, app_assoc_str. reflexivity.
Qed.

Lemma parse_field (f : string) (fields : list string) (k : string) :
  sep_start k ->
  csv.parse csv.START_FIELD "" fields (csv.write_field f +:+ k)
  = finish fields f k.
Proof.
  intros Hk. unfold csv.write_field.
  destruct (csv.needs_quotes f) eqn:Hq.
  - rewrite quoted_app. cbn [csv.parse].
    change (csv.is_eol str.DQUOTE) with false.
    change (Ascii.eqb str.DQUOTE str.DQUOTE) with true. cbv iota.
    rewrite parse_quoted_body. apply parse_after_quote. exact Hk.
  - destruct f as [| c f].
    + change ("" +:+ k) with k. destruct k as [| c k]; [reflexivity |].
      destruct (sep_start_cases c k Hk) as [[He Hc] | [He Hc]];
        pose proof (sep_start_not_quote c k Hk) as Hd;
        cbn [csv.parse finish]; rewrite He, ?Hd, ?Hc; reflexivity.
    + cbn [csv.needs_quotes] in Hq. apply orb_false_iff in Hq as [Hc Hq].
      destruct (special_false c Hc) as (Hcomma & Hd & Heol & _ & _).
      rewrite app_cons_str. cbn [csv.parse]. rewrite Heol, Hd, Hcomma.
      apply (parse_unquoted f (String c "") fields k Hq Hk).
Qed.

(** The first field of a record, read at the start of a line.  An empty
    first field must be followed by a delimiter: alone on its line it is
    written quoted. *)
Lemma parse_first_field (f k : string) :
  sep_start k ->
  f <> "" \/ (exists k', k = String "," k') ->
  csv.parse csv.START_RECORD "" [] (csv.write_field f +:+ k) = finish [] f k.
Proof.
  intros Hk Hne. unfold csv.write_field.
  destruct (csv.needs_quotes f) eqn:Hq.
  - rewrite quoted_app. cbn [csv.parse].
    change (Ascii.eqb str.DQUOTE str.LF) with false.
    change (Ascii.eqb str.DQUOTE str.CR) with false.
    change (Ascii.eqb str.DQUOTE str.DQUOTE) with true. cbv iota.
    rewrite parse_quoted_body. apply parse_after_quote. exact Hk.
  - destruct f as [| c f].
    + destruct Hne as [Hne | [k' ->]]; [congruence |]. reflexivity.
    + cbn [csv.needs_quotes] in Hq. apply orb_false_iff in Hq as [Hc Hq].
      destruct (special_false c Hc) as (Hcomma & Hd & Heol & Hlf & Hcr).
      rewrite app_cons_str. cbn [csv.parse]. rewrite Hlf, Hcr, Hd, Hcomma.
      apply (parse_unquoted f (String c "") [] k Hq Hk).
Qed.

Lemma finish_line (fields : list string) (f rest : string) :
  finish fields f (csv.lineterminator +:+ rest)
  = (fields ++ [f]) :: csv.parse csv.START_RECORD "" [] rest.
Proof. reflexivity. Qed.

Lemma finish_comma (fields : list string) (f rest : string) :
  finish fields f ("," +:+ rest)
  = csv.parse csv.START_FIELD "" (fields ++ [f]) rest.
Proof. reflexivity. Qed.

Lemma parse_fields (fs fields : list string) (rest : string) :
  fs <> [] ->
  csv.parse csv.START_FIELD "" fields
    (str.join "," (csv.write_field <$> fs) +:+ csv.lineterminator +:+ rest)
  = (fields ++ fs) :: csv.parse csv.START_RECORD "" [] rest.
Proof.
  revert fields. induction fs as [| f fs IH]; intros fields Hne; [congruence |].
  destruct fs as [| f2 fs].
  - cbn [fmap list_fmap str.join].
    rewrite parse_field by (right; reflexivity). apply finish_line.
  - change (str.join "," (csv.write_field <$> f :: f2 :: fs))
      with (csv.write_field f +:+ "," +:+ str.join "," (csv.write_field <$> f2 :: fs)).
    rewrite !app_assoc_str.
    rewrite parse_field by (left; reflexivity).
    rewrite finish_comma, IH by discriminate.
    rewrite <- app_assoc. reflexivity.
Qed.

Lemma parse_writerow (r : list string) (rest : string) :
  csv.parse csv.START_RECORD "" [] (csv.writerow r +:+ rest)
  = r :: csv.parse csv.START_RECORD "" [] rest.
Proof.
  unfold csv.writerow. rewrite app_assoc_str.
  destruct r as [| f [| f2 fs]].
  - reflexivity.
  - destruct f as [| c f]; [reflexivity |].
    cbn [fmap list_fmap str.join].
    rewrite parse_first_field; [apply finish_line | right; reflexivity |].
    left. discriminate.
  - change (str.join "," (csv.write_field <$> f :: f2 :: fs))
      with (csv.write_field f +:+ "," +:+ str.join "," (csv.write_field <$> f2 :: fs)).
    replace (match f :: f2 :: fs with [EmptyString] => csv.quoted "" | _ =>
               csv.write_field f +:+ "," +:+ str.join "," (csv.write_field <$> f2 :: fs) end)
      with (csv.write_field f +:+ "," +:+ str.join "," (csv.write_field <$> f2 :: fs))
      by (destruct f; reflexivity).
    rewrite !app_assoc_str.
    rewrite parse_first_field; [| left; reflexivity | right; eauto].
    rewrite finish_comma, parse_fields by discriminate. reflexivity.
Qed.

(** Reading back what [writerows] wrote gives the records written. *)
Lemma reader_writerows (rows : list (list string)) :
  csv.reader (csv.writerows rows) = rows.
Proof.
  unfold csv.reader. induction rows as [| r rows IH]; [reflexivity |].
  cbn [csv.writerows foldr]. fold (csv.writerows rows).
  rewrite parse_writerow, IH. reflexivity.
Qed.

(** ** The calendar *)

Lemma month_day_table :
  forallb (fun i => month_day_ok false (Z.of_nat i)) (seq 0 365)
  && forallb (fun i => month_day_ok true (Z.of_nat i)) (seq 0 366) = true.
Proof. vm_compute. reflexivity. Qed.

Lemma month_day_spec (leap : bool) (n : Z) :
  0 <= n < (if leap then 366 else 365) ->
  month_day_ok leap n = true.
Proof.
  intros Hn. pose proof month_day_table as H.
  apply andb_prop in H as [H0 H1].
  rewrite forallb_forall in H0, H1.
  rewrite <- (Z2Nat.id n) by lia.
  destruct leap; [apply H1 | apply H0]; apply in_seq; lia.
Qed.

(** [date.fromordinal] followed by [date.toordinal] is the identity. *)
Lemma ymd2ord_ord2ymd (n : Z) :
  1 <= n ->
  let '(y, m, d) := datetime.ord2ymd n in datetime.ymd2ord y m d = n.
Proof.
  intros Hn. unfold datetime.ord2ymd.
  set (n0 := n - 1).
  set (q := n0 / 146097). set (r400 := n0 mod 146097).
  set (n100 := r400 / 36524). set (r100 := r400 mod 36524).
  set (n4 := r100 / 1461). set (r4 := r100 mod 1461).
  set (n1 := r4 / 365). set (r1 := r4 mod 365).
  assert (E400 : n0 = 146097 * q + r400 /\ 0 <= r400 < 146097).
  { subst q r400. split; [apply Z.div_mod; lia | apply Z.mod_pos_bound; lia]. }
  assert (E100 : r400 = 36524 * n100 + r100 /\ 0 <= r100 < 36524).
  { subst n100 r100. split; [apply Z.div_mod; lia | apply Z.mod_pos_bound; lia]. }
  assert (E4 : r100 = 1461 * n4 + r4 /\ 0 <= r4 < 1461).
  { subst n4 r4. split; [apply Z.div_mod; lia | apply Z.mod_pos_bound; lia]. }
  assert (E1 : r4 = 365 * n1 + r1 /\ 0 <= r1 < 365).
  { subst n1 r1. split; [apply Z.div_mod; lia | apply Z.mod_pos_bound; lia]. }
  assert (Hq : 0 <= q) by (subst q; apply Z.div_pos; lia).
  clearbody q r400 n100 r100 n4 r4 n1 r1.
  assert (0 <= n100 <= 4) by lia. assert (0 <= n4 <= 24) by lia.
  assert (0 <= n1 <= 4) by lia.
  destruct ((n1 =? 4) || (n100 =? 4)) eqn:Hsp.
  - unfold datetime.ymd2ord, datetime.days_before_year,
      datetime.days_before_month.
    simpl datetime.DAYS_BEFORE_MONTH.
    apply orb_true_iff in Hsp.
    assert (Hy : exists k,
               q * 400 + 1 + n100 * 100 + n4 * 4 + n1 - 1 = 4 * k
               /\ (n100 = 4 /\ n4 = 0 /\ n1 = 0 /\ r1 = 0 /\ r4 = 0
                   /\ r100 = 0 /\ k = 100 * q + 100
                   \/ n1 = 4 /\ n100 <= 3 /\ n4 <= 23 /\ r1 = 0
                      /\ k = 100 * q + 25 * n100 + n4 + 1)).
    { destruct Hsp as [H4 | H4]; apply Z.eqb_eq in H4.
      - exists (100 * q + 25 * n100 + n4 + 1). split; [lia |]. right. lia.
      - exists (100 * q + 100). split; [lia |]. left. lia. }
    destruct Hy as (k & Hy & Hcase). rewrite Hy.
    assert (Hleap : datetime.is_leap (4 * k) = true).
    { unfold datetime.is_leap.
      repeat match goal with |- context [?a mod ?b =? 0] =>
        destruct (Z.eqb_spec (a mod b) 0) end; simpl; try reflexivity;
      exfalso; Z.div_mod_to_equations; lia. }
    rewrite Hleap. simpl.
    Z.div_mod_to_equations. lia.
  - apply orb_false_iff in Hsp as [Hn1 Hn100].
    apply Z.eqb_neq in Hn1, Hn100.
    set (leap := (n1 =? 3) && (negb (n4 =? 24) || (n100 =? 3))).
    pose proof (month_day_spec leap r1) as Hmd.
    destruct (datetime.month_day leap r1) as [m d] eqn:Emd.
    unfold month_day_ok in Hmd. rewrite Emd in Hmd.
    assert (Hr : 0 <= r1 < (if leap then 366 else 365)) by (destruct leap; lia).
    specialize (Hmd Hr).
    apply andb_prop in Hmd as [_ Hsum]. apply Z.eqb_eq in Hsum.
    assert (Hleap :
              datetime.is_leap (q * 400 + 1 + n100 * 100 + n4 * 4 + n1) = leap).
    { unfold datetime.is_leap, leap.
      destruct (Z.eqb_spec n1 3), (Z.eqb_spec n4 24), (Z.eqb_spec n100 3); simpl;
        repeat match goal with |- context [?a mod ?b =? 0] =>
          destruct (Z.eqb_spec (a mod b) 0) end; simpl; try reflexivity;
        exfalso; Z.div_mod_to_equations; lia. }
    unfold datetime.ymd2ord, datetime.days_before_year,
      datetime.days_before_month.
    rewrite Hleap.
    Z.div_mod_to_equations. lia.
Qed.

(** Adding a duration moves the wall clock by that duration and keeps
    the zone. *)
Lemma add_timedelta_wall (d d' : datetime.t) (delta : Z) :
  datetime.add_timedelta d delta = Ok d' ->
  datetime.wall_us d' = datetime.wall_us d + delta
  /\ datetime.tz d' = datetime.tz d.
Proof.
  unfold datetime.add_timedelta.
  set (total := datetime.wall_us d + delta).
  destruct ((0 <? total / 86400000000) && _) eqn:Hrange; [| discriminate].
  apply andb_prop in Hrange as [Hpos _]. apply Z.ltb_lt in Hpos.
  pose proof (ymd2ord_ord2ymd (total / 86400000000) ltac:(lia)) as Hord.
  destruct (datetime.ord2ymd (total / 86400000000)) as [[y m] dd].
  intros [= <-]. split; [| reflexivity].
  unfold datetime.wall_us at 1. simpl. rewrite Hord.
  clearbody total. Z.div_mod_to_equations. lia.
Qed.

Lemma chicago_utcoffset_cases (d : datetime.t) :
  datetime.chicago_utcoffset d = datetime.hours (-5)
  \/ datetime.chicago_utcoffset d = datetime.hours (-6).
Proof.
  unfold datetime.chicago_utcoffset. destruct (datetime.chicago_is_dst d); eauto.
Qed.

(** ** Compaction: what is kept *)

Lemma to_dict_record (a b c d : string) :
  csv.to_dict LOG_FIELDNAMES [a; b; c; d]
  = csv.mkrow
      (<["sent" := Some d]>
         (<["level" := Some c]>
            (<["type" := Some b]> (<["timestamp" := Some a]> ∅))))
      None.
Proof. reflexivity. Qed.

Lemma row_timestamp_record (a b c d : string) :
  row_timestamp (csv.to_dict LOG_FIELDNAMES [a; b; c; d])
  = datetime.fromisoformat a.
Proof.
  rewrite to_dict_record. unfold row_timestamp, csv.getitem. simpl csv.named.
  rewrite !lookup_insert_ne by discriminate. rewrite lookup_insert_eq.
  reflexivity.
Qed.

Lemma dict_to_list_record (a b c d : string) :
  csv.dict_to_list LOG_FIELDNAMES (csv.to_dict LOG_FIELDNAMES [a; b; c; d])
  = Ok [a; b; c; d].
Proof.
  rewrite to_dict_record. unfold csv.dict_to_list. simpl csv.rest. simpl csv.named.
  rewrite bool_decide_eq_true_2 by reflexivity.
  rewrite bool_decide_eq_true_2.
  2:{ rewrite !dom_insert_L, dom_empty_L. unfold LOG_FIELDNAMES. simpl. set_solver. }
  simpl. unfold csv.get. simpl csv.named.
  repeat (rewrite lookup_insert_eq || rewrite lookup_insert_ne by discriminate).
  reflexivity.
Qed.

Lemma writerow_record (r : csv.row) (a b c d : string) :
  r = csv.to_dict LOG_FIELDNAMES [a; b; c; d] ->
  csv.DictWriter_writerow LOG_FIELDNAMES r = Ok (csv.writerow [a; b; c; d]).
Proof.
  intros ->. unfold csv.DictWriter_writerow. rewrite dict_to_list_record.
  reflexivity.
Qed.

Lemma log_record_ok_inv (rec : list string) :
  log_record_ok rec = true ->
  exists a b c d ts o,
    rec = [a; b; c; d] /\ datetime.fromisoformat a = Ok ts
    /\ datetime.tz ts = Some (datetime.timezone o).
Proof.
  unfold log_record_ok.
  destruct rec as [| a [| b [| c [| d [| ? ?]]]]]; try discriminate.
  destruct (datetime.fromisoformat a) as [ts | e] eqn:Hts; [| discriminate].
  intros H. apply bool_decide_eq_true in H.
  destruct (fromisoformat_tz _ _ Hts) as [Hn | [o Ho]].
  - rewrite Hn in H. destruct H. discriminate.
  - eauto 10.
Qed.

(** Comparing an aware timestamp with a cutoff on Chicago's clock. *)
Lemma ge_cutoff (ts cutoff : datetime.t) (o : Z) :
  datetime.tz ts = Some (datetime.timezone o) ->
  datetime.tz cutoff = Some CENTRAL ->
  datetime.ge ts cutoff
  = Ok ((datetime.wall_us cutoff - datetime.chicago_utcoffset cutoff)
        <=? (datetime.wall_us ts - o)).
Proof.
  intros Hts Hc. unfold datetime.ge, datetime.sub, datetime.utcoffset,
    datetime.same_tzinfo. rewrite Hts, Hc. simpl.
  unfold mret, result_ret. f_equal.
  apply eq_true_iff_eq. rewrite !Z.leb_le. lia.
Qed.

Lemma copy_recent_records (cutoff : datetime.t) (recs : list (list string))
    (out : string) (kept removed : nat) :
  datetime.tz cutoff = Some CENTRAL ->
  Forall (fun rec => log_record_ok rec = true) recs ->
  copy_recent LOG_FIELDNAMES cutoff (csv.to_dict LOG_FIELDNAMES <$> recs)
    out kept removed
  = (out +:+ csv.writerows (filter (fun rec => recent cutoff rec) recs),
     Ok ((kept + length (filter (fun rec => recent cutoff rec) recs))%nat,
         (removed + (length recs
                     - length (filter (fun rec => recent cutoff rec) recs)))%nat)).
Proof.
  intros Hc Hok. revert out kept removed.
  induction Hok as [| rec recs Hrec _ IH]; intros out kept removed.
  - simpl. rewrite app_nil_r_str, !Nat.add_0_r. reflexivity.
  - destruct (log_record_ok_inv rec Hrec) as (a & b & c & d & ts & o & -> & Hts & Hz).
    assert (Hr : recent cutoff [a; b; c; d]
                 = ((datetime.wall_us cutoff - datetime.chicago_utcoffset cutoff)
                    <=? (datetime.wall_us ts - o))).
    { unfold recent. rewrite Hts, (ge_cutoff ts cutoff o Hz Hc). reflexivity. }
    cbn [fmap list_fmap copy_recent].
    rewrite row_timestamp_record, Hts, (ge_cutoff ts cutoff o Hz Hc).
    rewrite filter_cons, Hr.
    pose proof (length_filter (fun rec => recent cutoff rec) recs) as Hlen.
    destruct (_ <=? _).
    + rewrite (writerow_record _ a b c d eq_refl), IH.
      rewrite decide_True by exact I.
      cbn [csv.writerows foldr length].
      fold (csv.writerows (filter (fun rec => recent cutoff rec) recs)).
      rewrite app_assoc_str. do 2 f_equal. apply (f_equal2 pair); lia.
    + rewrite IH. rewrite decide_False by (intros []).
      cbn [length]. do 2 f_equal. apply (f_equal2 pair); lia.
Qed.


Lemma nonblank_records (recs : list (list string)) :
  Forall (fun rec => log_record_ok rec = true) recs ->
  filter (fun r => csv.nonblank r) recs = recs.
Proof.
  induction 1 as [| rec recs Hrec _ IH]; [reflexivity |].
  rewrite filter_cons, IH.
  destruct rec; [discriminate |]. reflexivity.
Qed.

Lemma valid_reading_ord (c : datetime.reading) :
  valid_reading c = true ->
  0 <= datetime.r_hour c <= 23 /\ 0 <= datetime.r_minute c <= 59
  /\ 0 <= datetime.r_second c <= 59 /\ 0 <= datetime.r_microsecond c <= 999999
  /\ datetime.days_before_year (datetime.r_year c) + 1
     <= datetime.ymd2ord (datetime.r_year c) (datetime.r_month c) (datetime.r_day c)
     <= datetime.days_before_year (datetime.r_year c) + 366
  /\ 1 <= datetime.r_year c <= 9999.
Proof.
  unfold valid_reading, datetime.valid_fields. intros H.
  repeat (apply andb_prop in H as [H ?]).
  repeat match goal with
         | H : (_ <=? _) = true |- _ => apply Z.leb_le in H
         end.
  repeat split; try assumption.
  - unfold datetime.ymd2ord, datetime.days_before_month.
    assert (Hm : datetime.r_month c = 1 \/ datetime.r_month c = 2
                 \/ datetime.r_month c = 3 \/ datetime.r_month c = 4
                 \/ datetime.r_month c = 5 \/ datetime.r_month c = 6
                 \/ datetime.r_month c = 7 \/ datetime.r_month c = 8
                 \/ datetime.r_month c = 9 \/ datetime.r_month c = 10
                 \/ datetime.r_month c = 11 \/ datetime.r_month c = 12) by lia.
    destruct Hm as [-> | [-> | [-> | [-> | [-> | [-> | [-> | [-> | [-> | [-> | [-> | ->]]]]]]]]]]];
      simpl; destruct (datetime.is_leap (datetime.r_year c)); lia.
  - unfold datetime.ymd2ord, datetime.days_before_month.
    unfold datetime.days_in_month in *.
    assert (Hm : datetime.r_month c = 1 \/ datetime.r_month c = 2
                 \/ datetime.r_month c = 3 \/ datetime.r_month c = 4
                 \/ datetime.r_month c = 5 \/ datetime.r_month c = 6
                 \/ datetime.r_month c = 7 \/ datetime.r_month c = 8
                 \/ datetime.r_month c = 9 \/ datetime.r_month c = 10
                 \/ datetime.r_month c = 11 \/ datetime.r_month c = 12) by lia.
    destruct Hm as [Hm | [Hm | [Hm | [Hm | [Hm | [Hm | [Hm | [Hm | [Hm | [Hm | [Hm | Hm]]]]]]]]]]];
      rewrite Hm in *; simpl in *; destruct (datetime.is_leap (datetime.r_year c)); lia.
Qed.

(** Two days after the start of year 2 the cutoff exists: it is 48 hours
    earlier on Chicago's wall clock. *)
Lemma cutoff_exists (c : datetime.reading) :
  valid_reading c = true ->
  2 <= datetime.r_year c ->
  exists cutoff,
    datetime.add_timedelta (datetime.now c CENTRAL) (- datetime.hours 48)
    = Ok cutoff
    /\ datetime.wall_us cutoff
       = datetime.wall_us (datetime.now c CENTRAL) - datetime.hours 48
    /\ datetime.tz cutoff = Some CENTRAL.
Proof.
  intros Hv Hy.
  destruct (valid_reading_ord c Hv) as (Hh & Hmi & Hs & Hus & Hord & Hyr).
  destruct (datetime.add_timedelta (datetime.now c CENTRAL) (- datetime.hours 48))
    as [cutoff | e] eqn:Hadd.
  - exists cutoff. split; [reflexivity |].
    apply add_timedelta_wall in Hadd as [Hw Htz]. split; [lia | exact Htz].
  - exfalso. revert Hadd. unfold datetime.add_timedelta.
    set (total := datetime.wall_us (datetime.now c CENTRAL) + - datetime.hours 48).
    assert (Hrange : 1 <= total / 86400000000 <= 3652059).
    { subst total. unfold datetime.wall_us, datetime.hours. simpl.
      unfold datetime.days_before_year in Hord.
      assert (365 <= datetime.days_before_year (datetime.r_year c) <= 3651694).
      { unfold datetime.days_before_year. Z.div_mod_to_equations. lia. }
      unfold datetime.days_before_year in *.
      Z.div_mod_to_equations. lia. }
    destruct ((0 <? total / 86400000000) && (total / 86400000000 <=? 3652059)) eqn:E.
    + destruct (datetime.ord2ymd _) as [[? ?] ?]. discriminate.
    + apply andb_false_iff in E as [E | E];
        [apply Z.ltb_ge in E | apply Z.leb_gt in E]; lia.
Qed.

Lemma recent_by_elapsed (clock : datetime.reading) (cutoff ts : datetime.t)
    (rec : list string) :
  datetime.wall_us cutoff
    = datetime.wall_us (datetime.now clock CENTRAL) - datetime.hours 48 ->
  datetime.tz cutoff = Some CENTRAL ->
  log_record_ok rec = true ->
  datetime.fromisoformat (hd "" rec) = Ok ts ->
  (elapsed clock ts <= datetime.hours 47 -> recent cutoff rec = true)
  /\ (datetime.hours 49 < elapsed clock ts -> recent cutoff rec = false)
  /\ (datetime.chicago_utcoffset cutoff
      = datetime.chicago_utcoffset (datetime.now clock CENTRAL) ->
      (recent cutoff rec = true <-> elapsed clock ts <= datetime.hours 48))
  /\ (recent cutoff rec = true
      <-> elapsed clock ts
          <= datetime.hours 48
             + (datetime.chicago_utcoffset cutoff
                - datetime.chicago_utcoffset (datetime.now clock CENTRAL))).
Proof.
  intros Hw Hc Hrec Hts.
  destruct (log_record_ok_inv rec Hrec)
    as (a & b & c & d & ts' & o & -> & Hts' & Hz).
  simpl in Hts. rewrite Hts in Hts'. injection Hts' as <-.
  unfold recent. rewrite Hts, (ge_cutoff ts cutoff o Hz Hc).
  unfold elapsed, datetime.utcoffset. rewrite Hz. simpl default.
  rewrite Hw.
  destruct (chicago_utcoffset_cases cutoff) as [-> | ->];
    destruct (chicago_utcoffset_cases (datetime.now clock CENTRAL)) as [-> | ->];
    unfold datetime.hours; rewrite ?Z.leb_le, ?Z.leb_gt;
    repeat split; intros; try lia.
Qed.

(** C4, as the code has it.  On a log in the documented format (the
    canonical header, then rows of four fields whose timestamps are
    timezone-aware ISO strings), with no operating-system failure,
    [cleanup_log] leaves a file that holds the canonical header followed by
    exactly the rows whose timestamp is at least the cutoff
    [datetime.now(CENTRAL) - timedelta(hours=48)], in their order, each
    with its fields unchanged and written as the CSV writer writes rows
    (which is how [log_reading] wrote them); it reads back as those
    records.  The cutoff is 48 hours back on Chicago's wall clock: a row is
    kept exactly when the time elapsed since its timestamp is at most 48
    hours plus the difference of the UTC offsets at the cutoff and now.
    That is 48 hours when no change of daylight time falls in between and
    47 or 49 hours otherwise, so rows 72, 40 and 1 hours old always leave
    the last two. *)
Theorem cleanup_log_keeps_recent (env : faults) (fs : gmap string string)
    (clock : datetime.reading) (f : string) (recs : list (list string)) :
  no_faults env ->
  fs !! tmp_name env = None ->
  tmp_name env <> LOCK_FILE ->
  valid_reading clock = true ->
  2 <= datetime.r_year clock ->
  fs !! LOG_FILE = Some f ->
  csv.reader f = LOG_FIELDNAMES :: recs ->
  Forall (fun rec => log_record_ok rec = true) recs ->
  exists cutoff,
    datetime.add_timedelta (datetime.now clock CENTRAL) (- datetime.hours 48)
    = Ok cutoff
    /\ let kept := filter (fun rec => recent cutoff rec) recs in
       cleanup_log env fs clock
       = (<[LOG_FILE := csv.writerows (LOG_FIELDNAMES :: kept)]>
            (<[LOCK_FILE := ""]> fs),
          Ok (Some (length kept, (length recs - length kept)%nat)))
       /\ csv.reader (csv.writerows (LOG_FIELDNAMES :: kept))
          = LOG_FIELDNAMES :: kept
       /\ (forall rec ts,
             rec ∈ recs ->
             datetime.fromisoformat (hd "" rec) = Ok ts ->
             (elapsed clock ts <= datetime.hours 47 ->
              recent cutoff rec = true)
             /\ (datetime.hours 49 < elapsed clock ts ->
                 recent cutoff rec = false)
             /\ (datetime.chicago_utcoffset cutoff
                 = datetime.chicago_utcoffset (datetime.now clock CENTRAL) ->
                 (recent cutoff rec = true
                  <-> elapsed clock ts <= datetime.hours 48))
             /\ (recent cutoff rec = true
                 <-> elapsed clock ts
                     <= datetime.hours 48
                        + (datetime.chicago_utcoffset cutoff
                           - datetime.chicago_utcoffset
                               (datetime.now clock CENTRAL)))).
Proof.
  intros (Hlock & Hflock & Hopen & Hmk & Hclose & Hrep) Hfresh Htmp Hv Hy
    Hf Hread Hok.
  destruct (cutoff_exists clock Hv Hy) as (cutoff & Hadd & Hw & Hc).
  exists cutoff. split; [exact Hadd |]. cbv zeta.
  split; [| split].
  - unfold cleanup_log.
    assert (Hex : os.path_exists fs LOG_FILE = true).
    { unfold os.path_exists. apply bool_decide_eq_true. eauto. }
    rewrite Hex, Hadd, Hlock, Hflock. cbv iota beta. unfold negb.
    cbv iota.
    assert (Htry :
      cleanup_try env cutoff (<[LOCK_FILE:=""]> fs)
      = (<[LOG_FILE := csv.writerows
             (LOG_FIELDNAMES :: filter (fun rec => recent cutoff rec) recs)]>
           (<[LOCK_FILE := ""]> fs), None,
         Ok (length (filter (fun rec => recent cutoff rec) recs),
             (length recs
              - length (filter (fun rec => recent cutoff rec) recs))%nat))).
    { unfold cleanup_try. rewrite Hopen, Hmk.
      rewrite lookup_insert_ne by exact LOCK_FILE_neq_LOG_FILE. rewrite Hf.
      assert (Hnew : os.path_exists (<[LOCK_FILE:=""]> fs) (tmp_name env) = false).
      { apply path_exists_false. rewrite lookup_insert_ne by congruence.
        exact Hfresh. }
      rewrite Hnew. cbv iota beta. simpl orb. cbv iota.
      unfold csv.DictReader_fieldnames, csv.DictReader. rewrite Hread.
      simpl head. simpl csv.writeheader. simpl default.
      rewrite (nonblank_records recs Hok).
      rewrite (copy_recent_records cutoff recs _ 0 0 Hc Hok).
      rewrite insert_insert_eq, Hclose, Hrep.
      unfold os.replace. rewrite lookup_insert_eq.
      rewrite delete_insert_id
        by (rewrite lookup_insert_ne by congruence; exact Hfresh).
      reflexivity. }
    rewrite Htry. reflexivity.
  - apply reader_writerows.
  - intros rec ts Hin Hts. rewrite Forall_forall in Hok.
    apply (recent_by_elapsed clock cutoff ts rec Hw Hc (Hok rec Hin) Hts).
Qed.


(** On rows 72, 40 and 1 hours old, the compaction keeps the last two. *)
Example cleanup_log_72_40_1 :
  cleanup_log env_ok log_72_40_1 at_0930
  = (<[LOCK_FILE := ""]> log_40_1, Ok (Some (2%nat, 1%nat))).
Proof. vm_compute. reflexivity. Qed.

Lemma cleanup_log_keeps_recent_witness :
  exists cutoff,
    datetime.add_timedelta (datetime.now at_0930 CENTRAL) (- datetime.hours 48)
    = Ok cutoff
    /\ cleanup_log env_ok log_72_40_1 at_0930
       = (<[LOG_FILE := csv.writerows
              (LOG_FIELDNAMES
               :: filter (fun rec => recent cutoff rec) rows_72_40_1)]>
            (<[LOCK_FILE := ""]> log_72_40_1),
          Ok (Some
                (length (filter (fun rec => recent cutoff rec) rows_72_40_1),
                 (length rows_72_40_1
                  - length (filter (fun rec => recent cutoff rec)
                              rows_72_40_1))%nat))).
Proof.
  destruct (cleanup_log_keeps_recent env_ok log_72_40_1 at_0930
              (csv.writerows (LOG_FIELDNAMES :: rows_72_40_1)) rows_72_40_1)
    as (cutoff & Hadd & Hrun & _).
  - repeat split.
  - reflexivity.
  - discriminate.
  - reflexivity.
  - vm_compute. discriminate.
  - reflexivity.
  - apply reader_writerows.
  - repeat constructor.
  - exists cutoff. split; [exact Hadd | exact Hrun].
Defined.

(** C4 as stated fails on the bound, on the bytes and outside the
    documented format.  The day after daylight time has ended, a row 48
    hours and a half old is kept (the cutoff, 48 hours back on the wall
    clock, is 49 hours away); the day after it has begun, a row 47 hours
    and a half old is removed.  A kept row is written anew from its
    fields: a timestamp between quotes comes back without them.  And with
    a well-formed timestamp that has no UTC offset, with a fifth field in
    a recent row, or without the header, [cleanup_log] raises and writes
    no file. *)
Lemma cleanup_log_wall_clock_cutoff :
  (exists ts,
      datetime.fromisoformat "2026-10-31T02:00:00-05:00" = Ok ts
      /\ elapsed at_nov2_0130 ts = datetime.hours 48 + datetime.hours 1 / 2
      /\ cleanup_log env_ok log_oct31 at_nov2_0130
         = (<[LOCK_FILE := ""]> log_oct31, Ok (Some (1%nat, 0%nat))))
  /\ (exists ts,
        datetime.fromisoformat "2026-03-07T02:00:00-06:00" = Ok ts
        /\ elapsed at_mar9_0230 ts = datetime.hours 47 + datetime.hours 1 / 2
        /\ cleanup_log env_ok log_mar7 at_mar9_0230
           = (<[LOCK_FILE := ""]> (log_of []), Ok (Some (0%nat, 1%nat))))
  /\ (log_quoted !! LOG_FILE = Some (header_line +:+ quoted_row)
      /\ cleanup_log env_ok log_quoted at_0930
         = (<[LOCK_FILE := ""]>
              (<[LOG_FILE := header_line +:+ unquoted_row]> no_files),
            Ok (Some (1%nat, 0%nat)))
      /\ quoted_row <> unquoted_row)
  /\ cleanup_log env_ok log_naive at_0930
     = (<[LOCK_FILE := ""]> log_naive, Raise TypeError)
  /\ cleanup_log env_ok log_surplus at_0930
     = (<[LOCK_FILE := ""]> log_surplus, Raise ValueError)
  /\ cleanup_log env_ok legacy_log_2 at_0930
     = (<[LOCK_FILE := ""]> legacy_log_2, Raise KeyError).
Proof.
  split; [| split; [| split]].
  - eexists. split; [vm_compute; reflexivity |].
    split; vm_compute; reflexivity.
  - eexists. split; [vm_compute; reflexivity |].
    split; vm_compute; reflexivity.
  - split; [reflexivity |]. split; [vm_compute; reflexivity | discriminate].
  - repeat split; vm_compute; reflexivity.
Qed.

Lemma cleanup_log_failure_witness :
  (cleanup_log env_replace_fails log_alert_0900 at_0930
   = (<[LOCK_FILE := ""]> log_alert_0900, Raise OSError))
  /\ (<[LOCK_FILE := ""]> log_alert_0900) !! LOG_FILE
     = log_alert_0900 !! LOG_FILE
  /\ (<[LOCK_FILE := ""]> log_alert_0900) !! tmp_name env_replace_fails
     = log_alert_0900 !! tmp_name env_replace_fails.
Proof.
  assert (Hrun : cleanup_log env_replace_fails log_alert_0900 at_0930
                 = (<[LOCK_FILE := ""]> log_alert_0900, Raise OSError))
    by (vm_compute; reflexivity).
  destruct (cleanup_log_failure _ _ _ _ _ Hrun) as (_ & Hsafe & _ & _).
  destruct (Hsafe ltac:(eexists; reflexivity)) as [Hlog Hrest].
  split; [exact Hrun |]. split; [exact Hlog |].
  apply Hrest. discriminate.
Defined.

(** ** What [log_reading] writes *)

Lemma digit_char_spec (n : Z) :
  str.isdigit (str.digit_char n) = true
  /\ str.digit_val (str.digit_char n) = n mod 10
  /\ Ascii.eqb (str.digit_char n) "+" = false
  /\ Ascii.eqb (str.digit_char n) "-" = false
  /\ Ascii.eqb (str.digit_char n) "." = false.
Proof.
  unfold str.digit_char.
  assert (H : 0 <= n mod 10 < 10) by (apply Z.mod_pos_bound; lia).
  assert (Hc : n mod 10 = 0 \/ n mod 10 = 1 \/ n mod 10 = 2 \/ n mod 10 = 3
               \/ n mod 10 = 4 \/ n mod 10 = 5 \/ n mod 10 = 6
               \/ n mod 10 = 7 \/ n mod 10 = 8 \/ n mod 10 = 9) by lia.
  destruct Hc as [-> | [-> | [-> | [-> | [-> | [-> | [-> | [-> | [-> | ->]]]]]]]]];
    repeat split.
Qed.

Lemma length_app_str (a b : string) :
  String.length (a +:+ b) = (String.length a + String.length b)%nat.
Proof.
  induction a as [| c a IH]; [reflexivity |].
  rewrite app_cons_str. simpl. rewrite IH. reflexivity.
Qed.

Lemma length_zpad (w : nat) (n : Z) : String.length (str.zpad w n) = w.
Proof.
  revert n. induction w as [| w IH]; intros n; [reflexivity |].
  cbn [str.zpad]. rewrite length_app_str, IH. simpl. lia.
Qed.

Lemma take_app_str (a rest : string) :
  str.take (String.length a) (a +:+ rest) = a.
Proof.
  induction a as [| c a IH]; [destruct rest; reflexivity |].
  rewrite app_cons_str. simpl. rewrite IH. reflexivity.
Qed.

Lemma drop_app_str (a rest : string) :
  str.drop (String.length a) (a +:+ rest) = rest.
Proof.
  induction a as [| c a IH]; [reflexivity |].
  rewrite app_cons_str. simpl. exact IH.
Qed.

Lemma digits_acc_app (a b : string) (acc : Z) :
  str.digits_acc acc (a +:+ b)
  = (v ← str.digits_acc acc a; str.digits_acc v b).
Proof.
  revert acc. induction a as [| c a IH]; intros acc; [reflexivity |].
  rewrite app_cons_str. simpl. destruct (str.isdigit c); [apply IH | reflexivity].
Qed.

Lemma digits_acc_zpad (w : nat) (n : Z) :
  0 <= n < 10 ^ Z.of_nat w ->
  str.digits_acc 0 (str.zpad w n) = Some n.
Proof.
  revert n. induction w as [| w IH]; intros n Hn.
  - simpl in *. f_equal. lia.
  - cbn [str.zpad]. rewrite digits_acc_app.
    rewrite Nat2Z.inj_succ, Z.pow_succ_r in Hn by lia.
    rewrite IH by (Z.div_mod_to_equations; lia).
    simpl. destruct (digit_char_spec n) as (-> & -> & _).
    f_equal. Z.div_mod_to_equations. lia.
Qed.

Lemma fixed_zpad (w : nat) (n : Z) (rest : string) :
  (0 < w)%nat ->
  0 <= n < 10 ^ Z.of_nat w ->
  datetime.fixed w (str.zpad w n +:+ rest) = Some (n, rest).
Proof.
  intros Hw Hn. unfold datetime.fixed.
  pose proof (take_app_str (str.zpad w n) rest) as Ht.
  pose proof (drop_app_str (str.zpad w n) rest) as Hd.
  rewrite length_zpad in Ht, Hd. rewrite Ht, Hd, length_zpad, Nat.eqb_refl.
  unfold str.digits.
  destruct (str.zpad w n) eqn:E.
  - pose proof (length_zpad w n) as Hl. rewrite E in Hl. simpl in Hl. lia.
  - rewrite <- E, digits_acc_zpad by exact Hn. reflexivity.
Qed.

Lemma app_one_str (c : ascii) (s : string) : String c "" +:+ s = String c s.
Proof. reflexivity. Qed.

Lemma no_sign_app (a b : string) :
  no_sign (a +:+ b) = no_sign a && no_sign b.
Proof.
  induction a as [| c a IH]; [reflexivity |].
  rewrite app_cons_str. simpl. rewrite IH, !andb_assoc. reflexivity.
Qed.

Lemma no_sign_zpad (w : nat) (n : Z) : no_sign (str.zpad w n) = true.
Proof.
  revert n. induction w as [| w IH]; intros n; [reflexivity |].
  cbn [str.zpad]. rewrite no_sign_app, IH. simpl.
  destruct (digit_char_spec n) as (_ & _ & -> & -> & _). reflexivity.
Qed.

Lemma split_tz_app (time z : string) :
  no_sign time = true ->
  datetime.split_tz (time +:+ String "-" z) = (time, Some (true, z)).
Proof.
  induction time as [| c time IH]; intros H; [reflexivity |].
  rewrite app_cons_str. simpl in *.
  apply andb_prop in H as [H Hrest]. apply andb_prop in H as [Hp Hm].
  apply negb_true_iff in Hp, Hm. rewrite Hp, Hm, (IH Hrest). reflexivity.
Qed.

#[local] Arguments str.zpad : simpl never.

Lemma no_sign_format_time (hh mm ss us : Z) :
  no_sign (datetime.format_time hh mm ss us) = true.
Proof.
  unfold datetime.format_time.
  destruct (us =? 0); rewrite !no_sign_app, !no_sign_zpad; reflexivity.
Qed.

Lemma parse_format_time (hh mm ss us : Z) :
  0 <= hh <= 23 -> 0 <= mm <= 59 -> 0 <= ss <= 59 -> 0 <= us <= 999999 ->
  datetime.parse_hh_mm_ss_ff (datetime.format_time hh mm ss us)
  = Some (hh, mm, ss, us).
Proof.
  intros Hh Hm Hs Hus. unfold datetime.format_time, datetime.parse_hh_mm_ss_ff.
  rewrite ?app_assoc_str, ?app_one_str.
  rewrite fixed_zpad by (simpl; lia). simpl.
  rewrite fixed_zpad by (simpl; lia). simpl.
  destruct (Z.eqb_spec us 0) as [-> | Hne].
  { rewrite fixed_zpad by (simpl; lia). reflexivity. }
  pose proof (length_zpad 6 us) as Hl.
  assert (Hd : str.digits (str.zpad 6 us) = Some us).
  { unfold str.digits. destruct (str.zpad 6 us) eqn:E; [discriminate |].
    rewrite <- E. apply digits_acc_zpad. simpl. lia. }
  revert Hl Hd. generalize (str.zpad 6 us). intros u Hl Hd.
  rewrite fixed_zpad by (simpl; lia). simpl.
  rewrite Hl, Hd. reflexivity.
Qed.

(** What [isoformat] writes for a clock reading, [fromisoformat] reads
    back: the same fields, with the offset fixed. *)
Lemma fromisoformat_isoformat (clock : datetime.reading) :
  valid_reading clock = true ->
  datetime.fromisoformat (datetime.isoformat (datetime.now clock CENTRAL))
  = Ok (datetime.mk (datetime.r_year clock) (datetime.r_month clock)
          (datetime.r_day clock) (datetime.r_hour clock)
          (datetime.r_minute clock) (datetime.r_second clock)
          (datetime.r_microsecond clock)
          (Some (datetime.timezone
                   (datetime.chicago_utcoffset (datetime.now clock CENTRAL))))
          false).
Proof.
  intros Hv.
  assert (Hfields := Hv). unfold valid_reading in Hfields.
  destruct (valid_reading_ord clock Hv) as (Hh & Hmi & Hs & Hus & _ & Hy).
  assert (Hmd : 1 <= datetime.r_month clock <= 12 /\ 1 <= datetime.r_day clock <= 31).
  { unfold datetime.valid_fields, datetime.days_in_month in Hfields.
    repeat (apply andb_prop in Hfields as [Hfields ?]).
    repeat match goal with
           | H : (_ <=? _) = true |- _ => apply Z.leb_le in H
           end.
    repeat match goal with
           | H : context [if ?b then _ else _] |- _ => destruct b
           end; lia. }
  assert (Hoff :
    exists z o, datetime.format_offset
                  (Some (datetime.chicago_utcoffset (datetime.now clock CENTRAL)))
                = String "-" z
                /\ datetime.parse_tz (Some (true, z)) = Some (Some (datetime.timezone o))
                /\ o = datetime.chicago_utcoffset (datetime.now clock CENTRAL)).
  { destruct (chicago_utcoffset_cases (datetime.now clock CENTRAL)) as [-> | ->];
      eexists; eexists; repeat split. }
  destruct Hoff as (z & o & Hfmt & Hz & ->).
  unfold datetime.isoformat.
  change (datetime.utcoffset (datetime.now clock CENTRAL))
    with (Some (datetime.chicago_utcoffset (datetime.now clock CENTRAL))).
  rewrite Hfmt.
  simpl datetime.year. simpl datetime.month. simpl datetime.day.
  simpl datetime.hour. simpl datetime.minute. simpl datetime.second.
  simpl datetime.microsecond.
  pose proof (no_sign_format_time (datetime.r_hour clock)
                (datetime.r_minute clock) (datetime.r_second clock)
                (datetime.r_microsecond clock)) as Hns.
  pose proof (parse_format_time _ _ _ _ Hh Hmi Hs Hus) as Hpt.
  revert Hns Hpt.
  generalize (datetime.format_time (datetime.r_hour clock)
                (datetime.r_minute clock) (datetime.r_second clock)
                (datetime.r_microsecond clock)).
  intros time Hns Hpt.
  unfold datetime.fromisoformat, datetime.parse_isoformat.
  rewrite ?app_assoc_str, ?app_one_str.
  rewrite fixed_zpad by (simpl; lia). simpl.
  rewrite fixed_zpad by (simpl; lia). simpl.
  rewrite fixed_zpad by (simpl; lia).
  cbn [mbind option_bind].
  rewrite (split_tz_app time z Hns), Hpt.
  cbn [mbind option_bind]. rewrite Hz. cbn [mbind option_bind].
  rewrite Hfields. reflexivity.
Qed.

Lemma all_digits_of_uint (u : Decimal.uint) :
  all_digits (NilEmpty.string_of_uint u) = true.
Proof. induction u; simpl; auto. Qed.

Lemma of_N_digits (n : N) :
  all_digits (str.of_N n) = true /\ nonempty (str.of_N n) = true.
Proof.
  unfold str.of_N. split; [apply all_digits_of_uint |].
  destruct n as [| p]; [reflexivity |].
  simpl. pose proof (DecimalPos.Unsigned.to_uint_nonnil p) as Hnil.
  destruct (Pos.to_uint p); simpl; congruence.
Qed.

Lemma isdigit_not_punct (c : ascii) :
  str.isdigit c = true ->
  Ascii.eqb c "." = false /\ Ascii.eqb c "-" = false.
Proof.
  destruct c as [[] [] [] [] [] [] [] []]; vm_compute; intros; try discriminate;
    split; reflexivity.
Qed.

Lemma split_at_dot_app (whole frac : string) :
  all_digits whole = true ->
  split_at_dot (whole +:+ String "." frac) = Some (whole, frac).
Proof.
  induction whole as [| c whole IH]; intros H; [reflexivity |].
  rewrite app_cons_str. simpl in *.
  apply andb_prop in H as [Hc Hrest].
  destruct (isdigit_not_punct c Hc) as [-> _].
  rewrite (IH Hrest). reflexivity.
Qed.

Lemma one_decimal_format_1f (x : Q) : one_decimal (format_1f x) = true.
Proof.
  unfold format_1f.
  match goal with
  | |- context [str.of_N ?k] =>
      destruct (of_N_digits k) as [Hd Hne]; generalize dependent (str.of_N k)
  end.
  intros whole Hd Hne.
  match goal with
  | |- context [String (str.digit_char ?n) ""] =>
      destruct (digit_char_spec n) as (Hlast & _); generalize dependent (str.digit_char n)
  end.
  intros last Hlast.
  assert (Hbody : one_decimal (whole +:+ "." +:+ String last "") = true).
  { unfold one_decimal.
    destruct whole as [| c whole]; [discriminate |].
    rewrite app_cons_str.
    simpl in Hd. apply andb_prop in Hd as [Hc Hd].
    destruct (isdigit_not_punct c Hc) as [Hdot Hminus]. rewrite Hminus.
    rewrite <- app_cons_str, app_one_str.
    rewrite split_at_dot_app by (simpl; rewrite Hc, Hd; reflexivity).
    simpl. rewrite Hc, Hd, Hlast. reflexivity. }
  destruct (Qnum x <? 0); [| exact Hbody].
  unfold one_decimal. rewrite app_one_str. simpl Ascii.eqb. cbv iota.
  rewrite app_one_str, split_at_dot_app by exact Hd.
  rewrite Hne, Hd. simpl. rewrite Hlast. reflexivity.
Qed.

Lemma writerows_app (a b : list (list string)) :
  csv.writerows (a ++ b) = csv.writerows a +:+ csv.writerows b.
Proof.
  induction a as [| r a IH]; [reflexivity |].
  cbn [app csv.writerows foldr]. fold (csv.writerows (a ++ b)).
  fold (csv.writerows a). rewrite IH, app_assoc_str. reflexivity.
Qed.

Lemma writerows_one (r : list string) : csv.writerows [r] = csv.writerow r.
Proof. cbn [csv.writerows foldr]. apply app_nil_r_str. Qed.

Lemma header_line_written : csv.writerow LOG_FIELDNAMES = header_line.
Proof. reflexivity. Qed.

Lemma log_reading_row (fs : gmap string string) (clock : datetime.reading)
    (level : Q) (sent : bool) (msg_type : string) :
  log_reading fs clock level sent msg_type
  = Ok (<[LOG_FILE := default "" (fs !! LOG_FILE)
            +:+ (if os.path_exists fs LOG_FILE then "" else header_line)
            +:+ csv.writerow (row_of clock level sent msg_type)]> fs).
Proof.
  unfold log_reading.
  change (reading_row (datetime.now clock CENTRAL) level sent msg_type)
    with (csv.to_dict LOG_FIELDNAMES (row_of clock level sent msg_type)).
  unfold row_of. rewrite (writerow_record _ _ _ _ _ eq_refl).
  destruct (os.path_exists fs LOG_FILE); reflexivity.
Qed.

(** The first row written to a log, and each row written after it. *)
Lemma log_reading_first (fs : gmap string string) (clock : datetime.reading)
    (level : Q) (sent : bool) (msg_type : string) :
  log_reading fs clock level sent msg_type
  = Ok (log_after fs [row_of clock level sent msg_type]).
Proof. rewrite log_reading_row. unfold log_after. rewrite writerows_one. reflexivity. Qed.

Lemma log_reading_next (fs : gmap string string) (recs : list (list string))
    (clock : datetime.reading) (level : Q) (sent : bool) (msg_type : string) :
  log_reading (log_after fs recs) clock level sent msg_type
  = Ok (log_after fs (recs ++ [row_of clock level sent msg_type])).
Proof.
  rewrite log_reading_row. unfold log_after.
  rewrite lookup_insert_eq, path_exists_insert, insert_insert_eq.
  simpl default. rewrite writerows_app, writerows_one.
  change ("" +:+ csv.writerow (row_of clock level sent msg_type))
    with (csv.writerow (row_of clock level sent msg_type)).
  rewrite !app_assoc_str. reflexivity.
Qed.

Lemma conforms_row_of (clock : datetime.reading) (level : Q) (sent : bool)
    (kind : string) :
  valid_reading clock = true ->
  kind ∈ ["container"; "litter"; "morning"] ->
  conforms (row_of clock level sent kind) = true.
Proof.
  intros Hv Hk. unfold conforms, row_of, iso_with_offset.
  rewrite (fromisoformat_isoformat clock Hv). simpl datetime.tz.
  rewrite one_decimal_format_1f.
  rewrite (bool_decide_eq_true_2 (is_Some _)) by eauto.
  rewrite (bool_decide_eq_true_2 _ Hk).
  destruct sent; reflexivity.
Qed.

(** C6, as the code has it.  Whatever one pass of [main]'s loop does,
    and wherever an exception ends it, the log is either untouched or has
    grown by rows of the documented form: when the file was not there the
    header line [timestamp,type,level,sent] comes first; each row has four
    fields, an ISO-8601 timestamp with a UTC offset, a kind among
    [container], [litter] and [morning], a level with one decimal, and
    [True] or [False]; and the CSV reader reads the header and the rows
    back as written. *)
Theorem rows_written_conform (cfg : config) (ck : readings)
    (robot_name digest : string) (traylevel litterlevel : Q)
    (fs : gmap string string) :
  valid_reading (at_container_log ck) = true ->
  valid_reading (at_litter_log ck) = true ->
  valid_reading (at_morning_log ck) = true ->
  exists recs,
    ((robot_cycle cfg ck robot_name digest traylevel litterlevel fs).1 = fs
       /\ recs = []
     \/ (robot_cycle cfg ck robot_name digest traylevel litterlevel fs).1
        = log_after fs recs /\ recs <> [])
    /\ Forall (fun rec => conforms rec = true) recs
    /\ header_line = "timestamp,type,level,sent" +:+ csv.lineterminator
    /\ csv.reader (header_line +:+ csv.writerows recs)
       = ["timestamp"; "type"; "level"; "sent"] :: recs.
Proof.
  intros Hv1 Hv2 Hv3.
  assert (Hread : forall recs,
            csv.reader (header_line +:+ csv.writerows recs)
            = ["timestamp"; "type"; "level"; "sent"] :: recs).
  { intros recs. rewrite <- header_line_written.
    apply (reader_writerows (LOG_FIELDNAMES :: recs)). }
  assert (Hk1 : "container" ∈ ["container"; "litter"; "morning"])
    by repeat constructor.
  assert (Hk2 : "litter" ∈ ["container"; "litter"; "morning"])
    by repeat constructor.
  assert (Hk3 : "morning" ∈ ["container"; "litter"; "morning"])
    by repeat constructor.
  assert (Hdone : forall fs' recs,
            (fs' = fs /\ recs = [] \/ fs' = log_after fs recs /\ recs <> []) ->
            Forall (fun rec => conforms rec = true) recs ->
            exists recs,
              (fs' = fs /\ recs = [] \/ fs' = log_after fs recs /\ recs <> [])
              /\ Forall (fun rec => conforms rec = true) recs
              /\ header_line = "timestamp,type,level,sent" +:+ csv.lineterminator
              /\ csv.reader (header_line +:+ csv.writerows recs)
                 = ["timestamp"; "type"; "level"; "sent"] :: recs).
  { intros fs' recs Hfs Hall. exists recs. repeat split; auto. }
  unfold robot_cycle.
  destruct (if nonempty (container_level traylevel) then _ else _)
    as [send_c | e].
  2:{ apply (Hdone _ []); [left; split; reflexivity | constructor]. }
  rewrite log_reading_first.
  set (r1 := row_of (at_container_log ck) traylevel send_c "container").
  assert (Hc1 : conforms r1 = true) by (apply conforms_row_of; assumption).
  destruct (if nonempty (litter_level_message litterlevel) then _ else _)
    as [send_l | e].
  2:{ apply (Hdone _ [r1]);
        [right; split; [reflexivity | discriminate] | repeat constructor; assumption]. }
  rewrite log_reading_next.
  set (r2 := row_of (at_litter_log ck) (float.mul litterlevel 100) send_l "litter").
  assert (Hc2 : conforms r2 = true) by (apply conforms_row_of; assumption).
  destruct (should_send_morning cfg _ _) as [[|] | e].
  - rewrite log_reading_next.
    set (r3 := row_of (at_morning_log ck) traylevel true "morning").
    assert (Hc3 : conforms r3 = true) by (apply conforms_row_of; assumption).
    apply (Hdone _ [r1; r2; r3]);
      [right; split; [reflexivity | discriminate] | repeat constructor; assumption].
  - apply (Hdone _ [r1; r2]);
      [right; split; [reflexivity | discriminate] | repeat constructor; assumption].
  - apply (Hdone _ [r1; r2]);
      [right; split; [reflexivity | discriminate] | repeat constructor; assumption].
Qed.

Lemma rows_written_conform_witness :
  exists recs,
    ((robot_cycle cfg_normal readings_0830 "Robot" "Good morning!" 95 0.125
        no_files).1 = no_files /\ recs = []
     \/ (robot_cycle cfg_normal readings_0830 "Robot" "Good morning!" 95 0.125
           no_files).1 = log_after no_files recs /\ recs <> [])
    /\ Forall (fun rec => conforms rec = true) recs
    /\ header_line = "timestamp,type,level,sent" +:+ csv.lineterminator
    /\ csv.reader (header_line +:+ csv.writerows recs)
       = ["timestamp"; "type"; "level"; "sent"] :: recs.
Proof.
  exact (rows_written_conform cfg_normal readings_0830 "Robot" "Good morning!"
           95 0.125 no_files eq_refl eq_refl eq_refl).
Defined.

(** One pass at 08:30 over a full tray and a nearly empty pan, with no
    log yet: both alerts and the digest are sent and three rows logged. *)
Example robot_cycle_0830 :
  robot_cycle cfg_normal readings_0830 "Robot" "Good morning!" 95 0.125 no_files
  = (log_of [["2026-11-03T08:30:00-06:00"; "container"; "95.0"; "True"];
             ["2026-11-03T08:30:00-06:00"; "litter"; "12.5"; "True"];
             ["2026-11-03T08:30:00-06:00"; "morning"; "95.0"; "True"]],
     (["Litter Robot update for Robot:" +:+ String str.LF ""
       +:+ container_level 95 +:+ String str.LF ""
       +:+ litter_level_message 0.125;
       "Good morning!"], Ok tt)).
Proof. vm_compute. reflexivity. Qed.

(** C6 as stated fails on the name of the second column: the header
    [log_reading] writes names it [type], not [kind]. *)
Lemma header_names_type_not_kind :
  (fs ← log_reading no_files at_0930 95 true "container";
   Ok (csv.DictReader_fieldnames <$> fs !! LOG_FILE))
  = Ok (Some (Some ["timestamp"; "type"; "level"; "sent"]))
  /\ str.join "," LOG_FIELDNAMES <> "timestamp,kind,level,sent".
Proof. split; [vm_compute; reflexivity | discriminate]. Qed.

(** * Further properties of the code *)

(** ** Row dictionaries *)

Lemma zip_insert_lookup (ks vs : list string) (d : gmap string (option string))
    (k : string) :
  is_Some (csv.zip_insert ks vs d !! k)
  <-> is_Some (d !! k) \/ k ∈ take (length vs) ks.
Proof.
  revert vs d. induction ks as [| k' ks IH]; intros [| v vs] d; simpl;
    rewrite ?elem_of_nil; try tauto.
  rewrite IH, lookup_insert_is_Some, elem_of_cons.
  destruct (decide (k' = k)); intuition (subst; auto).
Qed.

Lemma fill_missing_lookup (ks : list string) (d : gmap string (option string))
    (k : string) :
  is_Some (csv.fill_missing ks d !! k) <-> is_Some (d !! k) \/ k ∈ ks.
Proof.
  unfold csv.fill_missing. revert d.
  induction ks as [| k' ks IH]; intros d; simpl;
    rewrite ?elem_of_nil; try tauto.
  rewrite IH, lookup_insert_is_Some, elem_of_cons.
  destruct (decide (k' = k)); intuition (subst; auto).
Qed.

(** The keys of a row dictionary are the field names. *)
Lemma to_dict_keys (fieldnames r : list string) (k : string) :
  is_Some (csv.named (csv.to_dict fieldnames r) !! k) <-> k ∈ fieldnames.
Proof.
  unfold csv.to_dict. destruct (_ <? _)%nat eqn:E; simpl csv.named.
  - apply Nat.ltb_lt in E.
    rewrite zip_insert_lookup, lookup_empty, take_ge by lia.
    split; [intros [[? [=]] | ?]; assumption | auto].
  - apply Nat.ltb_ge in E.
    rewrite fill_missing_lookup, zip_insert_lookup, lookup_empty.
    rewrite <- (take_drop (length r) fieldnames) at 3.
    rewrite elem_of_app.
    split; [intros [[[? [=]] | ?] | ?]; auto | intros [? | ?]; auto].
Qed.

Lemma DictReader_records (f : string) (fieldnames : list string)
    (recs : list (list string)) :
  csv.reader f = fieldnames :: recs ->
  csv.DictReader f = csv.to_dict fieldnames <$> filter (fun r => csv.nonblank r) recs.
Proof. unfold csv.DictReader. intros ->. reflexivity. Qed.

Lemma fieldnames_records (f : string) (fieldnames : list string) :
  csv.DictReader_fieldnames f = Some fieldnames ->
  exists recs, csv.reader f = fieldnames :: recs.
Proof.
  unfold csv.DictReader_fieldnames. destruct (csv.reader f) as [| fn recs];
    [discriminate |]. intros [= ->]. eauto.
Qed.

Lemma sent_column_fieldnames (fs : gmap string string) :
  (forall f, fs !! LOG_FILE = Some f ->
     exists fieldnames, csv.DictReader_fieldnames f = Some fieldnames
                        /\ "sent" ∈ fieldnames) ->
  sent_column fs.
Proof.
  intros H. unfold sent_column, entries.
  destruct (fs !! LOG_FILE) as [f |]; [| constructor].
  destruct (H f eq_refl) as (fn & Hfn & Hin).
  destruct (fieldnames_records _ _ Hfn) as [recs Hrecs].
  rewrite (DictReader_records _ _ _ Hrecs). apply Forall_fmap, Forall_forall.
  intros r _. simpl. apply to_dict_keys, Hin.
Qed.

Lemma headed_sent_column (fs : gmap string string) :
  headed_log fs -> sent_column fs.
Proof.
  intros H. apply sent_column_fieldnames. intros f Hf.
  exists LOG_FIELDNAMES. split; [apply (H f Hf) |].
  unfold LOG_FIELDNAMES. set_solver.
Qed.

(** ** Appending to the log *)

Lemma reader_writerow (r : list string) : csv.reader (csv.writerow r) = [r].
Proof. rewrite <- writerows_one. apply reader_writerows. Qed.

Lemma record_boundary_writerow (f : string) (r : list string) :
  record_boundary f -> record_boundary (f +:+ csv.writerow r).
Proof.
  intros Hb rest. rewrite app_assoc_str, !Hb, reader_writerow.
  unfold csv.reader at 2. rewrite parse_writerow, <- app_assoc. reflexivity.
Qed.

Lemma record_boundary_writerows (rows : list (list string)) :
  record_boundary (csv.writerows rows).
Proof.
  intros rest. rewrite reader_writerows.
  induction rows as [| r rows IH]; [reflexivity |].
  cbn [csv.writerows foldr]. fold (csv.writerows rows).
  rewrite app_assoc_str. unfold csv.reader in *. rewrite parse_writerow, IH.
  reflexivity.
Qed.

Lemma reader_writerows_app (recs : list (list string)) (rest : string) :
  csv.reader (csv.writerows recs +:+ rest) = recs ++ csv.reader rest.
Proof.
  rewrite (record_boundary_writerows recs rest), reader_writerows.
  reflexivity.
Qed.

Lemma to_dict_row_of (clock : datetime.reading) (level : Q) (sent : bool)
    (msg_type : string) :
  csv.to_dict LOG_FIELDNAMES (row_of clock level sent msg_type)
  = reading_row (datetime.now clock CENTRAL) level sent msg_type.
Proof. reflexivity. Qed.

(** The log after rows were appended to it. *)
Lemma log_after_entries (fs : gmap string string) (recs : list (list string)) :
  headed_log fs ->
  headed_log (log_after fs recs)
  /\ entries (log_after fs recs)
     = entries fs
       ++ (csv.to_dict LOG_FIELDNAMES <$> filter (fun r => csv.nonblank r) recs).
Proof.
  intros Hh. unfold headed_log, entries, log_after. rewrite lookup_insert_eq.
  destruct (fs !! LOG_FILE) as [f |] eqn:Hf.
  - destruct (Hh f Hf) as [Hfn Hb].
    destruct (fieldnames_records _ _ Hfn) as [old Hold].
    assert (Hex : os.path_exists fs LOG_FILE = true).
    { apply bool_decide_eq_true. eauto. }
    rewrite Hex. simpl default.
    change ("" +:+ csv.writerows recs) with (csv.writerows recs).
    assert (Hread : csv.reader (f +:+ csv.writerows recs)
                    = LOG_FIELDNAMES :: (old ++ recs)).
    { rewrite Hb, reader_writerows, Hold. reflexivity. }
    split.
    + intros f' [= <-]. split.
      * unfold csv.DictReader_fieldnames. rewrite Hread. reflexivity.
      * intros rest. rewrite app_assoc_str, !Hb, reader_writerows_app,
          reader_writerows, <- app_assoc. reflexivity.
    + rewrite (DictReader_records _ _ _ Hread), (DictReader_records _ _ _ Hold).
      rewrite filter_app, fmap_app. reflexivity.
  - assert (Hex : os.path_exists fs LOG_FILE = false).
    { apply path_exists_false, Hf. }
    rewrite Hex. simpl default.
    assert (Htext : "" +:+ header_line +:+ csv.writerows recs
                    = csv.writerows (LOG_FIELDNAMES :: recs)) by reflexivity.
    rewrite Htext. clear Htext.
    pose proof (reader_writerows (LOG_FIELDNAMES :: recs)) as Hread.
    pose proof (record_boundary_writerows (LOG_FIELDNAMES :: recs)) as Hb.
    set (text := csv.writerows _) in *. clearbody text.
    split.
    + intros f' [= <-]. split; [| exact Hb].
      unfold csv.DictReader_fieldnames. rewrite Hread. reflexivity.
    + unfold csv.DictReader. rewrite Hread. reflexivity.
Qed.

(** The log after [log_reading]: the entries it held and the one written. *)
Lemma log_reading_entries (fs fs' : gmap string string)
    (clock : datetime.reading) (level : Q) (sent : bool) (msg_type : string) :
  headed_log fs ->
  log_reading fs clock level sent msg_type = Ok fs' ->
  headed_log fs'
  /\ entries fs'
     = entries fs ++ [reading_row (datetime.now clock CENTRAL) level sent msg_type].
Proof.
  intros Hh. rewrite log_reading_first. intros [= <-].
  exact (log_after_entries fs [row_of clock level sent msg_type] Hh).
Qed.

Lemma headed_log_of (rows : list (list string)) : headed_log (log_of rows).
Proof.
  intros f. unfold log_of. rewrite lookup_insert_eq.
  pose proof (reader_writerows (LOG_FIELDNAMES :: rows)) as Hread.
  pose proof (record_boundary_writerows (LOG_FIELDNAMES :: rows)) as Hb.
  set (text := csv.writerows _) in *. clearbody text.
  intros [= <-]. split; [| exact Hb].
  unfold csv.DictReader_fieldnames. rewrite Hread. reflexivity.
Qed.

Lemma headed_no_files : headed_log no_files.
Proof. intros f. unfold no_files. rewrite lookup_empty. discriminate. Qed.

(** ** The scans, on the entries of the log *)

Lemma should_send_scan (cfg : config) (fs : gmap string string)
    (clock : datetime.reading) (level : Q) (kind : string) :
  sent_column fs ->
  should_send cfg fs clock level kind =
    if isWithinSendingHours clock then
      match throttle_window level kind with
      | Returned b => Ok b
      | Window window =>
          match last (filter (fun r => is_sent kind r) (entries fs)) with
          | Some r =>
              last_sent ← row_timestamp r;
              delta ← datetime.sub (datetime.now clock CENTRAL) last_sent;
              match window with
              | Some w => if delta <? w then Ok false else Ok true
              | None => Raise UnboundLocalError
              end
          | None => Ok true
          end
      end
    else Ok false.
Proof.
  intros Hcol. destruct (isWithinSendingHours clock) eqn:Hh.
  - destruct (throttle_window level kind) as [b | window] eqn:Hw.
    + unfold should_send.
      change (datetime.hour (datetime.now clock CENTRAL))
        with (datetime.r_hour clock).
      unfold isWithinSendingHours in Hh. rewrite Hh, Hw. reflexivity.
    + rewrite (should_send_entries cfg fs clock level kind window Hh Hw).
      rewrite (sent_rows_filter _ _ Hcol). reflexivity.
  - apply quiet_hours, Hh.
Qed.

Lemma should_send_morning_scan (cfg : config) (fs : gmap string string)
    (clock : datetime.reading) :
  sent_column fs ->
  should_send_morning cfg fs clock =
    if TEST_MODE cfg then Ok true
    else if in_digest_hour clock then
      match last (filter (fun r => is_sent "morning" r) (entries fs)) with
      | Some r =>
          last_sent ← row_timestamp r;
          Ok (negb (bool_decide (datetime.date last_sent = today clock)))
      | None => Ok true
      end
    else Ok false.
Proof.
  intros Hcol. destruct (TEST_MODE cfg) eqn:Ht.
  - unfold should_send_morning. rewrite Ht. reflexivity.
  - destruct (in_digest_hour clock) eqn:Hh.
    + apply morning_scan; assumption.
    + unfold should_send_morning. rewrite Ht.
      change (datetime.hour (datetime.now clock CENTRAL))
        with (datetime.r_hour clock).
      unfold in_digest_hour in Hh. rewrite Hh. reflexivity.
Qed.

Lemma is_sent_reading_row (now : datetime.t) (level : Q) (sent : bool)
    (msg_type kind : string) :
  is_sent kind (reading_row now level sent msg_type)
  = sent && bool_decide (msg_type = kind).
Proof.
  unfold is_sent, reading_row, csv.get. simpl csv.named.
  repeat (rewrite lookup_insert_eq || rewrite lookup_insert_ne by discriminate).
  simpl default.
  destruct sent; simpl; repeat case_bool_decide; simplify_eq; reflexivity.
Qed.

Lemma row_timestamp_reading_row (clock : datetime.reading) (level : Q)
    (sent : bool) (msg_type : string) :
  row_timestamp (reading_row (datetime.now clock CENTRAL) level sent msg_type)
  = datetime.fromisoformat (datetime.isoformat (datetime.now clock CENTRAL)).
Proof.
  rewrite <- to_dict_row_of. unfold row_of. apply row_timestamp_record.
Qed.

Lemma instant_unfold (clock : datetime.reading) :
  instant clock
  = datetime.wall_us (datetime.now clock CENTRAL)
    - datetime.chicago_utcoffset (datetime.now clock CENTRAL).
Proof. unfold instant. reflexivity. Qed.

Lemma elapsed_unfold (clock : datetime.reading) (ts : datetime.t) (o : Z) :
  datetime.tz ts = Some (datetime.timezone o) ->
  elapsed clock ts = instant clock - (datetime.wall_us ts - o).
Proof.
  intros Ho. unfold elapsed, instant, datetime.utcoffset. rewrite Ho.
  reflexivity.
Qed.

Lemma elapsed_logged (clock clock' : datetime.reading) :
  elapsed clock' (logged_at clock) = instant clock' - instant clock.
Proof.
  unfold elapsed, instant, datetime.utcoffset, datetime.wall_us, logged_at.
  cbn [datetime.tz datetime.year datetime.month datetime.day datetime.hour
       datetime.minute datetime.second datetime.microsecond default
       datetime.now].
  reflexivity.
Qed.

Lemma wall_us_fields (d : datetime.t) :
  datetime.wall_us d
  = (((datetime.ymd2ord (datetime.year d) (datetime.month d) (datetime.day d)
       * 24 + datetime.hour d) * 60 + datetime.minute d) * 60
     + datetime.second d) * 1000000 + datetime.microsecond d.
Proof. reflexivity. Qed.

(** The cutoff of a compaction is at least 47 hours before the instant
    of the clock reading it starts from. *)
Lemma cutoff_instant (clock : datetime.reading) (cutoff : datetime.t) :
  datetime.wall_us cutoff
  = datetime.wall_us (datetime.now clock CENTRAL) - datetime.hours 48 ->
  datetime.wall_us cutoff - datetime.chicago_utcoffset cutoff
  <= instant clock - datetime.hours 47.
Proof.
  intros Hw. rewrite instant_unfold, Hw.
  destruct (chicago_utcoffset_cases cutoff) as [-> | ->];
    destruct (chicago_utcoffset_cases (datetime.now clock CENTRAL))
      as [-> | ->]; unfold datetime.hours; lia.
Qed.

Lemma filter_snoc_true {A} (P : A -> Prop) `{forall x, Decision (P x)}
    (l : list A) (x : A) :
  P x -> filter P (l ++ [x]) = filter P l ++ [x].
Proof.
  intros Hx. rewrite filter_app, filter_cons, decide_True by exact Hx.
  reflexivity.
Qed.

Lemma filter_snoc_false {A} (P : A -> Prop) `{forall x, Decision (P x)}
    (l : list A) (x : A) :
  ~ P x -> filter P (l ++ [x]) = filter P l.
Proof.
  intros Hx. rewrite filter_app, filter_cons, decide_False by exact Hx.
  rewrite filter_nil. apply app_nil_r.
Qed.

Lemma filter_sent_row (kind : string) (clock : datetime.reading) (level : Q)
    (sent : bool) (msg_type : string) :
  filter (fun r => is_sent kind r)
    (csv.to_dict LOG_FIELDNAMES <$> [row_of clock level sent msg_type])
  = if sent && bool_decide (msg_type = kind)
    then [reading_row (datetime.now clock CENTRAL) level sent msg_type]
    else [].
Proof.
  cbn [fmap list_fmap]. rewrite to_dict_row_of, filter_cons, filter_nil.
  rewrite is_sent_reading_row.
  destruct (sent && bool_decide (msg_type = kind)); reflexivity.
Qed.

Lemma throttle_window_container (level : Q) :
  throttle_window level "container"
  = if Qle_bool BOXcutoff1 level then Window (Some (datetime.hours 1))
    else if Qle_bool BOXcutoff2 level then Window (Some (datetime.hours 4))
    else Returned false.
Proof. reflexivity. Qed.

Lemma throttle_window_litter (level : Q) :
  throttle_window level "litter"
  = if Qle_bool level litterLevel1 then Window (Some (datetime.hours 1))
    else if Qle_bool level litterLevel2 then Window (Some (datetime.hours 4))
    else Returned false.
Proof. reflexivity. Qed.

Lemma throttle_window_hours (level : Q) (kind : string) (w : Z) :
  throttle_window level kind = Window (Some w) ->
  w = datetime.hours 1 \/ w = datetime.hours 4.
Proof.
  unfold throttle_window.
  repeat match goal with
         | |- context [if ?b then _ else _] => destruct b
         end; intros [= <-]; auto.
Qed.

(** ** A row written and read back *)

(** X1.  When [log_reading] returns, it has touched no file but the log,
    to which it has only appended.  On a log that starts with the canonical
    header and ends at a record boundary, reading the file back gives the
    entries it held followed by one more, whose fields are the message type
    as given (whatever characters it holds), the level with one decimal and
    [True] or [False]; for a clock reading that exists its timestamp
    reads back as the instant of writing, on the same calendar day. *)
Theorem log_reading_read_back (fs fs' : gmap string string)
    (clock : datetime.reading) (level : Q) (sent : bool) (msg_type : string) :
  log_reading fs clock level sent msg_type = Ok fs' ->
  (forall p, p <> LOG_FILE -> fs' !! p = fs !! p)
  /\ (exists suffix,
        fs' !! LOG_FILE = Some (default "" (fs !! LOG_FILE) +:+ suffix))
  /\ (headed_log fs ->
      exists r,
        entries fs' = entries fs ++ [r]
        /\ csv.getitem r "type" = Ok (Some msg_type)
        /\ csv.getitem r "level" = Ok (Some (format_1f level))
        /\ csv.getitem r "sent" = Ok (Some (if sent then "True" else "False"))
        /\ (valid_reading clock = true ->
            exists ts,
              row_timestamp r = Ok ts
              /\ elapsed clock ts = 0
              /\ datetime.date ts = today clock)).
Proof.
  rewrite log_reading_row. intros [= <-]. split; [| split].
  - intros p Hp. rewrite lookup_insert_ne by congruence. reflexivity.
  - eexists. apply lookup_insert_eq.
  - intros Hh.
    destruct (log_reading_entries _ _ clock level sent msg_type Hh
                (log_reading_row _ _ _ _ _)) as [_ He].
    eexists. split; [exact He |].
    unfold csv.getitem, reading_row. simpl csv.named.
    repeat (rewrite lookup_insert_eq || rewrite lookup_insert_ne by discriminate).
    repeat split.
    intros Hv. exists (logged_at clock).
    fold (reading_row (datetime.now clock CENTRAL) level sent msg_type).
    rewrite row_timestamp_reading_row, (fromisoformat_isoformat clock Hv).
    split; [reflexivity |]. split; [| reflexivity].
    rewrite elapsed_logged. lia.
Qed.

Lemma log_reading_read_back_witness :
  (forall p, p <> LOG_FILE ->
     log_after log_alert_0900 [row_of at_0930 95 false "container"] !! p
     = log_alert_0900 !! p)
  /\ (exists suffix,
        log_after log_alert_0900 [row_of at_0930 95 false "container"]
          !! LOG_FILE
        = Some (default "" (log_alert_0900 !! LOG_FILE) +:+ suffix))
  /\ (headed_log log_alert_0900 ->
      exists r,
        entries (log_after log_alert_0900
                   [row_of at_0930 95 false "container"])
        = entries log_alert_0900 ++ [r]
        /\ csv.getitem r "type" = Ok (Some "container")
        /\ csv.getitem r "level" = Ok (Some (format_1f 95))
        /\ csv.getitem r "sent" = Ok (Some "False")
        /\ (valid_reading at_0930 = true ->
            exists ts,
              row_timestamp r = Ok ts
              /\ elapsed at_0930 ts = 0
              /\ datetime.date ts = today at_0930)).
Proof.
  apply (log_reading_read_back log_alert_0900 _ at_0930 95 false "container").
  apply log_reading_first.
Defined.

(** ** The gates after a row is logged *)

(** What [should_send] answers once [log_reading] has recorded a sent row
    of the kind. *)
Lemma should_send_after_logging (cfg : config)
    (fs fs' : gmap string string) (clock clock' : datetime.reading)
    (level level' : Q) (kind : string) :
  headed_log fs ->
  valid_reading clock = true ->
  log_reading fs clock level true kind = Ok fs' ->
  should_send cfg fs' clock' level' kind =
    if isWithinSendingHours clock' then
      match throttle_window level' kind with
      | Returned b => Ok b
      | Window (Some w) => Ok (w <=? instant clock' - instant clock)
      | Window None => Raise UnboundLocalError
      end
    else Ok false.
Proof.
  intros Hh Hv Hlog.
  destruct (log_reading_entries _ _ _ _ _ _ Hh Hlog) as [Hh' He].
  rewrite (should_send_scan _ _ _ _ _ (headed_sent_column _ Hh')), He.
  destruct (isWithinSendingHours clock'); [| reflexivity].
  destruct (throttle_window level' kind) as [b | window]; [reflexivity |].
  rewrite filter_snoc_true, last_snoc.
  2:{ rewrite is_sent_reading_row, bool_decide_eq_true_2 by reflexivity.
      exact I. }
  rewrite row_timestamp_reading_row, (fromisoformat_isoformat clock Hv).
  fold (logged_at clock). rewrite bind_Ok.
  rewrite (sub_now clock' (logged_at clock) _ eq_refl), bind_Ok.
  rewrite elapsed_logged.
  destruct window as [w |]; [| reflexivity].
  rewrite Z.leb_antisym. destruct (_ <? w); reflexivity.
Qed.

(** X2.  Once [log_reading] has recorded a sent row of a kind at one clock
    reading, [should_send] for that kind at another reading answers from
    that row alone: outside the sending hours false; otherwise, for a level
    with a window, whether the window has elapsed between the two instants
    (in real time, whatever the daylight-time offsets), and for a type
    without a window [UnboundLocalError].  In particular a tray or sand
    alert is not repeated less than an hour after one was logged as sent. *)
Theorem alert_throttled_after_logging (cfg : config)
    (fs fs' : gmap string string) (clock clock' : datetime.reading)
    (level level' : Q) (kind : string) :
  headed_log fs ->
  valid_reading clock = true ->
  log_reading fs clock level true kind = Ok fs' ->
  should_send cfg fs' clock' level' kind =
    (if isWithinSendingHours clock' then
       match throttle_window level' kind with
       | Returned b => Ok b
       | Window (Some w) => Ok (w <=? instant clock' - instant clock)
       | Window None => Raise UnboundLocalError
       end
     else Ok false)
  /\ (kind = "container" \/ kind = "litter" ->
      instant clock' - instant clock < datetime.hours 1 ->
      should_send cfg fs' clock' level' kind = Ok false).
Proof.
  intros Hh Hv Hlog.
  pose proof (should_send_after_logging cfg fs fs' clock clock' level level'
                kind Hh Hv Hlog) as Hscan.
  split; [exact Hscan |].
  intros Hk Hlt. rewrite Hscan.
  destruct (isWithinSendingHours clock'); [| reflexivity].
  rewrite (throttle_window_classify level' kind Hk).
  destruct (spec_classify level' kind); simpl; try reflexivity;
    f_equal; apply Z.leb_gt; unfold datetime.hours in *; lia.
Qed.

Lemma alert_throttled_after_logging_witness :
  should_send cfg_normal
    (log_after log_digest_yesterday [row_of at_0930 95 true "container"])
    at_1000 72 "container" = Ok false.
Proof.
  apply (alert_throttled_after_logging cfg_normal log_digest_yesterday _
           at_0930 at_1000 95 72 "container").
  - apply headed_log_of.
  - reflexivity.
  - apply log_reading_first.
  - left. reflexivity.
  - vm_compute. reflexivity.
Defined.

(** X3.  A row logged with [sent=False], or with another type, changes
    no later answer of [should_send] for a kind, and one that is unsent or
    not a digest changes no answer of [should_send_morning], whatever the
    clock and the level. *)
Theorem unsent_rows_never_throttle (cfg : config) (fs fs' : gmap string string)
    (clock : datetime.reading) (level : Q) (sent : bool) (msg_type : string) :
  headed_log fs ->
  log_reading fs clock level sent msg_type = Ok fs' ->
  (forall clock' level' kind,
      sent = false \/ msg_type <> kind ->
      should_send cfg fs' clock' level' kind
      = should_send cfg fs clock' level' kind)
  /\ (forall clock',
        sent = false \/ msg_type <> "morning" ->
        should_send_morning cfg fs' clock' = should_send_morning cfg fs clock').
Proof.
  intros Hh Hlog.
  destruct (log_reading_entries _ _ _ _ _ _ Hh Hlog) as [Hh' He].
  assert (Hlast : forall kind, sent = false \/ msg_type <> kind ->
            filter (fun r => is_sent kind r) (entries fs')
            = filter (fun r => is_sent kind r) (entries fs)).
  { intros kind Hk. rewrite He. apply filter_snoc_false.
    rewrite is_sent_reading_row. destruct Hk as [-> | Hk]; [intros [] |].
    rewrite (bool_decide_eq_false_2 _ Hk), andb_false_r. intros []. }
  split.
  - intros clock' level' kind Hk.
    rewrite !should_send_scan by (apply headed_sent_column; assumption).
    rewrite (Hlast kind Hk). reflexivity.
  - intros clock' Hk.
    rewrite !should_send_morning_scan by (apply headed_sent_column; assumption).
    rewrite (Hlast "morning" Hk). reflexivity.
Qed.

Lemma unsent_rows_never_throttle_witness :
  (forall clock' level' kind,
      false = false \/ "container" <> kind ->
      should_send cfg_normal
        (log_after log_alert_0900 [row_of at_0930 95 false "container"])
        clock' level' kind
      = should_send cfg_normal log_alert_0900 clock' level' kind)
  /\ (forall clock',
        false = false \/ "container" <> "morning" ->
        should_send_morning cfg_normal
          (log_after log_alert_0900 [row_of at_0930 95 false "container"]) clock'
        = should_send_morning cfg_normal log_alert_0900 clock').
Proof.
  apply (unsent_rows_never_throttle cfg_normal log_alert_0900 _ at_0930 95
           false "container").
  - apply headed_log_of.
  - apply log_reading_first.
Defined.

(** X4.  Once [log_reading] has recorded a sent [morning] row, without
    [TEST_MODE] the digest gate opens again only on another calendar day,
    between 8 and 9; with [TEST_MODE] it is always open. *)
Theorem digest_once_a_day (cfg : config) (fs fs' : gmap string string)
    (clock clock' : datetime.reading) (level : Q) :
  headed_log fs ->
  valid_reading clock = true ->
  log_reading fs clock level true "morning" = Ok fs' ->
  should_send_morning cfg fs' clock'
  = Ok (TEST_MODE cfg
        || in_digest_hour clock'
           && negb (bool_decide (today clock = today clock'))).
Proof.
  intros Hh Hv Hlog.
  destruct (log_reading_entries _ _ _ _ _ _ Hh Hlog) as [Hh' He].
  rewrite (should_send_morning_scan _ _ _ (headed_sent_column _ Hh')), He.
  destruct (TEST_MODE cfg); [reflexivity |].
  destruct (in_digest_hour clock'); [| reflexivity].
  rewrite filter_snoc_true, last_snoc.
  2:{ rewrite is_sent_reading_row, bool_decide_eq_true_2 by reflexivity.
      exact I. }
  rewrite row_timestamp_reading_row, (fromisoformat_isoformat clock Hv).
  reflexivity.
Qed.

Lemma digest_once_a_day_witness :
  should_send_morning cfg_normal
    (log_after log_digest_yesterday [row_of at_0830 42 true "morning"]) at_0830
  = Ok (TEST_MODE cfg_normal
        || in_digest_hour at_0830
           && negb (bool_decide (today at_0830 = today at_0830))).
Proof.
  apply (digest_once_a_day cfg_normal log_digest_yesterday _ at_0830 at_0830 42).
  - apply headed_log_of.
  - reflexivity.
  - apply log_reading_first.
Defined.

(** ** One pass of the main loop *)

Lemma litter_message_nonempty (level : Q) :
  nonempty (litter_level_message level) = true.
Proof.
  unfold litter_level_message.
  destruct (Qle_bool level litterLevel1); [reflexivity |].
  destruct (Qle_bool level litterLevel2); reflexivity.
Qed.

Lemma container_message_sent (cfg : config) (fs : gmap string string)
    (clock : datetime.reading) (level : Q) :
  should_send cfg fs clock level "container" = Ok true ->
  nonempty (container_level level) = true.
Proof.
  intros H. unfold container_level.
  destruct (Qle_bool BOXcutoff1 level) eqn:E1; [reflexivity |].
  destruct (Qle_bool BOXcutoff2 level) eqn:E2; [reflexivity |].
  rewrite (below_thresholds cfg fs clock level "container") in H;
    [discriminate |].
  rewrite throttle_window_container, E1, E2. reflexivity.
Qed.

(** X5.  The texts agree with the gate.  [container_level] returns the
    empty string exactly below 70, and then [should_send] is false
    whatever the log and the clock; its text starts with [ALERT] exactly
    when the throttle window is one hour.  [litter_level_message] is never
    empty and starts with [ALERT] exactly when the window is one hour. *)
Theorem message_tiers (level : Q) :
  (nonempty (container_level level) = true <-> (70 <= level)%Q)
  /\ (String.prefix "ALERT" (container_level level) = true
      <-> throttle_window level "container" = Window (Some (datetime.hours 1)))
  /\ nonempty (litter_level_message level) = true
  /\ (String.prefix "ALERT" (litter_level_message level) = true
      <-> throttle_window level "litter" = Window (Some (datetime.hours 1)))
  /\ (forall cfg fs clock,
        nonempty (container_level level) = false ->
        should_send cfg fs clock level "container" = Ok false).
Proof.
  rewrite throttle_window_container, throttle_window_litter.
  unfold container_level, litter_level_message.
  generalize (format_1f level) (format_1f (float.mul level 100)). intros a b.
  assert (H90 : Qle_bool BOXcutoff1 level = true -> Qle_bool BOXcutoff2 level = true).
  { unfold BOXcutoff1, BOXcutoff2. rewrite !Qle_bool_iff.
    intros H. eapply Qle_trans; [| exact H]. discriminate. }
  assert (H70 : Qle_bool BOXcutoff2 level = true <-> (70 <= level)%Q).
  { apply Qle_bool_iff. }
  destruct (Qle_bool BOXcutoff1 level) eqn:E1.
  - rewrite (H90 eq_refl) in *.
    destruct (Qle_bool level litterLevel1), (Qle_bool level litterLevel2);
      (split; [split; [intros _; apply H70; reflexivity | reflexivity] |]);
      (split; [split; reflexivity |]); (split; [reflexivity |]);
      (split; [split; first [reflexivity | discriminate] |]);
      intros cfg fs clock H; discriminate H.
  - destruct (Qle_bool BOXcutoff2 level) eqn:E2.
    + destruct (Qle_bool level litterLevel1), (Qle_bool level litterLevel2);
      (split; [split; [intros _; apply H70; reflexivity | reflexivity] |]);
      (split; [split; discriminate |]); (split; [reflexivity |]);
      (split; [split; first [reflexivity | discriminate] |]);
      intros cfg fs clock H; discriminate H.
    + destruct (Qle_bool level litterLevel1), (Qle_bool level litterLevel2);
      (split; [split; [discriminate | intros H; apply H70 in H; discriminate] |]);
      (split; [split; discriminate |]); (split; [reflexivity |]);
      (split; [split; first [reflexivity | discriminate] |]);
      intros cfg fs clock _; apply below_thresholds;
      rewrite throttle_window_container, E1, E2; reflexivity.
Qed.

Lemma quiet_not_digest_hour (clock : datetime.reading) :
  isWithinSendingHours clock = false -> in_digest_hour clock = false.
Proof.
  unfold isWithinSendingHours, in_digest_hour.
  rewrite !andb_false_iff, !Z.leb_gt, !Z.ltb_ge. lia.
Qed.

(** X6.  Outside the sending hours the gates do not read the log:
    whatever it holds, no exception of a scan ends the pass, which sends no
    alert and appends the tray row and the sand row, both unsent, the sand
    row with the float product [litterlevel * 100].  Without [TEST_MODE]
    that is all; with it the digest is still sent and logged.  (As
    everywhere in [robot_cycle], the file operations and [send_text] are
    taken to succeed.) *)
Theorem quiet_hours_pass (cfg : config) (ck : readings)
    (robot_name digest : string) (traylevel litterlevel : Q)
    (fs : gmap string string) :
  isWithinSendingHours (at_container_gate ck) = false ->
  isWithinSendingHours (at_litter_gate ck) = false ->
  isWithinSendingHours (at_morning_gate ck) = false ->
  robot_cycle cfg ck robot_name digest traylevel litterlevel fs
  = (log_after fs
       ([row_of (at_container_log ck) traylevel false "container";
         row_of (at_litter_log ck) (float.mul litterlevel 100) false "litter"]
        ++ (if TEST_MODE cfg
            then [row_of (at_morning_log ck) traylevel true "morning"]
            else [])),
     (if TEST_MODE cfg then [digest] else [], Ok tt)).
Proof.
  intros Hc Hl Hm. unfold robot_cycle.
  rewrite (quiet_hours cfg fs _ traylevel "container" Hc).
  assert (H1 : (if nonempty (container_level traylevel)
                then Ok false else Ok false) = @Ok bool false)
    by (destruct (nonempty (container_level traylevel)); reflexivity).
  rewrite H1, log_reading_first. clear H1.
  rewrite (quiet_hours cfg _ _ litterlevel "litter" Hl).
  assert (H2 : (if nonempty (litter_level_message litterlevel)
                then Ok false else Ok false) = @Ok bool false)
    by (destruct (nonempty (litter_level_message litterlevel)); reflexivity).
  rewrite H2, log_reading_next. clear H2.
  unfold should_send_morning.
  change (datetime.hour (datetime.now (at_morning_gate ck) CENTRAL))
    with (datetime.r_hour (at_morning_gate ck)).
  pose proof (quiet_not_digest_hour _ Hm) as Hd. unfold in_digest_hour in Hd.
  rewrite Hd. cbn [negb].
  destruct (TEST_MODE cfg).
  - rewrite log_reading_next. reflexivity.
  - reflexivity.
Qed.

Lemma quiet_hours_pass_witness :
  robot_cycle cfg_test readings_0300 "Robot" "Good morning!" 95 0.125
    log_malformed_last
  = (log_after log_malformed_last
       ([row_of at_0300 95 false "container";
         row_of at_0300 (float.mul 0.125 100) false "litter"]
        ++ (if TEST_MODE cfg_test
            then [row_of at_0300 95 true "morning"]
            else [])),
     (if TEST_MODE cfg_test then ["Good morning!"] else [], Ok tt)).
Proof.
  apply (quiet_hours_pass cfg_test readings_0300); reflexivity.
Defined.

(** An alert that [should_send] lets through comes at least an hour
    after the last one sent. *)
Lemma should_send_true_elapsed (cfg : config) (fs : gmap string string)
    (clock : datetime.reading) (level : Q) (kind : string) (ts : datetime.t) :
  kind = "container" \/ kind = "litter" ->
  sent_column fs ->
  lastSent fs kind (Some ts) ->
  should_send cfg fs clock level kind = Ok true ->
  datetime.hours 1 <= elapsed clock ts.
Proof.
  intros Hk Hcol Hlast.
  destruct (isWithinSendingHours clock) eqn:Hh;
    [| rewrite (quiet_hours cfg fs clock level kind Hh); discriminate].
  pose proof (throttle_window_classify level kind Hk) as Hw.
  destruct (spec_windowFor (spec_classify level kind)) as [w |] eqn:Hs.
  - rewrite (gate_2b cfg fs clock level kind (Some w) (Some ts) Hh Hw Hcol Hlast).
    intros [= H]. apply Z.leb_le in H.
    destruct (spec_classify level kind); simpl in Hs; simplify_eq;
      unfold datetime.hours in *; lia.
  - rewrite (below_thresholds cfg fs clock level kind Hw). discriminate.
Qed.

Lemma lastSent_extended (fs fs' : gmap string string) (kind : string)
    (ts : datetime.t) :
  filter (fun r => is_sent kind r) (entries fs')
  = filter (fun r => is_sent kind r) (entries fs) ->
  lastSent fs kind (Some ts) -> lastSent fs' kind (Some ts).
Proof.
  intros He H. inversion H as [| rows r ts' Hrows Hts Htz]; subst.
  apply (lastSent_some fs' kind rows r ts); [congruence | assumption..].
Qed.

(** X7.  A pass that completes adds a sent tray row to the log only when
    the tray gate read the clock at least an hour after the last sent tray
    row, and likewise for the sand; it adds a sent digest row only with
    [TEST_MODE] or when the last one is not dated today. *)
Theorem alerts_an_hour_apart (cfg : config) (ck : readings)
    (robot_name digest : string) (traylevel litterlevel : Q)
    (fs fs' : gmap string string) (texts : list string) :
  headed_log fs ->
  robot_cycle cfg ck robot_name digest traylevel litterlevel fs
  = (fs', (texts, Ok tt)) ->
  (forall ts,
      lastSent fs "container" (Some ts) ->
      filter (fun r => is_sent "container" r) (entries fs')
      <> filter (fun r => is_sent "container" r) (entries fs) ->
      datetime.hours 1 <= elapsed (at_container_gate ck) ts)
  /\ (forall ts,
        lastSent fs "litter" (Some ts) ->
        filter (fun r => is_sent "litter" r) (entries fs')
        <> filter (fun r => is_sent "litter" r) (entries fs) ->
        datetime.hours 1 <= elapsed (at_litter_gate ck) ts)
  /\ (forall ts,
        lastSent fs "morning" (Some ts) ->
        filter (fun r => is_sent "morning" r) (entries fs')
        <> filter (fun r => is_sent "morning" r) (entries fs) ->
        TEST_MODE cfg = true
        \/ datetime.date ts <> today (at_morning_gate ck)).
Proof.
  intros Hh. unfold robot_cycle.
  destruct (if nonempty (container_level traylevel) then _ else _)
    as [send_c | e] eqn:Hc; [| discriminate].
  rewrite log_reading_first.
  set (r1 := row_of (at_container_log ck) traylevel send_c "container").
  destruct (if nonempty (litter_level_message litterlevel) then _ else _)
    as [send_l | e] eqn:Hl; [| discriminate].
  rewrite log_reading_next.
  set (r2 := row_of (at_litter_log ck) (float.mul litterlevel 100) send_l "litter").
  destruct (should_send_morning cfg _ _) as [send_m | e] eqn:Hm;
    [| discriminate].
  set (r3 := row_of (at_morning_log ck) traylevel true "morning").
  intros Hrun.
  assert (Hfs : fs' = log_after fs ([r1] ++ [r2] ++ if send_m then [r3] else [])).
  { destruct send_m; [rewrite log_reading_next in Hrun |];
      injection Hrun as <- _; reflexivity. }
  clear Hrun.
  destruct (log_after_entries fs [r1] Hh) as [Hh1 He1].
  assert (Hnb1 : filter (fun r : list string => csv.nonblank r) [r1] = [r1])
    by reflexivity.
  rewrite Hnb1 in He1. clear Hnb1.
  destruct (log_after_entries fs [r1; r2] Hh) as [Hh2 He2].
  destruct (log_after_entries fs ([r1] ++ [r2] ++ if send_m then [r3] else [])
              Hh) as [_ He].
  rewrite <- Hfs in He.
  assert (Hnb : forall recs,
            filter (fun r : list string => csv.nonblank r)
              ([r1] ++ [r2] ++ recs)
            = [r1] ++ [r2] ++ filter (fun r => csv.nonblank r) recs)
    by reflexivity.
  assert (Hall : forall kind,
            filter (fun r => is_sent kind r) (entries fs')
            = filter (fun r => is_sent kind r) (entries fs)
              ++ (if send_c && bool_decide ("container" = kind)
                  then [reading_row (datetime.now (at_container_log ck) CENTRAL)
                          traylevel send_c "container"] else [])
              ++ (if send_l && bool_decide ("litter" = kind)
                  then [reading_row (datetime.now (at_litter_log ck) CENTRAL)
                          (float.mul litterlevel 100) send_l "litter"] else [])
              ++ (if send_m && bool_decide ("morning" = kind)
                  then [reading_row (datetime.now (at_morning_log ck) CENTRAL)
                          traylevel true "morning"] else [])).
  { intros kind. rewrite He, Hnb, !fmap_app, !filter_app.
    subst r1 r2. rewrite !filter_sent_row.
    do 3 f_equal. destruct send_m; [| reflexivity].
    subst r3. apply (filter_sent_row kind _ _ true "morning"). }
  split; [| split].
  - intros ts Hlast Hne. rewrite (Hall "container") in Hne.
    rewrite (bool_decide_eq_false_2 ("litter" = "container")),
      (bool_decide_eq_false_2 ("morning" = "container")) in Hne by discriminate.
    rewrite !andb_false_r, app_nil_r in Hne.
    destruct send_c; [| rewrite app_nil_r in Hne; contradiction].
    destruct (nonempty (container_level traylevel)); [| discriminate].
    apply (should_send_true_elapsed cfg fs _ traylevel "container" ts);
      [left; reflexivity | apply headed_sent_column, Hh | exact Hlast
      | exact Hc].
  - intros ts Hlast Hne. rewrite (Hall "litter") in Hne.
    rewrite (bool_decide_eq_false_2 ("container" = "litter")),
      (bool_decide_eq_false_2 ("morning" = "litter")) in Hne by discriminate.
    rewrite !andb_false_r, app_nil_r in Hne. cbn [app] in Hne.
    destruct send_l; [| rewrite app_nil_r in Hne; contradiction].
    destruct (nonempty (litter_level_message litterlevel)); [| discriminate].
    apply (should_send_true_elapsed cfg (log_after fs [r1]) _ litterlevel
             "litter" ts);
      [right; reflexivity | apply headed_sent_column, Hh1 | | exact Hl].
    apply (lastSent_extended fs); [| exact Hlast].
    rewrite He1, filter_app. subst r1. rewrite filter_sent_row.
    rewrite (bool_decide_eq_false_2 ("container" = "litter")) by discriminate.
    rewrite andb_false_r, app_nil_r. reflexivity.
  - intros ts Hlast Hne. rewrite (Hall "morning") in Hne.
    rewrite (bool_decide_eq_false_2 ("container" = "morning")),
      (bool_decide_eq_false_2 ("litter" = "morning")) in Hne by discriminate.
    rewrite !andb_false_r in Hne. cbn [app] in Hne.
    destruct send_m; [| rewrite app_nil_r in Hne; contradiction].
    assert (Hlast2 : lastSent (log_after fs [r1; r2]) "morning" (Some ts)).
    { apply (lastSent_extended fs); [| exact Hlast].
      rewrite He2.
      change [r1; r2] with ([r1] ++ [r2]).
      assert (Hnb2 : filter (fun r : list string => csv.nonblank r)
                       ([r1] ++ [r2]) = [r1] ++ [r2]) by reflexivity.
      rewrite Hnb2, fmap_app, !filter_app. subst r1 r2.
      rewrite !filter_sent_row.
      rewrite (bool_decide_eq_false_2 ("container" = "morning")),
        (bool_decide_eq_false_2 ("litter" = "morning")) by discriminate.
      rewrite !andb_false_r, !app_nil_r. reflexivity. }
    rewrite (should_send_morning_scan _ _ _ (headed_sent_column _ Hh2)) in Hm.
    destruct (TEST_MODE cfg); [left; reflexivity | right].
    destruct (in_digest_hour (at_morning_gate ck)); [| discriminate].
    inversion Hlast2 as [| rows r ts' Hrows Hts Htz]; subst.
    rewrite Hrows, last_snoc, Hts, bind_Ok in Hm.
    injection Hm as Hm. apply negb_true_iff, bool_decide_eq_false in Hm.
    exact Hm.
Qed.

Lemma alerts_an_hour_apart_witness :
  datetime.hours 1 <= elapsed at_1030 ts_0900.
Proof.
  destruct (alerts_an_hour_apart cfg_normal readings_1030 "Robot"
              "Good morning!" 95 0.875 log_alert_0900
              (log_after log_alert_0900
                 [row_of at_1030 95 true "container";
                  row_of at_1030 (float.mul 0.875 100) false "litter"])
              [container_level 95]) as (Hc & _ & _).
  - apply headed_log_of.
  - vm_compute. reflexivity.
  - apply (Hc ts_0900).
    + exact lastSent_alert_0900.
    + vm_compute. discriminate.
Defined.

(** X8.  The tray alert is logged as sent before any text is handed to
    [send_text]: when the tray gate passes and the sand gate then raises
    (its last sent row has a timestamp that cannot be read, say), the pass
    ends with that exception, no text has been handed to [send_text], the
    log holds the tray row with [sent=True], and for the next hour
    [should_send] refuses the tray alert. *)
Theorem alert_logged_but_not_sent (cfg : config) (ck : readings)
    (robot_name digest : string) (traylevel litterlevel : Q)
    (fs : gmap string string) (e : exn) :
  headed_log fs ->
  valid_reading (at_container_log ck) = true ->
  should_send cfg fs (at_container_gate ck) traylevel "container" = Ok true ->
  should_send cfg
    (log_after fs [row_of (at_container_log ck) traylevel true "container"])
    (at_litter_gate ck) litterlevel "litter" = Raise e ->
  robot_cycle cfg ck robot_name digest traylevel litterlevel fs
  = (log_after fs [row_of (at_container_log ck) traylevel true "container"],
     ([], Raise e))
  /\ (forall clock' level',
        instant clock' - instant (at_container_log ck) < datetime.hours 1 ->
        should_send cfg
          (log_after fs
             [row_of (at_container_log ck) traylevel true "container"])
          clock' level' "container" = Ok false).
Proof.
  intros Hh Hv Hc Hl. split.
  - unfold robot_cycle.
    rewrite (container_message_sent _ _ _ _ Hc), Hc, log_reading_first.
    rewrite litter_message_nonempty, Hl. reflexivity.
  - intros clock' level' Hlt.
    rewrite (should_send_after_logging cfg fs _ (at_container_log ck) clock'
               traylevel level' "container" Hh Hv (log_reading_first _ _ _ _ _)).
    destruct (isWithinSendingHours clock'); [| reflexivity].
    rewrite throttle_window_container.
    destruct (Qle_bool BOXcutoff1 level');
      [f_equal; apply Z.leb_gt; exact Hlt |].
    destruct (Qle_bool BOXcutoff2 level'); [| reflexivity].
    f_equal. apply Z.leb_gt. unfold datetime.hours in *. lia.
Qed.

Lemma alert_logged_but_not_sent_witness :
  robot_cycle cfg_normal readings_0930 "Robot" "Good morning!" 95 0.125
    log_bad_litter
  = (log_after log_bad_litter [row_of at_0930 95 true "container"],
     ([], Raise ValueError))
  /\ (forall clock' level',
        instant clock' - instant at_0930 < datetime.hours 1 ->
        should_send cfg_normal
          (log_after log_bad_litter [row_of at_0930 95 true "container"])
          clock' level' "container" = Ok false).
Proof.
  apply (alert_logged_but_not_sent cfg_normal readings_0930).
  - apply headed_log_of.
  - reflexivity.
  - vm_compute. reflexivity.
  - vm_compute. reflexivity.
Defined.

(** ** How the gates can end a pass *)






Lemma last_sent_aware_after (fs : gmap string string)
    (recs : list (list string)) (kind : string) :
  headed_log fs ->
  filter (fun r => is_sent kind r)
    (csv.to_dict LOG_FIELDNAMES <$> filter (fun r => csv.nonblank r) recs) = [] ->
  last_sent_aware fs kind -> last_sent_aware (log_after fs recs) kind.
Proof.
  intros Hh Hnone Haware r.
  destruct (log_after_entries fs recs Hh) as [_ ->].
  rewrite filter_app, Hnone, app_nil_r. apply Haware.
Qed.




(** X19.  Time alone never closes an alert gate that is open: when
    [should_send] answers true at one instant, it answers true at every
    later instant within the sending hours, for the same log, level and
    kind (the last sent row of the kind having a timestamp with an
    offset). *)
Theorem alert_stays_due (cfg : config) (fs : gmap string string)
    (clock clock' : datetime.reading) (level : Q) (kind : string) :
  sent_column fs ->
  last_sent_aware fs kind ->
  instant clock <= instant clock' ->
  isWithinSendingHours clock' = true ->
  should_send cfg fs clock level kind = Ok true ->
  should_send cfg fs clock' level kind = Ok true.
Proof.
  intros Hcol Haware Hlater Hh'.
  rewrite !(should_send_scan _ _ _ _ _ Hcol), Hh'.
  destruct (isWithinSendingHours clock); [| discriminate].
  destruct (throttle_window level kind) as [b | window]; [intros H; exact H |].
  destruct (last _) as [r |] eqn:Hlast; [| reflexivity].
  destruct (Haware r Hlast) as (ts & Hts & Htz).
  destruct (row_timestamp_tz _ _ Hts Htz) as [o Ho].
  rewrite Hts, !bind_Ok, !(sub_now _ ts o Ho), !bind_Ok.
  destruct window as [w |]; [| discriminate].
  rewrite !(elapsed_unfold _ _ _ Ho).
  destruct (_ <? w) eqn:E1; [discriminate |]. intros _.
  apply Z.ltb_ge in E1.
  destruct (_ <? w) eqn:E2; [| reflexivity].
  apply Z.ltb_lt in E2. lia.
Qed.

Lemma alert_stays_due_witness :
  should_send cfg_normal log_alert_0900 at_1030 95 "container" = Ok true.
Proof.
  apply (alert_stays_due cfg_normal log_alert_0900 at_1000 at_1030).
  - by_computation.
  - intros r Hr. vm_compute in Hr. injection Hr as <-.
    exists ts_0900. split; [vm_compute; reflexivity | eexists; reflexivity].
  - vm_compute. discriminate.
  - reflexivity.
  - vm_compute. reflexivity.
Defined.

(** ** The header and the scans *)

Lemma sent_rows_KeyError (r : csv.row) (rows : list csv.row) (kind : string) :
  csv.named r !! "sent" = None ->
  sent_rows (r :: rows) kind = Raise KeyError.
Proof.
  intros H. cbn [sent_rows]. unfold csv.getitem. rewrite H. reflexivity.
Qed.

(** X9.  On a log whose first record does not name a [sent] column (a log
    without header: its first row is taken for field names), both scans
    raise [KeyError] at the first data row, [should_send] in the sending
    hours for a level that reaches the scan and [should_send_morning] in
    the digest hour; with no data row they return true. *)
Theorem scan_without_sent_column (cfg : config) (fs : gmap string string)
    (clock : datetime.reading) (f : string) (fieldnames : list string)
    (recs : list (list string)) :
  fs !! LOG_FILE = Some f ->
  csv.reader f = fieldnames :: recs ->
  "sent" ∉ fieldnames ->
  (forall level kind window,
      isWithinSendingHours clock = true ->
      throttle_window level kind = Window window ->
      should_send cfg fs clock level kind
      = match filter (fun r => csv.nonblank r) recs with
        | [] => Ok true
        | _ :: _ => Raise KeyError
        end)
  /\ (TEST_MODE cfg = false ->
      in_digest_hour clock = true ->
      should_send_morning cfg fs clock
      = match filter (fun r => csv.nonblank r) recs with
        | [] => Ok true
        | _ :: _ => Raise KeyError
        end).
Proof.
  intros Hf Hread Hno.
  pose proof (entries_lookup _ _ Hf) as He.
  rewrite (DictReader_records _ _ _ Hread) in He.
  assert (Hrows : forall kind,
            sent_rows (entries fs) kind
            = match filter (fun r => csv.nonblank r) recs with
              | [] => Ok []
              | _ :: _ => Raise KeyError
              end).
  { intros kind. rewrite He.
    destruct (filter _ recs) as [| rec recs']; [reflexivity |].
    cbn [fmap list_fmap]. apply sent_rows_KeyError.
    apply eq_None_not_Some. rewrite to_dict_keys. exact Hno. }
  split.
  - intros level kind window Hh Hw.
    rewrite (should_send_entries cfg fs clock level kind window Hh Hw), Hrows.
    destruct (filter _ recs); reflexivity.
  - intros Ht Hh. unfold should_send_morning. rewrite Ht.
    change (datetime.hour (datetime.now clock CENTRAL))
      with (datetime.r_hour clock).
    unfold in_digest_hour in Hh. rewrite Hh. cbn [negb].
    rewrite Hf. rewrite <- (entries_lookup _ _ Hf), Hrows.
    destruct (filter _ recs); reflexivity.
Qed.

Lemma scan_without_sent_column_witness :
  (forall level kind window,
      isWithinSendingHours at_0830 = true ->
      throttle_window level kind = Window window ->
      should_send cfg_normal legacy_log_2 at_0830 level kind = Raise KeyError)
  /\ (TEST_MODE cfg_normal = false ->
      in_digest_hour at_0830 = true ->
      should_send_morning cfg_normal legacy_log_2 at_0830 = Raise KeyError).
Proof.
  apply (scan_without_sent_column cfg_normal legacy_log_2 at_0830
           (csv.writerows
              [["2026-11-03T08:00:00-06:00"; "container"; "95.0"; "True"];
               ["2026-11-03T08:00:02-06:00"; "litter"; "55.0"; "False"]])
           ["2026-11-03T08:00:00-06:00"; "container"; "95.0"; "True"]
           [["2026-11-03T08:00:02-06:00"; "litter"; "55.0"; "False"]]).
  - reflexivity.
  - apply reader_writerows.
  - by_computation.
Defined.

Lemma row_timestamp_not_KeyError (r : csv.row) :
  is_Some (csv.named r !! "timestamp") -> row_timestamp r <> Raise KeyError.
Proof.
  unfold row_timestamp, csv.getitem. intros [v ->]. rewrite bind_Ok.
  destruct v as [s |]; [| discriminate].
  unfold datetime.fromisoformat. destruct (datetime.parse_isoformat s);
    discriminate.
Qed.

Lemma sub_not_KeyError (a b : datetime.t) : datetime.sub a b <> Raise KeyError.
Proof.
  unfold datetime.sub.
  destruct (datetime.utcoffset a), (datetime.utcoffset b);
    try destruct (datetime.same_tzinfo a b); discriminate.
Qed.

(** With the canonical header, no scan fails on a missing column. *)
Lemma headed_no_KeyError (cfg : config) (fs : gmap string string)
    (clock : datetime.reading) :
  (forall f, fs !! LOG_FILE = Some f ->
     csv.DictReader_fieldnames f = Some LOG_FIELDNAMES) ->
  (forall level kind, should_send cfg fs clock level kind <> Raise KeyError)
  /\ should_send_morning cfg fs clock <> Raise KeyError.
Proof.
  intros Hh.
  assert (Hcol : sent_column fs).
  { apply sent_column_fieldnames. intros f Hf. exists LOG_FIELDNAMES.
    split; [apply Hh, Hf |]. unfold LOG_FIELDNAMES. set_solver. }
  assert (Hkey : forall kind r,
            last (filter (fun r => is_sent kind r) (entries fs)) = Some r ->
            row_timestamp r <> Raise KeyError).
  { intros kind r Hlast. apply row_timestamp_not_KeyError.
    apply last_Some_elem_of, list_elem_of_filter in Hlast as [_ Hin].
    unfold entries in Hin. destruct (fs !! LOG_FILE) as [f |] eqn:Hf;
      [| inversion Hin].
    destruct (fieldnames_records _ _ (Hh f eq_refl)) as [recs Hrecs].
    rewrite (DictReader_records _ _ _ Hrecs) in Hin.
    apply list_elem_of_fmap in Hin as (rec & -> & _).
    apply to_dict_keys. unfold LOG_FIELDNAMES. set_solver. }
  split.
  - intros level kind. rewrite (should_send_scan _ _ _ _ _ Hcol).
    destruct (isWithinSendingHours clock); [| discriminate].
    destruct (throttle_window level kind) as [b | window]; [discriminate |].
    destruct (last _) as [r |] eqn:Hlast; [| discriminate].
    specialize (Hkey kind r Hlast).
    destruct (row_timestamp r) as [ts | e]; [| simpl; congruence].
    rewrite bind_Ok.
    pose proof (sub_not_KeyError (datetime.now clock CENTRAL) ts) as Hsub.
    destruct (datetime.sub _ ts) as [delta | e]; [| simpl; congruence].
    rewrite bind_Ok. destruct window as [w |]; [| discriminate].
    destruct (delta <? w); discriminate.
  - rewrite (should_send_morning_scan _ _ _ Hcol).
    destruct (TEST_MODE cfg); [discriminate |].
    destruct (in_digest_hour clock); [| discriminate].
    destruct (last _) as [r |] eqn:Hlast; [| discriminate].
    specialize (Hkey "morning" r Hlast).
    destruct (row_timestamp r) as [ts | e]; [discriminate | simpl; congruence].
Qed.

Lemma reader_after_header (text : string) :
  csv.reader (str.join "," LOG_FIELDNAMES +:+ String str.LF "" +:+ text)
  = LOG_FIELDNAMES :: csv.reader text.
Proof. reflexivity. Qed.

(** X10.  When [_ensure_log_header] repairs a log, no row is lost: every
    non-blank record of the old file, its first line included, is an entry
    under the canonical field names.  After the call neither scan can raise
    [KeyError], provided the file was repaired or its header was already
    what the CSV reader takes for the canonical field names. *)
Theorem ensure_log_header_makes_rows (fs : gmap string string) (text : string) :
  fs !! LOG_FILE = Some text ->
  (str.strip (os.readline text) <> str.join "," LOG_FIELDNAMES ->
   entries (_ensure_log_header fs)
   = csv.to_dict LOG_FIELDNAMES
     <$> filter (fun r => csv.nonblank r) (csv.reader text))
  /\ (str.strip (os.readline text) <> str.join "," LOG_FIELDNAMES
      \/ csv.DictReader_fieldnames text = Some LOG_FIELDNAMES ->
      forall cfg clock,
        (forall level kind,
            should_send cfg (_ensure_log_header fs) clock level kind
            <> Raise KeyError)
        /\ should_send_morning cfg (_ensure_log_header fs) clock
           <> Raise KeyError).
Proof.
  intros Hf.
  assert (Hrep : str.strip (os.readline text) <> str.join "," LOG_FIELDNAMES ->
                 _ensure_log_header fs
                 = <[LOG_FILE := str.join "," LOG_FIELDNAMES
                                 +:+ String str.LF "" +:+ text]> fs).
  { intros Hne. unfold _ensure_log_header. rewrite Hf.
    rewrite bool_decide_eq_true_2 by exact Hne. reflexivity. }
  split.
  - intros Hne. rewrite (Hrep Hne). unfold entries.
    rewrite lookup_insert_eq.
    apply DictReader_records, reader_after_header.
  - intros Hcase cfg clock. apply headed_no_KeyError. intros f'.
    destruct (decide (str.strip (os.readline text)
                      = str.join "," LOG_FIELDNAMES)) as [Heq | Hne].
    + unfold _ensure_log_header. rewrite Hf.
      rewrite bool_decide_eq_false_2 by (intros H; apply H, Heq).
      rewrite Hf. intros [= <-]. destruct Hcase as [Hne | Hfn];
        [contradiction | exact Hfn].
    + rewrite (Hrep Hne), lookup_insert_eq. intros [= <-].
      unfold csv.DictReader_fieldnames. rewrite reader_after_header.
      reflexivity.
Qed.

Lemma ensure_log_header_makes_rows_witness :
  entries (_ensure_log_header legacy_log_2)
  = csv.to_dict LOG_FIELDNAMES
    <$> [["2026-11-03T08:00:00-06:00"; "container"; "95.0"; "True"];
         ["2026-11-03T08:00:02-06:00"; "litter"; "55.0"; "False"]]
  /\ (forall cfg clock,
        (forall level kind,
            should_send cfg (_ensure_log_header legacy_log_2) clock level kind
            <> Raise KeyError)
        /\ should_send_morning cfg (_ensure_log_header legacy_log_2) clock
           <> Raise KeyError).
Proof.
  destruct (ensure_log_header_makes_rows legacy_log_2
              (csv.writerows
                 [["2026-11-03T08:00:00-06:00"; "container"; "95.0"; "True"];
                  ["2026-11-03T08:00:02-06:00"; "litter"; "55.0"; "False"]])
              eq_refl) as [Hrows Hkey].
  split.
  - apply Hrows. vm_compute. discriminate.
  - apply Hkey. left. vm_compute. discriminate.
Defined.

(** The rows [sent_rows] selects on a log whose first record does not name
    a [sent] column. *)
Lemma sent_rows_without_column (fs : gmap string string) (f : string)
    (fieldnames : list string) (recs : list (list string)) (kind : string) :
  fs !! LOG_FILE = Some f ->
  csv.reader f = fieldnames :: recs ->
  "sent" ∉ fieldnames ->
  sent_rows (entries fs) kind
  = match filter (fun r => csv.nonblank r) recs with
    | [] => Ok []
    | _ :: _ => Raise KeyError
    end.
Proof.
  intros Hf Hread Hno.
  rewrite (entries_lookup _ _ Hf), (DictReader_records _ _ _ Hread).
  destruct (filter _ recs) as [| rec recs']; [reflexivity |].
  cbn [fmap list_fmap]. apply sent_rows_KeyError.
  apply eq_None_not_Some. rewrite to_dict_keys. exact Hno.
Qed.

(** X20.  [_ensure_log_header] compares the first line with surrounding
    white space stripped, the CSV reader does not strip: a log whose first
    line is the header up to such white space, but in which the reader
    finds no field named [sent] (the header ends with a space, say), is
    left as it is, and on it both scans raise [KeyError] as soon as there
    is a data row. *)
Theorem header_check_weaker_than_reader (cfg : config)
    (fs : gmap string string) (clock : datetime.reading) (text : string)
    (fieldnames : list string) (recs : list (list string)) :
  fs !! LOG_FILE = Some text ->
  str.strip (os.readline text) = str.join "," LOG_FIELDNAMES ->
  csv.reader text = fieldnames :: recs ->
  "sent" ∉ fieldnames ->
  filter (fun r => csv.nonblank r) recs <> [] ->
  _ensure_log_header fs = fs
  /\ (forall level kind window,
        isWithinSendingHours clock = true ->
        throttle_window level kind = Window window ->
        should_send cfg (_ensure_log_header fs) clock level kind
        = Raise KeyError)
  /\ (TEST_MODE cfg = false ->
      in_digest_hour clock = true ->
      should_send_morning cfg (_ensure_log_header fs) clock = Raise KeyError).
Proof.
  intros Hf Hline Hread Hno Hrows.
  assert (Hsame : _ensure_log_header fs = fs).
  { unfold _ensure_log_header. rewrite Hf.
    rewrite bool_decide_eq_false_2 by (intros H; apply H, Hline).
    reflexivity. }
  rewrite Hsame. split; [reflexivity |].
  pose proof (fun kind =>
                sent_rows_without_column fs text fieldnames recs kind
                  Hf Hread Hno) as Hscan.
  destruct (filter _ recs) as [| rec recs'] eqn:E; [contradiction |].
  split.
  - intros level kind window Hh Hw.
    rewrite (should_send_entries cfg fs clock level kind window Hh Hw), Hscan.
    reflexivity.
  - intros Ht Hh. unfold should_send_morning. rewrite Ht.
    change (datetime.hour (datetime.now clock CENTRAL))
      with (datetime.r_hour clock).
    unfold in_digest_hour in Hh. rewrite Hh. cbn [negb].
    rewrite Hf. rewrite <- (entries_lookup _ _ Hf), Hscan.
    reflexivity.
Qed.

Lemma header_check_weaker_than_reader_witness :
  _ensure_log_header log_padded_header = log_padded_header
  /\ (forall level kind window,
        isWithinSendingHours at_0830 = true ->
        throttle_window level kind = Window window ->
        should_send cfg_normal (_ensure_log_header log_padded_header) at_0830
          level kind = Raise KeyError)
  /\ (TEST_MODE cfg_normal = false ->
      in_digest_hour at_0830 = true ->
      should_send_morning cfg_normal (_ensure_log_header log_padded_header)
        at_0830 = Raise KeyError).
Proof.
  apply (header_check_weaker_than_reader cfg_normal log_padded_header at_0830
           ("timestamp,type,level,sent " +:+ csv.lineterminator
            +:+ csv.writerow
                  ["2026-11-03T09:00:00-06:00"; "container"; "95.0"; "True"])
           ["timestamp"; "type"; "level"; "sent "]
           [["2026-11-03T09:00:00-06:00"; "container"; "95.0"; "True"]]).
  - reflexivity.
  - vm_compute. reflexivity.
  - vm_compute. reflexivity.
  - by_computation.
  - discriminate.
Defined.

(** ** Timestamps without an offset *)

Lemma sub_aware_naive (a b : datetime.t) :
  is_Some (datetime.tz a) -> datetime.tz b = None ->
  datetime.sub a b = Raise TypeError.
Proof.
  intros [z Hz] Hb. unfold datetime.sub, datetime.utcoffset. rewrite Hz, Hb.
  destruct z; reflexivity.
Qed.

Lemma ge_naive_aware (a b : datetime.t) :
  datetime.tz a = None -> is_Some (datetime.tz b) ->
  datetime.ge a b = Raise TypeError.
Proof.
  intros Ha [z Hz]. unfold datetime.ge, datetime.sub, datetime.utcoffset.
  rewrite Ha, Hz. destruct z; reflexivity.
Qed.

Lemma copy_recent_naive (fieldnames : list string) (cutoff : datetime.t)
    (rows : list csv.row) (out : string) (kept removed : nat) :
  is_Some (datetime.tz cutoff) ->
  Exists naive rows ->
  raises (copy_recent fieldnames cutoff rows out kept removed).2.
Proof.
  intros Hc Hex. revert out kept removed.
  induction Hex as [r rows (ts & Hts & Hn) | r rows _ IH];
    intros out kept removed; cbn [copy_recent].
  - rewrite Hts, (ge_naive_aware ts cutoff Hn Hc). eexists. reflexivity.
  - destruct (row_timestamp r) as [ts | e]; [| eexists; reflexivity].
    destruct (datetime.ge ts cutoff) as [[|] | e];
      [| apply IH | eexists; reflexivity].
    destruct (csv.DictWriter_writerow fieldnames r) as [line | e];
      [apply IH | eexists; reflexivity].
Qed.

(** A compaction that raises leaves the text of the log as it was. *)
Lemma cleanup_log_raises_log (env : faults) (fs : gmap string string)
    (clock : datetime.reading) :
  raises (cleanup_log env fs clock).2 ->
  (cleanup_log env fs clock).1 !! LOG_FILE = fs !! LOG_FILE.
Proof.
  destruct (fs !! LOG_FILE) as [f |] eqn:Hf.
  2:{ rewrite (cleanup_log_absent env fs clock Hf). intros _. exact Hf. }
  rewrite (cleanup_log_present env fs clock) by (rewrite Hf; eauto).
  destruct (lock_only fs) as [Hlog _]. rewrite Hf in Hlog.
  destruct (datetime.add_timedelta _ _) as [cutoff | e0]; [| intros _; exact Hf].
  destruct (lock_open_fails env); [intros _; exact Hf |].
  destruct (flock_fails env); [intros _; exact Hlog |].
  pose proof (cleanup_try_raises env cutoff (<[LOCK_FILE:=""]> fs)) as Hsafe.
  destruct (cleanup_try env cutoff (<[LOCK_FILE:=""]> fs))
    as [[fs1 tmp_path] r1].
  cbn [fst snd]. intros [e He]. destruct r1 as [counts | e1]; [discriminate |].
  destruct (Hsafe _ _ _ eq_refl) as [[-> ->] | (-> & Hfresh & out & ->)].
  - exact Hlog.
  - rewrite path_exists_insert. unfold os.unlink.
    rewrite (delete_insert_id _ _ _ Hfresh). exact Hlog.
Qed.

Lemma cleanup_log_naive (env : faults) (fs : gmap string string)
    (clock : datetime.reading) :
  Exists naive (entries fs) ->
  raises (cleanup_log env fs clock).2.
Proof.
  intros Hex. unfold entries in Hex.
  destruct (fs !! LOG_FILE) as [f |] eqn:Hf; [| inversion Hex].
  rewrite cleanup_log_present by (rewrite Hf; eauto).
  destruct (datetime.add_timedelta _ _) as [cutoff | e] eqn:Hadd;
    [| eexists; reflexivity].
  apply add_timedelta_wall in Hadd as [_ Hc].
  destruct (lock_open_fails env); [eexists; reflexivity |].
  destruct (flock_fails env); [eexists; reflexivity |].
  cbn [snd]. apply raises_counts.
  unfold cleanup_try.
  rewrite lookup_insert_ne by exact LOCK_FILE_neq_LOG_FILE. rewrite Hf.
  destruct (log_open_fails env); [eexists; reflexivity |].
  destruct (_ || _); [eexists; reflexivity |].
  destruct (csv.writeheader _) as [header | e1]; [| eexists; reflexivity].
  pose proof (copy_recent_naive
                (default [] (csv.DictReader_fieldnames f)) cutoff
                (csv.DictReader f) header 0 0
                ltac:(rewrite Hc; eauto) Hex) as [e He].
  destruct (copy_recent _ _ _ _ _ _) as [out r0]. simpl in He. subst r0.
  eexists. reflexivity.
Qed.

(** X11.  [fromisoformat] accepts a timestamp without UTC offset; the
    functions differ on it.  When the last sent row of a kind has one,
    [should_send] raises [TypeError] (aware minus naive),
    [should_send_morning] compares the dates and does not fail, and
    [cleanup_log] raises and leaves the log as it was. *)
Theorem timestamp_without_offset (cfg : config) (fs : gmap string string)
    (clock : datetime.reading) (kind : string) (r : csv.row)
    (ts : datetime.t) :
  sent_column fs ->
  last (filter (fun r => is_sent kind r) (entries fs)) = Some r ->
  row_timestamp r = Ok ts ->
  datetime.tz ts = None ->
  (forall level window,
      isWithinSendingHours clock = true ->
      throttle_window level kind = Window window ->
      should_send cfg fs clock level kind = Raise TypeError)
  /\ (kind = "morning" ->
      TEST_MODE cfg = false ->
      in_digest_hour clock = true ->
      should_send_morning cfg fs clock
      = Ok (negb (bool_decide (datetime.date ts = today clock))))
  /\ (forall env,
        raises (cleanup_log env fs clock).2
        /\ (cleanup_log env fs clock).1 !! LOG_FILE = fs !! LOG_FILE).
Proof.
  intros Hcol Hlast Hts Hn. split; [| split].
  - intros level window Hh Hw.
    rewrite (should_send_scan _ _ _ _ _ Hcol), Hh, Hw, Hlast, Hts, bind_Ok.
    rewrite sub_aware_naive by (simpl; eauto). reflexivity.
  - intros -> Ht Hh.
    rewrite (should_send_morning_scan _ _ _ Hcol), Ht, Hh, Hlast, Hts.
    reflexivity.
  - intros env.
    assert (Hr : raises (cleanup_log env fs clock).2);
      [| split; [exact Hr | apply cleanup_log_raises_log, Hr]].
    apply cleanup_log_naive.
    apply Exists_exists. exists r. split.
    + apply last_Some_elem_of, list_elem_of_filter in Hlast as [_ Hin].
      exact Hin.
    + exists ts. split; assumption.
Qed.

Lemma timestamp_without_offset_witness :
  (forall level window,
      isWithinSendingHours at_0830 = true ->
      throttle_window level "morning" = Window window ->
      should_send cfg_normal log_naive at_0830 level "morning" = Raise TypeError)
  /\ ("morning" = "morning" ->
      TEST_MODE cfg_normal = false ->
      in_digest_hour at_0830 = true ->
      should_send_morning cfg_normal log_naive at_0830 = Ok false)
  /\ (forall env,
        raises (cleanup_log env log_naive at_0830).2
        /\ (cleanup_log env log_naive at_0830).1 !! LOG_FILE
           = log_naive !! LOG_FILE).
Proof.
  apply (timestamp_without_offset cfg_normal log_naive at_0830 "morning"
           (csv.to_dict LOG_FIELDNAMES
              ["2026-11-03T09:00:00"; "morning"; "95.0"; "True"])
           (datetime.mk 2026 11 3 9 0 0 0 None false)).
  - by_computation.
  - vm_compute. reflexivity.
  - vm_compute. reflexivity.
  - reflexivity.
Defined.

(** ** Compaction: counts and header *)

(** What a run of the copying loop that ends well has done. *)
Lemma copy_recent_ok (fieldnames : list string) (cutoff : datetime.t)
    (rows : list csv.row) (out out' : string) (kept removed kept' removed' : nat) :
  copy_recent fieldnames cutoff rows out kept removed
    = (out', Ok (kept', removed')) ->
  exists written,
    out' = out +:+ csv.writerows written
    /\ kept' = (kept + length written)%nat
    /\ (kept' + removed' = kept + removed + length rows)%nat
    /\ Forall (fun w => exists row,
                 row ∈ rows
                 /\ is_Some (csv.named row !! "timestamp")
                 /\ csv.dict_to_list fieldnames row = Ok w) written.
Proof.
  revert out kept removed.
  induction rows as [| row rows IH]; intros out kept removed; cbn [copy_recent].
  - intros [= <- <- <-]. exists []. simpl. rewrite app_nil_r_str.
    repeat split; try lia. constructor.
  - destruct (row_timestamp row) as [ts | e] eqn:Hts; [| discriminate].
    assert (Hkey : is_Some (csv.named row !! "timestamp")).
    { revert Hts. unfold row_timestamp, csv.getitem.
      destruct (csv.named row !! "timestamp"); [eauto | discriminate]. }
    destruct (datetime.ge ts cutoff) as [[|] | e]; [| | discriminate].
    + unfold csv.DictWriter_writerow.
      destruct (csv.dict_to_list fieldnames row) as [w | e] eqn:Hw;
        [| discriminate].
      rewrite bind_Ok. unfold mret, result_ret. intros H.
      destruct (IH _ _ _ H) as (written & -> & -> & Hsum & Hall).
      exists (w :: written). cbn [csv.writerows foldr length] in *.
      fold (csv.writerows written). rewrite app_assoc_str.
      split; [reflexivity |]. split; [lia |]. split; [lia |].
      constructor.
      * exists row. repeat split; [left | exact Hkey | exact Hw].
      * eapply Forall_impl; [exact Hall |].
        intros w' (row' & Hin & Hk & Hd). exists row'.
        repeat split; [right; exact Hin | exact Hk | exact Hd].
    + intros H. destruct (IH _ _ _ H) as (written & -> & -> & Hsum & Hall).
      exists written. cbn [length] in *.
      split; [reflexivity |]. split; [lia |]. split; [lia |].
      eapply Forall_impl; [exact Hall |].
      intros w' (row' & Hin & Hk & Hd). exists row'.
      repeat split; [right; exact Hin | exact Hk | exact Hd].
Qed.

Lemma dict_to_list_nonblank (fieldnames : list string) (row : csv.row)
    (w : list string) (k : string) :
  csv.dict_to_list fieldnames row = Ok w ->
  is_Some (csv.named row !! k) ->
  csv.nonblank w = true.
Proof.
  unfold csv.dict_to_list. destruct (_ && _) eqn:E; [| discriminate].
  apply andb_prop in E as [_ E]. apply bool_decide_eq_true in E.
  intros [= <-] Hk. apply elem_of_dom in Hk. apply E in Hk.
  apply elem_of_list_to_set in Hk.
  destruct fieldnames; [inversion Hk | reflexivity].
Qed.

Lemma dict_to_list_length (fieldnames : list string) (row : csv.row)
    (w : list string) :
  csv.dict_to_list fieldnames row = Ok w -> length w = length fieldnames.
Proof.
  unfold csv.dict_to_list. destruct (_ && _); [| discriminate].
  intros [= <-]. apply length_fmap.
Qed.

(** A run of the [try] block that ends well: the log is replaced by what
    the loop wrote after the header. *)
Lemma cleanup_try_ok (env : faults) (cutoff : datetime.t)
    (fs fs' : gmap string string) (tmp_path : option string)
    (counts : nat * nat) :
  cleanup_try env cutoff fs = (fs', tmp_path, Ok counts) ->
  exists f fieldnames out,
    fs !! LOG_FILE = Some f
    /\ csv.DictReader_fieldnames f = Some fieldnames
    /\ fs !! tmp_name env = None
    /\ copy_recent fieldnames cutoff (csv.DictReader f)
         (csv.writerow fieldnames) 0 0 = (out, Ok counts)
    /\ fs' = <[LOG_FILE := out]> fs.
Proof.
  unfold cleanup_try.
  destruct (log_open_fails env); [discriminate |].
  destruct (fs !! LOG_FILE) as [f |] eqn:Hf; [| discriminate].
  destruct (mkstemp_fails env || os.path_exists fs (tmp_name env)) eqn:Hmk;
    [discriminate |].
  apply orb_false_iff in Hmk as [_ Hfresh]. apply path_exists_false in Hfresh.
  destruct (csv.DictReader_fieldnames f) as [fn |] eqn:Hfn; [| discriminate].
  simpl csv.writeheader. cbv iota beta. simpl default.
  destruct (copy_recent _ _ _ _ _ _) as [out r] eqn:Hcopy.
  rewrite insert_insert_eq.
  destruct r as [c | e]; [| discriminate].
  destruct (tmp_close_fails env); [discriminate |].
  destruct (replace_fails env); [discriminate |].
  unfold os.replace. rewrite lookup_insert_eq.
  rewrite (delete_insert_id _ _ _ Hfresh).
  intros [= <- _ <-]. exists f, fn, out. repeat split; assumption.
Qed.

Lemma cleanup_log_ok (env : faults) (fs fs' : gmap string string)
    (clock : datetime.reading) (f : string) (counts : nat * nat) :
  fs !! LOG_FILE = Some f ->
  cleanup_log env fs clock = (fs', Ok (Some counts)) ->
  exists cutoff fieldnames out,
    datetime.add_timedelta (datetime.now clock CENTRAL) (- datetime.hours 48)
    = Ok cutoff
    /\ csv.DictReader_fieldnames f = Some fieldnames
    /\ copy_recent fieldnames cutoff (csv.DictReader f)
         (csv.writerow fieldnames) 0 0 = (out, Ok counts)
    /\ fs' = <[LOG_FILE := out]> (<[LOCK_FILE := ""]> fs).
Proof.
  intros Hf. rewrite cleanup_log_present by (rewrite Hf; eauto).
  destruct (datetime.add_timedelta _ _) as [cutoff | e]; [| discriminate].
  destruct (lock_open_fails env); [discriminate |].
  destruct (flock_fails env); [discriminate |].
  destruct (cleanup_try env cutoff (<[LOCK_FILE:=""]> fs))
    as [[fs1 tmp_path] r1] eqn:Htry.
  cbn [fst snd]. destruct r1 as [c | e]; [| discriminate].
  destruct (cleanup_try_ok _ _ _ _ _ _ Htry)
    as (f0 & fn & out & Hf0 & Hfn & Hfresh & Hcopy & ->).
  rewrite lookup_insert_ne in Hf0 by exact LOCK_FILE_neq_LOG_FILE.
  rewrite Hf in Hf0. injection Hf0 as <-.
  revert Htry. unfold cleanup_try at 1. intros Htry.
  assert (tmp_path = None) as ->.
  { revert Htry.
    repeat match goal with
           | |- context [match ?x with _ => _ end] => destruct x
           | |- context [if ?x then _ else _] => destruct x
           end; congruence. }
  intros [= <- <-]. exists cutoff, fn, out. repeat split; assumption.
Qed.

(** X12.  Whatever the log holds, a compaction that ends well reports
    counts that add up to the number of non-blank data rows read; the new
    log is what the CSV writer writes for the old header followed by
    [kept] rows, each with as many fields as the header, and reads back as
    such; no file but the log and the lock file differs from before. *)
Theorem cleanup_log_counts (env : faults) (fs fs' : gmap string string)
    (clock : datetime.reading) (f : string) (kept removed : nat) :
  fs !! LOG_FILE = Some f ->
  cleanup_log env fs clock = (fs', Ok (Some (kept, removed))) ->
  (kept + removed)%nat = length (csv.DictReader f)
  /\ (forall p, p <> LOG_FILE -> p <> LOCK_FILE -> fs' !! p = fs !! p)
  /\ exists fieldnames written,
       csv.DictReader_fieldnames f = Some fieldnames
       /\ fs' !! LOG_FILE = Some (csv.writerows (fieldnames :: written))
       /\ csv.DictReader (csv.writerows (fieldnames :: written))
          = csv.to_dict fieldnames <$> written
       /\ length written = kept
       /\ Forall (fun w => length w = length fieldnames) written.
Proof.
  intros Hf Hrun.
  destruct (cleanup_log_ok _ _ _ _ _ _ Hf Hrun)
    as (cutoff & fn & out & _ & Hfn & Hcopy & ->).
  destruct (copy_recent_ok _ _ _ _ _ _ _ _ _ Hcopy)
    as (written & -> & -> & Hsum & Hall).
  clear Hrun Hcopy. simpl in Hsum.
  split; [lia |]. split.
  { intros p Hp Hq. rewrite !lookup_insert_ne by congruence. reflexivity. }
  exists fn, written.
  split; [exact Hfn |]. split; [apply lookup_insert_eq |].
  split; [| split; [reflexivity |]].
  - unfold csv.DictReader. rewrite reader_writerows. f_equal.
    clear -Hall.
    induction Hall as [| w written (row & _ & Hk & Hw) _ IH]; [reflexivity |].
    rewrite filter_cons.
    rewrite (dict_to_list_nonblank _ _ _ _ Hw Hk).
    rewrite decide_True by exact I. f_equal. exact IH.
  - eapply Forall_impl; [exact Hall |].
    intros w (row & _ & _ & Hw). apply (dict_to_list_length _ _ _ Hw).
Qed.

Lemma cleanup_log_counts_witness :
  (2 + 1)%nat
  = length (csv.DictReader (csv.writerows (LOG_FIELDNAMES :: rows_72_40_1)))
  /\ (forall p, p <> LOG_FILE -> p <> LOCK_FILE ->
        (<[LOCK_FILE := ""]> log_40_1) !! p = log_72_40_1 !! p)
  /\ exists fieldnames written,
       csv.DictReader_fieldnames
         (csv.writerows (LOG_FIELDNAMES :: rows_72_40_1)) = Some fieldnames
       /\ (<[LOCK_FILE := ""]> log_40_1) !! LOG_FILE
          = Some (csv.writerows (fieldnames :: written))
       /\ csv.DictReader (csv.writerows (fieldnames :: written))
          = csv.to_dict fieldnames <$> written
       /\ length written = 2%nat
       /\ Forall (fun w => length w = length fieldnames) written.
Proof.
  apply (cleanup_log_counts env_ok log_72_40_1 _ at_0930).
  - reflexivity.
  - exact cleanup_log_72_40_1.
Defined.

(** X13.  On a log that exists and is empty, [cleanup_log] raises
    [TypeError] ([writeheader] with no field names) and leaves the empty
    log and nothing but the lock file. *)
Theorem cleanup_log_empty_log (env : faults) (fs : gmap string string)
    (clock : datetime.reading) :
  fs !! LOG_FILE = Some "" ->
  no_faults env ->
  fs !! tmp_name env = None ->
  tmp_name env <> LOCK_FILE ->
  valid_reading clock = true ->
  2 <= datetime.r_year clock ->
  cleanup_log env fs clock = (<[LOCK_FILE := ""]> fs, Raise TypeError).
Proof.
  intros Hf (Hlock & Hflock & Hopen & Hmk & Hclose & Hrep) Hfresh Htmp Hv Hy.
  rewrite cleanup_log_present by (rewrite Hf; eauto).
  destruct (cutoff_exists clock Hv Hy) as (cutoff & -> & _ & _).
  rewrite Hlock, Hflock. unfold cleanup_try. rewrite Hopen, Hmk.
  rewrite lookup_insert_ne by exact LOCK_FILE_neq_LOG_FILE. rewrite Hf.
  assert (Hnew : os.path_exists (<[LOCK_FILE:=""]> fs) (tmp_name env) = false).
  { apply path_exists_false. rewrite lookup_insert_ne by congruence.
    exact Hfresh. }
  rewrite Hnew. cbn -[LOCK_FILE LOG_FILE].
  rewrite path_exists_insert. unfold os.unlink.
  rewrite delete_insert_id
    by (rewrite lookup_insert_ne by congruence; exact Hfresh).
  reflexivity.
Qed.

Lemma cleanup_log_empty_log_witness :
  cleanup_log env_ok (<[LOG_FILE := ""]> no_files) at_0930
  = (<[LOCK_FILE := ""]> (<[LOG_FILE := ""]> no_files), Raise TypeError).
Proof.
  apply cleanup_log_empty_log.
  - reflexivity.
  - repeat split.
  - reflexivity.
  - discriminate.
  - reflexivity.
  - vm_compute. discriminate.
Defined.

Lemma DictWriter_surplus (fieldnames : list string) (row : csv.row) :
  csv.rest row <> None ->
  csv.DictWriter_writerow fieldnames row = Raise ValueError.
Proof.
  intros H. unfold csv.DictWriter_writerow, csv.dict_to_list.
  rewrite (bool_decide_eq_false_2 _ H). reflexivity.
Qed.

Lemma copy_recent_surplus (fieldnames : list string) (cutoff : datetime.t)
    (rows : list csv.row) (out : string) (kept removed : nat) :
  Exists (surplus_kept cutoff) rows ->
  raises (copy_recent fieldnames cutoff rows out kept removed).2.
Proof.
  intros Hex. revert out kept removed.
  induction Hex as [r rows (Hrest & ts & Hts & Hge) | r rows _ IH];
    intros out kept removed; cbn [copy_recent].
  - rewrite Hts, Hge, (DictWriter_surplus _ _ Hrest). eexists. reflexivity.
  - destruct (row_timestamp r) as [ts | e]; [| eexists; reflexivity].
    destruct (datetime.ge ts cutoff) as [[|] | e];
      [| apply IH | eexists; reflexivity].
    destruct (csv.DictWriter_writerow fieldnames r) as [line | e];
      [apply IH | eexists; reflexivity].
Qed.

(** X14.  A row with more fields than the header, whose timestamp is at
    most 47 hours old, makes [cleanup_log] raise (the writer refuses the
    surplus key); the log keeps its text. *)
Theorem cleanup_log_surplus_fields (env : faults) (fs : gmap string string)
    (clock : datetime.reading) (row : csv.row) (ts : datetime.t) (o : Z) :
  row ∈ entries fs ->
  csv.rest row <> None ->
  row_timestamp row = Ok ts ->
  datetime.tz ts = Some (datetime.timezone o) ->
  elapsed clock ts <= datetime.hours 47 ->
  raises (cleanup_log env fs clock).2
  /\ (cleanup_log env fs clock).1 !! LOG_FILE = fs !! LOG_FILE.
Proof.
  intros Hin Hrest Hts Ho Hel.
  assert (Hgoal : raises (cleanup_log env fs clock).2).
  2:{ split; [exact Hgoal | apply cleanup_log_raises_log, Hgoal]. }
  unfold entries in Hin.
  destruct (fs !! LOG_FILE) as [f |] eqn:Hf; [| inversion Hin].
  rewrite cleanup_log_present by (rewrite Hf; eauto).
  destruct (datetime.add_timedelta _ _) as [cutoff | e] eqn:Hadd;
    [| eexists; reflexivity].
  apply add_timedelta_wall in Hadd as [Hw Hc].
  destruct (lock_open_fails env); [eexists; reflexivity |].
  destruct (flock_fails env); [eexists; reflexivity |].
  cbn [snd]. apply raises_counts.
  unfold cleanup_try.
  rewrite lookup_insert_ne by exact LOCK_FILE_neq_LOG_FILE. rewrite Hf.
  destruct (log_open_fails env); [eexists; reflexivity |].
  destruct (_ || _); [eexists; reflexivity |].
  destruct (csv.writeheader _) as [header | e1]; [| eexists; reflexivity].
  assert (Hex : Exists (surplus_kept cutoff) (csv.DictReader f)).
  { apply Exists_exists. exists row. split; [exact Hin |].
    split; [exact Hrest |]. exists ts. split; [exact Hts |].
    rewrite (ge_cutoff ts cutoff o Ho Hc). f_equal. apply Z.leb_le.
    assert (Hw' : datetime.wall_us cutoff
                  = datetime.wall_us (datetime.now clock CENTRAL)
                    - datetime.hours 48) by lia.
    pose proof (cutoff_instant clock cutoff Hw').
    rewrite (elapsed_unfold _ _ _ Ho) in Hel. lia. }
  pose proof (copy_recent_surplus
                (default [] (csv.DictReader_fieldnames f)) cutoff
                (csv.DictReader f) header 0 0 Hex) as [e He].
  destruct (copy_recent _ _ _ _ _ _) as [out r0]. simpl in He. subst r0.
  eexists. reflexivity.
Qed.

Lemma cleanup_log_surplus_fields_witness :
  raises (cleanup_log env_ok log_surplus at_0930).2
  /\ (cleanup_log env_ok log_surplus at_0930).1 !! LOG_FILE
     = log_surplus !! LOG_FILE.
Proof.
  apply (cleanup_log_surplus_fields env_ok log_surplus at_0930
           (csv.to_dict LOG_FIELDNAMES
              ["2026-11-03T09:00:00-06:00"; "container"; "95.0"; "True"; "full"])
           ts_0900 (datetime.hours (-6))).
  - vm_compute. left.
  - discriminate.
  - vm_compute. reflexivity.
  - reflexivity.
  - vm_compute. discriminate.
Defined.

(** ** Compaction and the gates *)

(** A log in the documented format, compacted with no failure. *)
Lemma cleanup_log_run (env : faults) (fs : gmap string string)
    (clock : datetime.reading) (f : string) (recs : list (list string))
    (cutoff : datetime.t) :
  no_faults env ->
  fs !! tmp_name env = None ->
  tmp_name env <> LOCK_FILE ->
  fs !! LOG_FILE = Some f ->
  csv.reader f = LOG_FIELDNAMES :: recs ->
  Forall (fun rec => log_record_ok rec = true) recs ->
  datetime.add_timedelta (datetime.now clock CENTRAL) (- datetime.hours 48)
  = Ok cutoff ->
  cleanup_log env fs clock
  = (<[LOG_FILE := csv.writerows
         (LOG_FIELDNAMES :: filter (fun rec => recent cutoff rec) recs)]>
       (<[LOCK_FILE := ""]> fs),
     Ok (Some (length (filter (fun rec => recent cutoff rec) recs),
               (length recs
                - length (filter (fun rec => recent cutoff rec) recs))%nat))).
Proof.
  intros (Hlock & Hflock & Hopen & Hmk & Hclose & Hrep) Hfresh Htmp
    Hf Hread Hok Hadd.
  pose proof (add_timedelta_wall _ _ _ Hadd) as [_ Hc].
  rewrite cleanup_log_present by (rewrite Hf; eauto).
  rewrite Hadd, Hlock, Hflock.
  assert (Htry :
    cleanup_try env cutoff (<[LOCK_FILE:=""]> fs)
    = (<[LOG_FILE := csv.writerows
           (LOG_FIELDNAMES :: filter (fun rec => recent cutoff rec) recs)]>
         (<[LOCK_FILE := ""]> fs), None,
       Ok (length (filter (fun rec => recent cutoff rec) recs),
           (length recs
            - length (filter (fun rec => recent cutoff rec) recs))%nat))).
  { unfold cleanup_try. rewrite Hopen, Hmk.
    rewrite lookup_insert_ne by exact LOCK_FILE_neq_LOG_FILE. rewrite Hf.
    assert (Hnew : os.path_exists (<[LOCK_FILE:=""]> fs) (tmp_name env) = false).
    { apply path_exists_false. rewrite lookup_insert_ne by congruence.
      exact Hfresh. }
    rewrite Hnew. cbv iota beta. simpl orb. cbv iota.
    unfold csv.DictReader_fieldnames, csv.DictReader. rewrite Hread.
    simpl head. simpl csv.writeheader. simpl default.
    rewrite (nonblank_records recs Hok).
    rewrite (copy_recent_records cutoff recs _ 0 0 Hc Hok).
    rewrite insert_insert_eq, Hclose, Hrep.
    unfold os.replace. rewrite lookup_insert_eq.
    rewrite delete_insert_id
      by (rewrite lookup_insert_ne by congruence; exact Hfresh).
    reflexivity. }
  rewrite Htry. reflexivity.
Qed.

Lemma filter_recent_ok (cutoff : datetime.t) (recs : list (list string)) :
  Forall (fun rec => log_record_ok rec = true) recs ->
  Forall (fun rec => log_record_ok rec = true)
    (filter (fun rec => recent cutoff rec) recs).
Proof.
  rewrite !Forall_forall. intros H rec Hin.
  apply list_elem_of_filter in Hin as [_ Hin]. apply H, Hin.
Qed.

(** X15.  On a log in the documented format, a compaction that ended
    well, run again at the same clock reading, changes nothing: it removes
    no row and leaves every file as it is. *)
Theorem cleanup_log_idempotent (env : faults) (fs fs1 : gmap string string)
    (clock : datetime.reading) (f : string) (recs : list (list string))
    (kept removed : nat) :
  no_faults env ->
  fs !! tmp_name env = None ->
  tmp_name env <> LOCK_FILE ->
  fs !! LOG_FILE = Some f ->
  csv.reader f = LOG_FIELDNAMES :: recs ->
  Forall (fun rec => log_record_ok rec = true) recs ->
  cleanup_log env fs clock = (fs1, Ok (Some (kept, removed))) ->
  cleanup_log env fs1 clock = (fs1, Ok (Some (kept, 0%nat))).
Proof.
  intros Hnf Hfresh Htmp Hf Hread Hok Hrun.
  destruct (cleanup_log_ok _ _ _ _ _ _ Hf Hrun)
    as (cutoff & _ & _ & Hadd & _ & _ & _).
  rewrite (cleanup_log_run env fs clock f recs cutoff Hnf Hfresh Htmp Hf Hread
             Hok Hadd) in Hrun.
  injection Hrun as <- <- _.
  set (kept := filter (fun rec => recent cutoff rec) recs).
  assert (Hneq : tmp_name env <> LOG_FILE) by (intros E; congruence).
  rewrite (cleanup_log_run env _ clock (csv.writerows (LOG_FIELDNAMES :: kept))
             kept cutoff Hnf).
  - subst kept. rewrite list_filter_filter.
    rewrite (list_filter_iff _ (fun rec => recent cutoff rec)) by tauto.
    rewrite Nat.sub_diag. f_equal.
    apply map_eq. intros p.
    destruct (decide (p = LOG_FILE)) as [-> | Hp];
      [rewrite !lookup_insert_eq; reflexivity |].
    rewrite !(lookup_insert_ne _ LOG_FILE) by congruence.
    destruct (decide (p = LOCK_FILE)) as [-> | Hq];
      [rewrite !lookup_insert_eq; reflexivity |].
    rewrite !lookup_insert_ne by congruence. reflexivity.
  - rewrite !lookup_insert_ne by congruence. exact Hfresh.
  - exact Htmp.
  - apply lookup_insert_eq.
  - apply reader_writerows.
  - apply filter_recent_ok, Hok.
  - exact Hadd.
Qed.

Lemma cleanup_log_idempotent_witness :
  cleanup_log env_ok (<[LOCK_FILE := ""]> log_40_1) at_0930
  = (<[LOCK_FILE := ""]> log_40_1, Ok (Some (2%nat, 0%nat))).
Proof.
  apply (cleanup_log_idempotent env_ok log_72_40_1 _ at_0930
           (csv.writerows (LOG_FIELDNAMES :: rows_72_40_1)) rows_72_40_1
           2 1).
  - repeat split.
  - reflexivity.
  - discriminate.
  - reflexivity.
  - apply reader_writerows.
  - repeat constructor.
  - exact cleanup_log_72_40_1.
Defined.

Lemma parse_tz_range z o :
  datetime.parse_tz z = Some (Some (datetime.timezone o)) ->
  datetime.hours (-24) < o < datetime.hours 24.
Proof.
  unfold datetime.parse_tz. destruct z as [[neg zs] |]; [| discriminate].
  destruct (_ || _); [| discriminate].
  destruct (datetime.parse_hh_mm_ss_ff zs) as [[[[hh mm] ss] us] |];
    [| discriminate].
  simpl. destruct (_ && _) eqn:E; [| discriminate]. intros [= <-].
  apply andb_prop in E as [E1 E2].
  apply Z.ltb_lt in E1, E2. lia.
Qed.

(** What [fromisoformat] returns is a date and a time of day that exist,
    with an offset of less than a day. *)
Lemma fromisoformat_valid (s : string) (ts : datetime.t) :
  datetime.fromisoformat s = Ok ts ->
  datetime.valid_fields (datetime.year ts) (datetime.month ts)
    (datetime.day ts) (datetime.hour ts) (datetime.minute ts)
    (datetime.second ts) (datetime.microsecond ts) = true
  /\ (forall o, datetime.tz ts = Some (datetime.timezone o) ->
        datetime.hours (-24) < o < datetime.hours 24).
Proof.
  unfold datetime.fromisoformat.
  destruct (datetime.parse_isoformat s) as [d |] eqn:E; [| discriminate].
  intros [= <-]. revert E. unfold datetime.parse_isoformat.
  intros E. simplify_option_eq.
  repeat match goal with
         | H : context [match ?x with _ => _ end] |- _ =>
             destruct x eqn:?; simplify_option_eq
         end; simpl; (split; [assumption |]); intros off Hoff;
    try discriminate; simplify_eq; eauto using parse_tz_range.
Qed.

Lemma entries_records (fs : gmap string string) (f : string)
    (recs : list (list string)) :
  fs !! LOG_FILE = Some f ->
  csv.reader f = LOG_FIELDNAMES :: recs ->
  Forall (fun rec => log_record_ok rec = true) recs ->
  entries fs = csv.to_dict LOG_FIELDNAMES <$> recs.
Proof.
  intros Hf Hread Hok. rewrite (entries_lookup _ _ Hf).
  rewrite (DictReader_records _ _ _ Hread), (nonblank_records _ Hok).
  reflexivity.
Qed.

Lemma sent_column_records (fs : gmap string string) (f : string)
    (recs : list (list string)) :
  fs !! LOG_FILE = Some f ->
  csv.reader f = LOG_FIELDNAMES :: recs ->
  sent_column fs.
Proof.
  intros Hf Hread. apply sent_column_fieldnames. intros f' Hf'.
  rewrite Hf in Hf'. injection Hf' as <-. exists LOG_FIELDNAMES.
  split; [unfold csv.DictReader_fieldnames; rewrite Hread; reflexivity |].
  unfold LOG_FIELDNAMES. set_solver.
Qed.

(** The last element that passes a test is still the last one after the
    list is thinned out, when the thinning keeps it. *)
Lemma last_filter_fmap_kept {A B} (g : A -> B) (P : B -> Prop)
    `{forall y, Decision (P y)} (Q : A -> Prop) `{forall x, Decision (Q x)}
    (l : list A) (y : B) :
  last (filter P (g <$> l)) = Some y ->
  (forall x, x ∈ l -> g x = y -> Q x) ->
  last (filter P (g <$> filter Q l)) = Some y.
Proof.
  induction l as [| x l IH] using rev_ind; [discriminate |].
  rewrite fmap_app, !filter_app. cbn [fmap list_fmap].
  rewrite !filter_cons, !filter_nil. intros Hlast Hkept.
  assert (IH' : last (filter P (g <$> l)) = Some y ->
                last (filter P (g <$> filter Q l)) = Some y).
  { intros Hl. apply IH; [exact Hl |]. intros x' Hin. apply Hkept.
    apply elem_of_app. left. exact Hin. }
  destruct (decide (P (g x))) as [HP | HP].
  - rewrite last_snoc in Hlast. injection Hlast as Hy.
    rewrite decide_True
      by (apply Hkept; [apply elem_of_app; right; left | exact Hy]).
    rewrite fmap_app, filter_app. cbn [fmap list_fmap].
    rewrite filter_cons, decide_True by exact HP.
    rewrite filter_nil, last_snoc. congruence.
  - rewrite app_nil_r in Hlast.
    destruct (decide (Q x)).
    + rewrite fmap_app, filter_app. cbn [fmap list_fmap].
      rewrite filter_cons, decide_False by exact HP.
      rewrite filter_nil, app_nil_r. apply IH', Hlast.
    + rewrite app_nil_r. apply IH', Hlast.
Qed.

Lemma recent_record (cutoff ts : datetime.t) (rec : list string) (o : Z) :
  datetime.tz cutoff = Some CENTRAL ->
  log_record_ok rec = true ->
  row_timestamp (csv.to_dict LOG_FIELDNAMES rec) = Ok ts ->
  datetime.tz ts = Some (datetime.timezone o) ->
  recent cutoff rec
  = ((datetime.wall_us cutoff - datetime.chicago_utcoffset cutoff)
     <=? (datetime.wall_us ts - o)).
Proof.
  intros Hc Hrec Hts Ho.
  destruct (log_record_ok_inv rec Hrec)
    as (a & b & c & d & ts' & o' & -> & Hts' & _).
  rewrite row_timestamp_record in Hts. unfold recent.
  rewrite Hts, (ge_cutoff ts cutoff o Ho Hc). reflexivity.
Qed.

(** A timestamp dated on the day of a clock reading taken before 9 is at
    most 33 hours before that reading. *)
Lemma same_day_instant (clock : datetime.reading) (ts : datetime.t) (o : Z) :
  valid_reading clock = true ->
  datetime.r_hour clock < 9 ->
  datetime.valid_fields (datetime.year ts) (datetime.month ts)
    (datetime.day ts) (datetime.hour ts) (datetime.minute ts)
    (datetime.second ts) (datetime.microsecond ts) = true ->
  datetime.hours (-24) < o < datetime.hours 24 ->
  datetime.date ts = today clock ->
  instant clock - datetime.hours 39 < datetime.wall_us ts - o.
Proof.
  intros Hv Hh Hvalid Ho Hdate.
  destruct (valid_reading_ord clock Hv) as (_ & Hmi & Hs & Hus & _ & _).
  unfold datetime.valid_fields in Hvalid.
  repeat (apply andb_prop in Hvalid as [Hvalid ?]).
  repeat match goal with
         | H : (_ <=? _) = true |- _ => apply Z.leb_le in H
         end.
  unfold today, datetime.date in Hdate.
  cbn [datetime.year datetime.month datetime.day datetime.now] in Hdate.
  injection Hdate as Hyr Hmo Hda.
  rewrite instant_unfold, !wall_us_fields.
  cbn [datetime.year datetime.month datetime.day datetime.hour
       datetime.minute datetime.second datetime.microsecond datetime.now].
  rewrite Hyr, Hmo, Hda.
  destruct (chicago_utcoffset_cases (datetime.now clock CENTRAL))
    as [-> | ->]; unfold datetime.hours in *; lia.
Qed.

(** A sent row stays the last one of its kind when its timestamp is not
    before the cutoff. *)
Lemma last_sent_kept (recs : list (list string)) (cutoff : datetime.t)
    (kind : string) (r : csv.row) (ts : datetime.t) :
  Forall (fun rec => log_record_ok rec = true) recs ->
  datetime.tz cutoff = Some CENTRAL ->
  last (filter (fun r => is_sent kind r) (csv.to_dict LOG_FIELDNAMES <$> recs))
  = Some r ->
  row_timestamp r = Ok ts ->
  exists o,
    datetime.tz ts = Some (datetime.timezone o)
    /\ datetime.hours (-24) < o < datetime.hours 24
    /\ datetime.valid_fields (datetime.year ts) (datetime.month ts)
         (datetime.day ts) (datetime.hour ts) (datetime.minute ts)
         (datetime.second ts) (datetime.microsecond ts) = true
    /\ (datetime.wall_us cutoff - datetime.chicago_utcoffset cutoff
        <= datetime.wall_us ts - o ->
        last (filter (fun r => is_sent kind r)
                (csv.to_dict LOG_FIELDNAMES
                 <$> filter (fun rec => recent cutoff rec) recs)) = Some r).
Proof.
  intros Hok Hzone Hlast Hts.
  assert (Hin : r ∈ csv.to_dict LOG_FIELDNAMES <$> recs).
  { apply last_Some_elem_of in Hlast.
    apply list_elem_of_filter in Hlast as [_ Hlast]. exact Hlast. }
  apply list_elem_of_fmap in Hin as (rec & -> & Hin).
  pose proof (proj1 (Forall_forall _ _) Hok rec Hin) as Hrec.
  destruct (log_record_ok_inv rec Hrec)
    as (a & b & c & d & ts' & o & -> & Hts' & Ho).
  rewrite row_timestamp_record, Hts' in Hts. injection Hts as ->.
  destruct (fromisoformat_valid _ _ Hts') as [Hvalid Hrange].
  exists o. split; [exact Ho |]. split; [apply Hrange, Ho |].
  split; [exact Hvalid |]. intros Hle.
  apply (last_filter_fmap_kept _ _ (fun rec => recent cutoff rec));
    [exact Hlast |].
  intros rec' Hin' Heq.
  pose proof (proj1 (Forall_forall _ _) Hok rec' Hin') as Hrec'.
  assert (Hts2 : row_timestamp (csv.to_dict LOG_FIELDNAMES rec') = Ok ts).
  { rewrite Heq, row_timestamp_record. exact Hts'. }
  rewrite (recent_record cutoff ts rec' o Hzone Hrec' Hts2 Ho).
  apply Is_true_true, Z.leb_le, Hle.
Qed.

(** The gates before and after a compaction with no failure: both scan a
    log with the canonical header, the second one the rows kept. *)
Lemma cleanup_log_scans (env : faults) (fs : gmap string string)
    (clock : datetime.reading) (f : string) (recs : list (list string)) :
  no_faults env ->
  fs !! tmp_name env = None ->
  tmp_name env <> LOCK_FILE ->
  valid_reading clock = true ->
  2 <= datetime.r_year clock ->
  fs !! LOG_FILE = Some f ->
  csv.reader f = LOG_FIELDNAMES :: recs ->
  Forall (fun rec => log_record_ok rec = true) recs ->
  exists cutoff,
    datetime.wall_us cutoff
    = datetime.wall_us (datetime.now clock CENTRAL) - datetime.hours 48
    /\ datetime.tz cutoff = Some CENTRAL
    /\ sent_column fs
    /\ sent_column (cleanup_log env fs clock).1
    /\ entries fs = csv.to_dict LOG_FIELDNAMES <$> recs
    /\ entries (cleanup_log env fs clock).1
       = csv.to_dict LOG_FIELDNAMES
         <$> filter (fun rec => recent cutoff rec) recs.
Proof.
  intros Hnf Hfresh Htmp Hv Hy Hf Hread Hok.
  destruct (cutoff_exists clock Hv Hy) as (cutoff & Hadd & Hw & Hc).
  exists cutoff. split; [exact Hw |]. split; [exact Hc |].
  rewrite (cleanup_log_run env fs clock f recs cutoff Hnf Hfresh Htmp Hf Hread
             Hok Hadd).
  cbn [fst].
  set (fs1 := <[LOG_FILE := _]> _).
  assert (Hf1 : fs1 !! LOG_FILE
                = Some (csv.writerows
                          (LOG_FIELDNAMES
                           :: filter (fun rec => recent cutoff rec) recs)))
    by apply lookup_insert_eq.
  pose proof (reader_writerows
                (LOG_FIELDNAMES :: filter (fun rec => recent cutoff rec) recs))
    as Hread1.
  split; [exact (sent_column_records _ _ _ Hf Hread) |].
  split; [exact (sent_column_records _ _ _ Hf1 Hread1) |].
  split; [exact (entries_records _ _ _ Hf Hread Hok) |].
  exact (entries_records _ _ _ Hf1 Hread1 (filter_recent_ok cutoff _ Hok)).
Qed.

(** X16.  Compaction never reopens a gate.  On a log in the documented
    format, compacted at one clock reading with no failure: an alert that
    [should_send] refuses at that or a later reading it still refuses on
    the compacted log, and a digest that [should_send_morning] refuses it
    still refuses. *)
Theorem cleanup_keeps_throttle (cfg : config) (env : faults)
    (fs : gmap string string) (clock clock' : datetime.reading) (f : string)
    (recs : list (list string)) :
  no_faults env ->
  fs !! tmp_name env = None ->
  tmp_name env <> LOCK_FILE ->
  valid_reading clock = true ->
  2 <= datetime.r_year clock ->
  fs !! LOG_FILE = Some f ->
  csv.reader f = LOG_FIELDNAMES :: recs ->
  Forall (fun rec => log_record_ok rec = true) recs ->
  instant clock <= instant clock' ->
  (forall level kind,
      should_send cfg fs clock' level kind = Ok false ->
      should_send cfg (cleanup_log env fs clock).1 clock' level kind = Ok false)
  /\ (valid_reading clock' = true ->
      should_send_morning cfg fs clock' = Ok false ->
      should_send_morning cfg (cleanup_log env fs clock).1 clock' = Ok false).
Proof.
  intros Hnf Hfresh Htmp Hv Hy Hf Hread Hok Hlater.
  destruct (cleanup_log_scans env fs clock f recs Hnf Hfresh Htmp Hv Hy Hf
              Hread Hok) as (cutoff & Hw & Hc & Hcol & Hcol1 & He & He1).
  set (fs1 := (cleanup_log env fs clock).1) in *. clearbody fs1.
  pose proof (cutoff_instant clock cutoff Hw) as Hcut.
  split.
  - intros level kind.
    rewrite (should_send_scan _ _ _ _ _ Hcol), (should_send_scan _ _ _ _ _ Hcol1).
    rewrite He, He1.
    destruct (isWithinSendingHours clock'); [| intros H; exact H].
    destruct (throttle_window level kind) as [b | window] eqn:Hwin;
      [intros H; exact H |].
    destruct (last (filter _ (csv.to_dict LOG_FIELDNAMES <$> recs)))
      as [r |] eqn:Hlast; [| discriminate].
    destruct (row_timestamp r) as [ts | e] eqn:Hts; [| discriminate].
    destruct (last_sent_kept recs cutoff kind r ts Hok Hc Hlast Hts)
      as (o & Ho & Hrange & _ & Hkeep).
    rewrite bind_Ok, (sub_now clock' ts o Ho), bind_Ok.
    destruct window as [w |]; [| discriminate].
    destruct (elapsed clock' ts <? w) eqn:Hlt; [| discriminate].
    intros _. rewrite Hkeep.
    + rewrite Hts, bind_Ok, (sub_now clock' ts o Ho), bind_Ok, Hlt.
      reflexivity.
    + apply Z.ltb_lt in Hlt. rewrite (elapsed_unfold _ _ _ Ho) in Hlt.
      destruct (throttle_window_hours _ _ _ Hwin) as [-> | ->];
        unfold datetime.hours in *; lia.
  - intros Hv'.
    rewrite (should_send_morning_scan _ _ _ Hcol),
      (should_send_morning_scan _ _ _ Hcol1).
    rewrite He, He1.
    destruct (TEST_MODE cfg); [intros H; exact H |].
    destruct (in_digest_hour clock') eqn:Hh; [| intros H; exact H].
    destruct (last (filter _ (csv.to_dict LOG_FIELDNAMES <$> recs)))
      as [r |] eqn:Hlast; [| discriminate].
    destruct (row_timestamp r) as [ts | e] eqn:Hts; [| discriminate].
    destruct (last_sent_kept recs cutoff "morning" r ts Hok Hc Hlast Hts)
      as (o & Ho & Hrange & Hvalid & Hkeep).
    rewrite bind_Ok. intros H. rewrite Hkeep.
    + rewrite Hts, bind_Ok. exact H.
    + injection H as H. apply negb_false_iff, bool_decide_eq_true in H.
      unfold in_digest_hour in Hh. apply andb_prop in Hh as [_ Hh].
      apply Z.ltb_lt in Hh.
      pose proof (same_day_instant clock' ts o Hv' Hh Hvalid Hrange H).
      unfold datetime.hours in *. lia.
Qed.

Lemma cleanup_keeps_throttle_witness :
  should_send cfg_normal (cleanup_log env_ok log_alert_and_digest at_0830).1
    at_0830 95 "container" = Ok false
  /\ should_send_morning cfg_normal
       (cleanup_log env_ok log_alert_and_digest at_0830).1 at_0830 = Ok false.
Proof.
  destruct (cleanup_keeps_throttle cfg_normal env_ok log_alert_and_digest
              at_0830 at_0830
              (csv.writerows
                 (LOG_FIELDNAMES
                  :: [["2026-11-03T08:00:00-06:00"; "container"; "95.0"; "True"];
                      ["2026-11-03T08:10:00-06:00"; "morning"; "95.0"; "True"]]))
              [["2026-11-03T08:00:00-06:00"; "container"; "95.0"; "True"];
               ["2026-11-03T08:10:00-06:00"; "morning"; "95.0"; "True"]])
    as [Ha Hd].
  - repeat split.
  - reflexivity.
  - discriminate.
  - reflexivity.
  - vm_compute. discriminate.
  - reflexivity.
  - apply reader_writerows.
  - repeat constructor.
  - apply Z.le_refl.
  - split.
    + apply Ha. vm_compute. reflexivity.
    + apply Hd; [reflexivity | vm_compute; reflexivity].
Defined.

(** ** Compaction and logging *)

(** The row [log_reading] writes at a clock reading that exists is a row
    of the documented format, and a compaction started at most 47 hours
    later keeps it. *)
Lemma row_of_recent (clock clock' : datetime.reading) (cutoff : datetime.t)
    (level : Q) (sent : bool) (msg_type : string) :
  valid_reading clock' = true ->
  datetime.add_timedelta (datetime.now clock CENTRAL) (- datetime.hours 48)
  = Ok cutoff ->
  instant clock - datetime.hours 47 <= instant clock' ->
  log_record_ok (row_of clock' level sent msg_type) = true
  /\ recent cutoff (row_of clock' level sent msg_type) = true.
Proof.
  intros Hv Hadd Hlate.
  destruct (add_timedelta_wall _ _ _ Hadd) as [Hw Hc].
  pose proof (fromisoformat_isoformat clock' Hv) as Hts.
  fold (logged_at clock') in Hts.
  assert (Hok : log_record_ok (row_of clock' level sent msg_type) = true).
  { unfold log_record_ok, row_of. rewrite Hts.
    apply bool_decide_eq_true. eexists. reflexivity. }
  split; [exact Hok |].
  rewrite (recent_record cutoff (logged_at clock') _
             (datetime.chicago_utcoffset (datetime.now clock' CENTRAL)) Hc Hok).
  - apply Z.leb_le.
    pose proof (cutoff_instant clock cutoff Hw) as Hcut.
    rewrite (instant_unfold clock') in Hlate.
    change (datetime.wall_us (logged_at clock'))
      with (datetime.wall_us (datetime.now clock' CENTRAL)).
    lia.
  - rewrite to_dict_row_of, row_timestamp_reading_row. exact Hts.
  - reflexivity.
Qed.

(** X21.  Compaction and logging commute on a fresh row.  On a log in the
    documented format that a compaction at one clock reading rewrites with
    no failure, a reading logged no more than 47 hours before that clock
    reading (or after it) is kept: compacting the log with the row appended
    keeps one row more, removes as many, and leaves the very file system
    that logging the row after the compaction leaves. *)
Theorem cleanup_log_reading_commute (env : faults)
    (fs : gmap string string) (clock clock' : datetime.reading)
    (f : string) (recs : list (list string)) (level : Q) (sent : bool)
    (msg_type : string) :
  no_faults env ->
  fs !! tmp_name env = None ->
  tmp_name env <> LOCK_FILE ->
  fs !! LOG_FILE = Some f ->
  csv.reader f = LOG_FIELDNAMES :: recs ->
  record_boundary f ->
  Forall (fun rec => log_record_ok rec = true) recs ->
  valid_reading clock' = true ->
  instant clock - datetime.hours 47 <= instant clock' ->
  forall fs1 kept removed,
    cleanup_log env fs clock = (fs1, Ok (Some (kept, removed))) ->
    exists fs2 fs3,
      log_reading fs clock' level sent msg_type = Ok fs2
      /\ cleanup_log env fs2 clock = (fs3, Ok (Some (S kept, removed)))
      /\ log_reading fs1 clock' level sent msg_type = Ok fs3.
Proof.
  intros Hnf Hfresh Htmp Hf Hread Hb Hok Hv Hlate fs1 kept removed Hrun.
  destruct (cleanup_log_ok _ _ _ _ _ _ Hf Hrun)
    as (cutoff & _ & _ & Hadd & _ & _ & _).
  rewrite (cleanup_log_run env fs clock f recs cutoff Hnf Hfresh Htmp Hf Hread
             Hok Hadd) in Hrun.
  injection Hrun as <- <- <-.
  destruct (row_of_recent clock clock' cutoff level sent msg_type Hv Hadd Hlate)
    as [Hrow Hrec].
  set (r := row_of clock' level sent msg_type) in *.
  assert (Hneq : tmp_name env <> LOG_FILE) by (intros E; congruence).
  assert (Hex : os.path_exists fs LOG_FILE = true).
  { apply bool_decide_eq_true. rewrite Hf. eauto. }
  rewrite !log_reading_row. fold r.
  rewrite Hf, Hex, lookup_insert_eq, path_exists_insert.
  simpl default.
  change ("" +:+ csv.writerow r) with (csv.writerow r).
  eexists _, _. split; [reflexivity |]. split; [| reflexivity].
  rewrite (cleanup_log_run env _ clock (f +:+ csv.writerow r) (recs ++ [r])
             cutoff Hnf).
  - rewrite (filter_snoc_true (fun rec => recent cutoff rec) recs r)
      by (apply Is_true_true; exact Hrec).
    rewrite !length_app. cbn [length].
    replace (length recs + 1
             - (length (filter (fun rec => recent cutoff rec) recs) + 1))%nat
      with (length recs
            - length (filter (fun rec => recent cutoff rec) recs))%nat by lia.
    rewrite Nat.add_1_r. f_equal.
    rewrite insert_insert_eq. apply map_eq. intros p.
    destruct (decide (p = LOG_FILE)) as [-> | Hp].
    + rewrite !lookup_insert_eq. f_equal.
      change (LOG_FIELDNAMES :: filter (fun rec => recent cutoff rec) recs
              ++ [r])
        with ((LOG_FIELDNAMES :: filter (fun rec => recent cutoff rec) recs)
              ++ [r]).
      rewrite writerows_app, writerows_one. reflexivity.
    + rewrite !(lookup_insert_ne _ LOG_FILE) by congruence.
      destruct (decide (p = LOCK_FILE)) as [-> | Hq];
        [rewrite !lookup_insert_eq; reflexivity |].
      rewrite !lookup_insert_ne by congruence. reflexivity.
  - rewrite lookup_insert_ne by congruence. exact Hfresh.
  - exact Htmp.
  - apply lookup_insert_eq.
  - rewrite Hb, Hread, reader_writerow. reflexivity.
  - apply Forall_app. split; [exact Hok | repeat constructor; exact Hrow].
  - exact Hadd.
Qed.

Lemma cleanup_log_reading_commute_witness :
  exists fs2 fs3,
    log_reading log_72_40_1 at_1000 95 true "container" = Ok fs2
    /\ cleanup_log env_ok fs2 at_0930 = (fs3, Ok (Some (3%nat, 1%nat)))
    /\ log_reading (<[LOCK_FILE := ""]> log_40_1) at_1000 95 true "container"
       = Ok fs3.
Proof.
  apply (cleanup_log_reading_commute env_ok log_72_40_1 at_0930 at_1000
           (csv.writerows (LOG_FIELDNAMES :: rows_72_40_1)) rows_72_40_1
           95 true "container").
  - repeat split.
  - reflexivity.
  - discriminate.
  - reflexivity.
  - apply reader_writerows.
  - apply record_boundary_writerows.
  - repeat constructor.
  - reflexivity.
  - vm_compute. discriminate.
  - exact cleanup_log_72_40_1.
Defined.

(** ** The sand level as a float *)

(** A quotient by 450 loses eight binary orders of magnitude, a product by
    100 gains less than seven. *)
Lemma litter_product_bounds (mm : Q) :
  (Qabs mm <= float.pow2 1024)%Q ->
  (Qabs (float.div mm 450) <= float.pow2 1016)%Q
  /\ (Qabs (float.mul (float.div mm 450) 100) <= float.pow2 1023)%Q.
Proof.
  intros Hmm.
  assert (H1 : (Qabs (float.div mm 450) <= float.pow2 1016)%Q).
  { apply round_le_pow2; [lia |].
    unfold Qdiv. rewrite Qabs_Qmult.
    change (Qabs (/ 450)) with (1 # 450)%Q.
    apply Qle_trans with (float.pow2 1024 * (1 # 450))%Q.
    - apply Qmult_le_compat_r; [exact Hmm | discriminate].
    - replace 1024 with (1016 + 8) by reflexivity. rewrite pow2_add.
      rewrite <- Qmult_assoc.
      rewrite <- (Qmult_1_r (float.pow2 1016)) at 2.
      apply Qmult_le_l; [apply pow2_pos |]. vm_compute. discriminate. }
  split; [exact H1 |].
  apply round_le_pow2; [lia |].
  rewrite Qabs_Qmult.
  change (Qabs 100) with 100%Q.
  apply Qle_trans with (float.pow2 1016 * 100)%Q.
  - apply Qmult_le_compat_r; [exact H1 | discriminate].
  - replace 1023 with (1016 + 7) by reflexivity. rewrite pow2_add.
    apply Qmult_le_l; [apply pow2_pos |]. vm_compute. discriminate.
Qed.


(** X22.  The sand level never overflows.  For every finite reading
    [litterLevel], the level [main] computes, the float quotient by 450,
    is finite, and so is the float product by 100 that [main] logs and
    [litter_level_message] prints: neither is ever [inf]. *)
Theorem litter_product_finite (mm : Q) :
  float.finite mm ->
  float.finite (litterlevel_of mm)
  /\ float.finite (float.mul (litterlevel_of mm) 100).
Proof.
  unfold float.finite, litterlevel_of. intros Hmm.
  destruct (litter_product_bounds mm (Qlt_le_weak _ _ Hmm)) as [H1 H2].
  split; (eapply Qle_lt_trans; [eassumption |]);
    apply Qpower_lt_compat_l; [lia | reflexivity | lia | reflexivity].
Qed.

Lemma litter_product_finite_witness :
  float.finite (litterlevel_of 90)
  /\ float.finite (float.mul (litterlevel_of 90) 100).
Proof.
  apply (litter_product_finite 90). vm_compute. reflexivity.
Defined.

(** ** The configured numbers *)

Lemma split_cons (sep : ascii) (s : string) :
  exists p ps, str.split sep s = p :: ps.
Proof.
  induction s as [| c s (p & ps & IH)]; simpl; [eauto |].
  destruct (Ascii.eqb c sep); [eauto |]. rewrite IH. eauto.
Qed.

Lemma length_split (sep : ascii) (s : string) :
  length (str.split sep s) = S (count sep s).
Proof.
  induction s as [| c s IH]; simpl; [reflexivity |].
  destruct (Ascii.eqb c sep); simpl; [rewrite IH; reflexivity |].
  destruct (split_cons sep s) as (p & ps & E). rewrite E in *. exact IH.
Qed.

Lemma count_split (sep : ascii) (s : string) :
  Forall (fun p => count sep p = O) (str.split sep s).
Proof.
  induction s as [| c s IH]; simpl; [repeat constructor |].
  destruct (Ascii.eqb c sep) eqn:E; [constructor; [reflexivity | exact IH] |].
  destruct (str.split sep s) as [| p ps]; [repeat constructor; simpl; rewrite E; reflexivity |].
  inversion IH as [| ? ? Hp Hps]; subst. constructor; [| exact Hps].
  simpl. rewrite E, Hp. reflexivity.
Qed.

Lemma join_cons (sep p q : string) (ps : list string) :
  str.join sep (p :: q :: ps) = p +:+ sep +:+ str.join sep (q :: ps).
Proof. reflexivity. Qed.

Lemma join_split (sep : ascii) (s : string) :
  str.join (String sep "") (str.split sep s) = s.
Proof.
  induction s as [| c s IH]; [reflexivity |]. cbn [str.split].
  destruct (split_cons sep s) as (p & ps & E). rewrite E in *.
  destruct (Ascii.eqb c sep) eqn:Ec.
  - apply Ascii.eqb_eq in Ec. subst c. rewrite join_cons, IH. reflexivity.
  - destruct ps as [| q ps].
    + cbn [str.join] in *. rewrite IH. reflexivity.
    + rewrite join_cons in *. rewrite app_cons_str, IH. reflexivity.
Qed.

Lemma count_lstrip (c : ascii) (s : string) :
  (count c (str.lstrip s) <= count c s)%nat.
Proof.
  induction s as [| c' s IH]; simpl; [lia |].
  destruct (str.isspace c'); simpl; lia.
Qed.

Lemma count_rstrip (c : ascii) (s : string) :
  (count c (str.rstrip s) <= count c s)%nat.
Proof.
  induction s as [| c' s IH]; simpl; [lia |].
  destruct (str.rstrip s) as [| c'' r]; simpl in *.
  - destruct (str.isspace c'); simpl; lia.
  - lia.
Qed.

Lemma starts_clean_lstrip (s : string) : starts_clean (str.lstrip s).
Proof.
  induction s as [| c s IH]; simpl; [exact I |].
  destruct (str.isspace c) eqn:E; [exact IH | exact E].
Qed.

Lemma lstrip_starts_clean (s : string) : starts_clean s -> str.lstrip s = s.
Proof. destruct s as [| c s]; simpl; [reflexivity |]. intros ->. reflexivity. Qed.

Lemma starts_clean_rstrip (s : string) :
  starts_clean s -> starts_clean (str.rstrip s).
Proof.
  destruct s as [| c s]; simpl; [intros _; exact I |]. intros E.
  destruct (str.rstrip s); [rewrite E |]; exact E.
Qed.

Lemma rstrip_cons (c : ascii) (s : string) :
  str.rstrip (String c s)
  = match str.rstrip s with
    | EmptyString => if str.isspace c then EmptyString else String c EmptyString
    | r => String c r
    end.
Proof. reflexivity. Qed.

Lemma rstrip_rstrip (s : string) : str.rstrip (str.rstrip s) = str.rstrip s.
Proof.
  induction s as [| c s IH]; [reflexivity |]. rewrite rstrip_cons.
  destruct (str.rstrip s) as [| c' r] eqn:E.
  - destruct (str.isspace c) eqn:Ec; [reflexivity |].
    rewrite rstrip_cons. simpl str.rstrip. rewrite Ec. reflexivity.
  - rewrite rstrip_cons, IH. reflexivity.
Qed.

Lemma strip_strip (s : string) : str.strip (str.strip s) = str.strip s.
Proof.
  unfold str.strip.
  rewrite (lstrip_starts_clean (str.rstrip (str.lstrip s)))
    by apply starts_clean_rstrip, starts_clean_lstrip.
  apply rstrip_rstrip.
Qed.

(** X17.  The list [phones] is never empty (so [phones[0]] in
    [cleanup.py] exists): it has one entry for each comma of the configured
    string and one more, each without surrounding white space and without
    a comma; joining the pieces [split] returns gives the string back. *)
Theorem phones_parsed (phone : string) :
  (exists p ps, phones phone = p :: ps)
  /\ length (phones phone) = S (count "," phone)
  /\ Forall (fun p => str.strip p = p /\ count "," p = O) (phones phone)
  /\ str.join "," (str.split "," phone) = phone.
Proof.
  unfold phones. split; [| split; [| split]].
  - destruct (split_cons "," phone) as (p & ps & ->). simpl. eauto.
  - rewrite length_fmap. apply length_split.
  - apply Forall_fmap. eapply Forall_impl; [apply (count_split "," phone) |].
    intros p Hp. cbv beta in Hp. split; [apply strip_strip |].
    unfold str.strip.
    pose proof (count_rstrip "," (str.lstrip p)).
    pose proof (count_lstrip "," p). lia.
  - apply join_split.
Qed.
